(** * cfn-hint: hint parsing and line rewriting

    A shallow embedding of [parse_hint], [replace_line] and
    [process_content] of [cfn-hint.py], together with the Python string
    primitives they are written with, and the properties of the
    document processor stated against that embedding. *)

From Stdlib Require Import String Ascii NArith Arith Bool Lia List.
Import ListNotations.

(** * Python strings

    A Python [str] is a sequence of Unicode code points.  Code points are
    kept as [N], so that the line boundaries of [str.splitlines] and the
    white space of [str.strip] that lie outside ASCII (U+0085, U+2028, ...)
    are part of the model. *)

Definition char := N.
Definition str := list char.

(** [py "..."] is the [str] whose code points are the characters of an
    ASCII literal. *)
Definition py (s : string) : str := map N_of_ascii (list_ascii_of_string s).

(** The code point of an ASCII character. *)
Definition chr (a : ascii) : char := N_of_ascii a.

Definition LF : char := 10%N.
Definition CR : char := 13%N.
Definition nl : str := [LF].

Module Py.

(** [s.startswith(p)] *)
Fixpoint startswith (p s : str) : bool :=
  match p, s with
  | [], _ => true
  | _ :: _, [] => false
  | c :: p', d :: s' => N.eqb c d && startswith p' s'
  end.

(** [s.find(sub)]: the lowest index at which [sub] occurs, [None] for -1. *)
Fixpoint find (sub s : str) : option nat :=
  match s with
  | [] => if startswith sub [] then Some 0 else None
  | _ :: s' =>
      if startswith sub s then Some 0 else option_map S (find sub s')
  end.

(** [sub in s] *)
Definition contains (sub s : str) : bool :=
  match find sub s with Some _ => true | None => false end.

(** [s.split(sep, maxsplit)] for a non-empty separator and a
    non-negative [maxsplit], the only form the program uses. *)
Fixpoint split (sep s : str) (maxsplit : nat) : list str :=
  match maxsplit with
  | 0 => [s]
  | S m =>
      match find sep s with
      | None => [s]
      | Some i => firstn i s :: split sep (skipn (i + length sep) s) m
      end
  end.

(** [c.isspace()] (CPython's [_PyUnicode_IsWhitespace]). *)
Definition isspace (c : char) : bool :=
  ((9 <=? c) && (c <=? 13) || (28 <=? c) && (c <=? 32)
   || (c =? 133) || (c =? 160) || (c =? 5760)
   || (8192 <=? c) && (c <=? 8202)
   || (c =? 8232) || (c =? 8233) || (c =? 8239) || (c =? 8287)
   || (c =? 12288))%N.

Fixpoint lstrip (s : str) : str :=
  match s with
  | c :: s' => if isspace c then lstrip s' else s
  | [] => []
  end.

Definition rstrip (s : str) : str := rev (lstrip (rev s)).

(** [s.strip()] *)
Definition strip (s : str) : str := rstrip (lstrip s).

(** The line boundaries of [str.splitlines]
    (CPython's [_PyUnicode_IsLinebreak]). *)
Definition is_linebreak (c : char) : bool :=
  ((10 <=? c) && (c <=? 13) || (28 <=? c) && (c <=? 30)
   || (c =? 133) || (c =? 8232) || (c =? 8233))%N.

(** The scan of [s.splitlines(keepends=True)]: [line] is the part of the
    current line already read.  A carriage return directly followed by a
    line feed is one boundary; a last line without a boundary is kept,
    an empty one is not. *)
Fixpoint splitlines_from (line s : str) : list str :=
  match s with
  | [] => match line with [] => [] | _ :: _ => [line] end
  | c :: rest =>
      if is_linebreak c then
        match rest with
        | d :: rest' =>
            if (c =? CR)%N && (d =? LF)%N
            then (line ++ [c; d]) :: splitlines_from [] rest'
            else (line ++ [c]) :: splitlines_from [] rest
        | [] => (line ++ [c]) :: splitlines_from [] rest
        end
      else splitlines_from (line ++ [c]) rest
  end.

(** [s.splitlines(keepends=True)] *)
Definition splitlines (s : str) : list str := splitlines_from [] s.

(** ["".join(lines)] *)
Definition join (lines : list str) : str := concat lines.

End Py.

(** * Exceptions

    The exceptions that occur in the program, each with the text of
    [str(e)].  [OutsideFragment] is not a Python exception: the executable
    engine [PyRe] below raises it where it declines to answer. *)

Inductive exn : Type :=
| ValueError (msg : str)
| IndexError (msg : str)
| StopIteration
| re_error (msg : str)
| OverflowError (msg : str)
| OutsideFragment (what : str).

Definition exn_str (e : exn) : str :=
  match e with
  | ValueError m | IndexError m | re_error m | OverflowError m
  | OutsideFragment m => m
  | StopIteration => []
  end.

Inductive res (A : Type) : Type :=
| Ok (a : A)
| Raise (e : exn).
Arguments Ok {A} a.
Arguments Raise {A} e.

Definition bind {A B} (c : res A) (k : A -> res B) : res B :=
  match c with
  | Ok a => k a
  | Raise e => Raise e
  end.

Declare Scope res_scope.
Delimit Scope res_scope with res.
Notation "x <- c ;; k" := (bind c (fun x => k))
  (at level 61, c at next level, right associativity) : res_scope.
Notation "c ;;; k" := (bind c (fun _ => k))
  (at level 61, right associativity) : res_scope.
Open Scope res_scope.

(** [try: body  except <handled> as e: handler e].  The handler answers
    [None] on the exceptions its [except] clause does not name; those
    propagate. *)
Definition try_except {A} (body : res A) (handler : exn -> option (res A))
  : res A :=
  match body with
  | Ok a => Ok a
  | Raise e => match handler e with
               | Some r => r
               | None => Raise e
               end
  end.

Definition is_re_error (e : exn) : bool :=
  match e with re_error _ => true | _ => false end.

Definition is_ValueError (e : exn) : bool :=
  match e with ValueError _ => true | _ => false end.

(** * The regular-expression engine

    [re.compile] and [re.sub] belong to Python's library, not to the
    program: they are a parameter of the embedding.  An engine may raise
    any exception; [re.error] is the one the program handles. *)

Record regex_engine : Type := {
  re_compile : str -> res unit;
  (** [re.sub(pattern, repl, string)] *)
  re_sub : str -> str -> str -> res str
}.

(** The engine signals every failure with [re.error]. *)
Definition raises_only_re_error (E : regex_engine) : Prop :=
  (forall p e, re_compile E p = Raise e -> is_re_error e = true) /\
  (forall p r s e, re_sub E p r s = Raise e -> is_re_error e = true).

(** * The program *)

Inductive log_event : Type :=
| log_error (msg : str)
| log_warning (msg : str).

(** The literal of line 72. *)
Definition hint_marker : str := py "# cfn-hint: replace:".

(** [l[-1]] *)
Definition getitem_last (l : list str) : res str :=
  match l with
  | [] => Raise (IndexError (py "list index out of range"))
  | _ :: _ => Ok (last l [])
  end.

(** [a, b = l] *)
Definition unpack2 (l : list str) : res (str * str) :=
  match l with
  | [a; b] => Ok (a, b)
  | [] => Raise (ValueError (py "not enough values to unpack (expected 2, got 0)"))
  | [_] => Raise (ValueError (py "not enough values to unpack (expected 2, got 1)"))
  | _ => Raise (ValueError (py "too many values to unpack (expected 2)"))
  end.

Definition hint_format_message : str :=
  py "Invalid hint format. Expected '# cfn-hint: replace: <pattern> with: <replacement>'."
  ++ py " Error: ".

Definition parse_hint (hint_line : str) : res (str * str) :=
  try_except
    (parts <- getitem_last (Py.split (py ":") hint_line 2) ;;
     let parts := Py.strip parts in
     unpack2 (Py.split (py " with: ") parts 1))
    (fun e =>
       match e with
       | ValueError _ | IndexError _ =>
           Some (Raise (ValueError (hint_format_message ++ exn_str e)))
       | _ => None
       end).

(** The text of the [ValueError] of [replace_line]. *)
Definition invalid_regex_message (pattern : str) (e : exn) : str :=
  py "Invalid regex pattern: '" ++ pattern ++ py "'. Details: " ++ exn_str e.

(** The three records the loop logs. *)
Definition skipping_hint (e : exn) : log_event :=
  log_error (py "Skipping hint due to error: " ++ exn_str e).

Definition hint_at_eof (line : str) : log_event :=
  log_warning (py "Hint at EOF with no subsequent line to process: "
               ++ Py.strip line).

Definition skipping_replacement (e : exn) : log_event :=
  log_error (py "Skipping replacement due to invalid regex: " ++ exn_str e).

(** The two objects the loop of [process_content] changes: the list
    [modified_lines] and the log. *)
Record state : Type := {
  modified_lines : list str;
  log : list log_event
}.

Definition initial : state := {| modified_lines := []; log := [] |}.

(** [modified_lines.append(line)] *)
Definition append (line : str) (st : state) : state :=
  {| modified_lines := modified_lines st ++ [line]; log := log st |}.

Definition logging (ev : log_event) (st : state) : state :=
  {| modified_lines := modified_lines st; log := log st ++ [ev] |}.

Section Program.

Variable E : regex_engine.

Definition replace_line (line pattern replacement : str) : res str :=
  try_except
    (re_compile E pattern ;;;
     re_sub E pattern replacement line)
    (fun e =>
       match e with
       | re_error _ => Some (Raise (ValueError (invalid_regex_message pattern e)))
       | _ => None
       end).

(** [for line in lines_iter: ...], with [lines_iter] the lines the
    iterator has not yet yielded.  [next(lines_iter)] is the match on
    [rest]: its [[]] branch is the [StopIteration] the program catches.
    Each [except ValueError] lets every other exception through. *)
Fixpoint for_loop (lines_iter : list str) (st : state) : res state :=
  match lines_iter with
  | [] => Ok st
  | line :: rest =>
      if Py.contains hint_marker line then
        let st := append line st in
        match parse_hint line with
        | Raise (ValueError _ as e) => for_loop rest (logging (skipping_hint e) st)
        | Raise e => Raise e
        | Ok (pattern, replacement) =>
            match rest with
            | [] => Ok (logging (hint_at_eof line) st)
            | next_line :: rest' =>
                match replace_line next_line pattern replacement with
                | Raise (ValueError _ as e) =>
                    for_loop rest'
                      (append next_line (logging (skipping_replacement e) st))
                | Raise e => Raise e
                | Ok modified_line => for_loop rest' (append modified_line st)
                end
            end
        end
      else for_loop rest (append line st)
  end.

(** The run of the loop over a whole document. *)
Definition process_run (content : str) : res state :=
  for_loop (Py.splitlines content) initial.

Definition process_content (content : str) : res str :=
  st <- process_run content ;;
  Ok (Py.join (modified_lines st)).

End Program.

(** * An executable engine

    [PyRe] is an engine for a fragment of the syntax of Python's [re]
    (CPython 3.11): literals, [.], the classes [\d \D \s \S \w \W],
    escaped literals, character sets, the anchors [^ $ \A \Z \b \B],
    capturing groups and groups [(?:...)] that capture nothing,
    alternation and the repetitions [* + ?] and [{m,n}], greedy or
    lazy, in a pattern; literals, the escapes of [re]'s template
    syntax and the group references [\1] to [\99] and [\g<...>] in a
    replacement.  It answers on ASCII text only.  On what lies outside
    the fragment it raises [OutsideFragment] rather than guess.  The
    text of a [re.error] is that of [str(e)]: the message, the position
    in the pattern or the replacement, and the line and column when
    there is a line feed in it. *)

Module PyRe.

Definition is_digit (c : char) : bool := ((48 <=? c) && (c <=? 57))%N.
Definition is_octdigit (c : char) : bool := ((48 <=? c) && (c <=? 55))%N.
Definition is_asciiletter (c : char) : bool :=
  ((65 <=? c) && (c <=? 90) || (97 <=? c) && (c <=? 122))%N.
Definition is_ascii (s : str) : bool := forallb (fun c => (c <? 128)%N) s.
Definition is_word (c : char) : bool :=
  is_digit c || is_asciiletter c || (c =? chr "_")%N.

Definition digit_value (c : char) : N := (c - 48)%N.

(** ** The text of a [re.error] *)

Fixpoint decimal_digits (fuel : nat) (n : N) : str :=
  match fuel with
  | 0 => []
  | S f =>
      if (n <? 10)%N then [(48 + n)%N]
      else decimal_digits f (n / 10)%N ++ [(48 + n mod 10)%N]
  end.

(** ['%d' % n] *)
Definition decimal_N (n : N) : str :=
  decimal_digits (S (N.to_nat (N.log2 n))) n.

Definition decimal (n : nat) : str := decimal_N (N.of_nat n).

(** [pattern.count('\n', 0, pos)] *)
Definition count_newlines (src : str) (pos : nat) : nat :=
  length (filter (fun c => (c =? LF)%N) (firstn pos src)).

(** [pos - pattern.rfind('\n', 0, pos)] *)
Fixpoint column_from (before_reversed : str) : nat :=
  match before_reversed with
  | [] => 1
  | c :: r => if (c =? LF)%N then 1 else S (column_from r)
  end.

Definition colno (src : str) (pos : nat) : nat :=
  column_from (rev (firstn pos src)).

(** [re.error(msg, pattern, pos)] *)
Definition error_at (src : str) (pos : nat) (msg : str) : exn :=
  re_error
    (msg ++ py " at position " ++ decimal pos
     ++ if existsb (fun c => (c =? LF)%N) src
        then py " (line " ++ decimal (S (count_newlines src pos))
             ++ py ", column " ++ decimal (colno src pos) ++ py ")"
        else []).

(** The position in [src] at which the text [s] left to read begins. *)
Definition tell (src s : str) : nat := length src - length s.

(** The tokenizer of [re] reads one token ahead and raises as soon as
    the token ahead is a backslash with nothing after it: what is left
    after a token may not be [dangling]. *)
Definition dangling (s : str) : bool :=
  match s with
  | [c] => (c =? chr "\")%N
  | _ => false
  end.

Definition bad_escape_end (src : str) : exn :=
  error_at src (length src - 1) (py "bad escape (end of pattern)").

(** [source.get()]: the token ahead, one character or a backslash and
    the character after it, and the text after it. *)
Definition get (src s : str) : res (option (str * str)) :=
  match s with
  | [] => Ok None
  | c :: s1 =>
      if (c =? chr "\")%N then
        match s1 with
        | d :: s2 => if dangling s2 then Raise (bad_escape_end src)
                     else Ok (Some ([c; d], s2))
        | [] => Raise (bad_escape_end src)
        end
      else if dangling s1 then Raise (bad_escape_end src)
      else Ok (Some ([c], s1))
  end.

Inductive class : Type := Digit | Word | Space.

Definition in_class (k : class) (c : char) : bool :=
  match k with
  | Digit => is_digit c
  | Word => is_word c
  | Space => Py.isspace c
  end.

(** The members of a character set. *)
Inductive set_item : Type :=
| SChar (c : char)
| SRange (lo hi : char)
| SClass (negated : bool) (k : class).

Definition in_item (it : set_item) (c : char) : bool :=
  match it with
  | SChar d => (c =? d)%N
  | SRange lo hi => ((lo <=? c) && (c <=? hi))%N
  | SClass negated k => xorb negated (in_class k c)
  end.

Inductive anchor : Type :=
| AT_BEGINNING
| AT_BEGINNING_STRING
| AT_END
| AT_END_STRING
| AT_BOUNDARY
| AT_NON_BOUNDARY.

Inductive regex : Type :=
| Empty
| Lit (c : char)
| Any
| Cls (negated : bool) (k : class)
| In (negated : bool) (items : list set_item)
| At (a : anchor)
| Cat (a b : regex)
| Alt (a b : regex)
| Rep (greedy : bool) (lo : N) (hi : option N) (a : regex)
| Grp (n : nat) (a : regex).

Fixpoint nullable (r : regex) : bool :=
  match r with
  | Empty | At _ => true
  | Lit _ | Any | Cls _ _ | In _ _ => false
  | Cat a b => nullable a && nullable b
  | Alt a b => nullable a || nullable b
  | Rep _ lo _ a => (lo =? 0)%N || nullable a
  | Grp _ a => nullable a
  end.

(** ** Patterns *)

(** [MAXREPEAT] of [_sre]. *)
Definition MAXREPEAT : N := 4294967295%N.

Fixpoint take_digits (s : str) : str * str :=
  match s with
  | c :: s' => if is_digit c
               then let (d, r) := take_digits s' in (c :: d, r)
               else ([], s)
  | [] => ([], [])
  end.

(** [int(digits)] *)
Definition int (digits : str) : N :=
  fold_left (fun n c => (10 * n + digit_value c)%N) digits 0%N.

(** What follows a [{]: a literal brace, or the bounds of a repetition
    and the text after its [}].  As in [re]'s parser, a bound that
    reaches [MAXREPEAT] raises [OverflowError], not [re.error], and does
    so before the bounds are compared. *)
Inductive braces : Type :=
| LiteralBrace
| Bounds (lo : N) (hi : option N) (rest : str).

Definition parse_braces (src s : str) : res braces :=
  match s with
  | c :: _ =>
      if (c =? chr "}")%N then Ok LiteralBrace
      else
        let (lo, s1) := take_digits s in
        let (hi, s2) :=
          match s1 with
          | d :: s1' => if (d =? chr ",")%N then take_digits s1' else (lo, s1)
          | [] => (lo, s1)
          end in
        match s2 with
        | e :: s3 =>
            if (e =? chr "}")%N then
              if dangling s3 then Raise (bad_escape_end src) else
              let min := match lo with [] => 0%N | _ => int lo end in
              if (MAXREPEAT <=? min)%N
              then Raise (OverflowError (py "the repetition number is too large"))
              else
                match hi with
                | [] => Ok (Bounds min None s3)
                | _ =>
                    let max := int hi in
                    if (MAXREPEAT <=? max)%N
                    then Raise (OverflowError (py "the repetition number is too large"))
                    else if (max <? min)%N
                    then Raise (error_at src (tell src s)
                                  (py "min repeat greater than max repeat"))
                    else Ok (Bounds min (Some max) s3)
                end
            else Ok LiteralBrace
        | [] => Ok LiteralBrace
        end
  | [] => Ok LiteralBrace
  end.

(** The character after a backslash in a pattern; [pos] is the position
    of the backslash. *)
Definition escape (src : str) (pos : nat) (c : char) : res regex :=
  if (c =? chr "d")%N then Ok (Cls false Digit)
  else if (c =? chr "D")%N then Ok (Cls true Digit)
  else if (c =? chr "s")%N then Ok (Cls false Space)
  else if (c =? chr "S")%N then Ok (Cls true Space)
  else if (c =? chr "w")%N then Ok (Cls false Word)
  else if (c =? chr "W")%N then Ok (Cls true Word)
  else if (c =? chr "A")%N then Ok (At AT_BEGINNING_STRING)
  else if (c =? chr "Z")%N then Ok (At AT_END_STRING)
  else if (c =? chr "b")%N then Ok (At AT_BOUNDARY)
  else if (c =? chr "B")%N then Ok (At AT_NON_BOUNDARY)
  else if (c =? chr "a")%N then Ok (Lit 7%N)
  else if (c =? chr "f")%N then Ok (Lit 12%N)
  else if (c =? chr "n")%N then Ok (Lit 10%N)
  else if (c =? chr "r")%N then Ok (Lit 13%N)
  else if (c =? chr "t")%N then Ok (Lit 9%N)
  else if (c =? chr "v")%N then Ok (Lit 11%N)
  else if (c =? chr "x")%N || (c =? chr "u")%N || (c =? chr "U")%N
          || (c =? chr "N")%N || is_digit c
  then Raise (OutsideFragment (py "escape"))
  else if is_asciiletter c
  then Raise (error_at src pos (py "bad escape \" ++ [c]))
  else Ok (Lit c).

(** The character after a backslash in a character set. *)
Definition class_escape (src : str) (pos : nat) (c : char) : res set_item :=
  if (c =? chr "a")%N then Ok (SChar 7%N)
  else if (c =? chr "b")%N then Ok (SChar 8%N)
  else if (c =? chr "f")%N then Ok (SChar 12%N)
  else if (c =? chr "n")%N then Ok (SChar 10%N)
  else if (c =? chr "r")%N then Ok (SChar 13%N)
  else if (c =? chr "t")%N then Ok (SChar 9%N)
  else if (c =? chr "v")%N then Ok (SChar 11%N)
  else if (c =? chr "d")%N then Ok (SClass false Digit)
  else if (c =? chr "D")%N then Ok (SClass true Digit)
  else if (c =? chr "s")%N then Ok (SClass false Space)
  else if (c =? chr "S")%N then Ok (SClass true Space)
  else if (c =? chr "w")%N then Ok (SClass false Word)
  else if (c =? chr "W")%N then Ok (SClass true Word)
  else if (c =? chr "x")%N || (c =? chr "u")%N || (c =? chr "U")%N
          || (c =? chr "N")%N || is_octdigit c
  then Raise (OutsideFragment (py "escape"))
  else if is_digit c || is_asciiletter c
  then Raise (error_at src pos (py "bad escape \" ++ [c]))
  else Ok (SChar c).

(** A token of a character set as a member of it. *)
Definition set_member (src : str) (pos : nat) (token : str) : res set_item :=
  match token with
  | [c] => Ok (SChar c)
  | [_; d] => class_escape src pos d
  | _ => Raise (OutsideFragment (py "token"))
  end.

Definition bad_range (src : str) (pos : nat) (this that : str) : exn :=
  error_at src pos (py "bad character range " ++ this ++ py "-" ++ that).

(** The members of a set, read up to its [[]]]; [here] is the position of
    its [[[]], [acc] the members read so far, the last one first. *)
Fixpoint parse_set (fuel : nat) (src : str) (here : nat)
         (acc : list set_item) (s : str) {struct fuel}
  : res (list set_item * str) :=
  match fuel with
  | 0 => Raise (OutsideFragment (py "fuel"))
  | S f =>
      bind (get src s) (fun o =>
      match o with
      | None => Raise (error_at src here (py "unterminated character set"))
      | Some (this, s1) =>
          if match this, acc with
             | [c], _ :: _ => (c =? chr "]")%N
             | _, _ => false
             end
          then Ok (rev acc, s1)
          else
            bind (set_member src (tell src s) this) (fun code1 =>
            match s1 with
            | c :: s2 =>
                if (c =? chr "-")%N then
                  if dangling s2 then Raise (bad_escape_end src) else
                  bind (get src s2) (fun o2 =>
                  match o2 with
                  | None =>
                      Raise (error_at src here (py "unterminated character set"))
                  | Some (that, s3) =>
                      if match that with
                         | [d] => (d =? chr "]")%N
                         | _ => false
                         end
                      then Ok (rev (SChar (chr "-") :: code1 :: acc), s3)
                      else
                        bind (set_member src (tell src s2) that) (fun code2 =>
                        match code1, code2 with
                        | SChar lo, SChar hi =>
                            if (hi <? lo)%N
                            then Raise (bad_range src (tell src s) this that)
                            else parse_set f src here (SRange lo hi :: acc) s3
                        | _, _ => Raise (bad_range src (tell src s) this that)
                        end)
                  end)
                else parse_set f src here (code1 :: acc) s1
            | [] => parse_set f src here (code1 :: acc) s1
            end)
      end)
  end.

(** What the parser remembers of an item for the repetition that may
    follow it: an anchor has nothing to repeat, a repetition may not be
    repeated again. *)
Inductive item_kind : Type := Plain | Repeated | Anchor.

(** The items of a sequence, the last one first. *)
Definition items := list (regex * item_kind).

Definition sequence (its : items) : regex :=
  fold_left (fun acc it => match acc with
                           | Empty => fst it
                           | _ => Cat (fst it) acc
                           end) its Empty.

Definition kind_of (a : regex) : item_kind :=
  match a with
  | At _ => Anchor
  | _ => Plain
  end.

(** The repetition of the last item; [pos] is the position of the
    repetition character, [s] the text after the repetition, of which a
    [?] makes the repetition lazy. *)
Definition repeat_item (src : str) (pos : nat) (lo : N) (hi : option N)
           (its : items) (s : str) : res (items * str) :=
  match its with
  | [] | (_, Anchor) :: _ => Raise (error_at src pos (py "nothing to repeat"))
  | (_, Repeated) :: _ => Raise (error_at src pos (py "multiple repeat"))
  | (a, Plain) :: its' =>
      let (greedy, s1) :=
        match s with
        | c :: s1 => if (c =? chr "?")%N then (false, s1) else (true, s)
        | [] => (true, s)
        end in
      if dangling s1 then Raise (bad_escape_end src)
      else if match s with
              | c :: _ => (c =? chr "+")%N
              | [] => false
              end
      then Raise (OutsideFragment (py "possessive repetition"))
      else if nullable a
      then Raise (OutsideFragment (py "repetition of an empty match"))
      else Ok ((Rep greedy lo hi a, Repeated) :: its', s1)
  end.

(** [parse_alt] reads alternatives up to a [)] or the end of the
    pattern, [parse_seq] one alternative; [g] counts the groups
    opened so far. *)
Fixpoint parse_alt (fuel : nat) (src s : str) (g : nat) {struct fuel}
  : res (regex * str * nat) :=
  match fuel with
  | 0 => Raise (OutsideFragment (py "fuel"))
  | S f =>
      bind (parse_seq f src [] s g) (fun '(a, s1, g1) =>
      match s1 with
      | c :: s2 =>
          if (c =? chr "|")%N
          then if dangling s2 then Raise (bad_escape_end src) else
               bind (parse_alt f src s2 g1) (fun '(b, s3, g3) =>
               Ok (Alt a b, s3, g3))
          else Ok (a, s1, g1)
      | [] => Ok (a, s1, g1)
      end)
  end
with parse_seq (fuel : nat) (src : str) (its : items) (s : str) (g : nat)
               {struct fuel}
  : res (regex * str * nat) :=
  match fuel with
  | 0 => Raise (OutsideFragment (py "fuel"))
  | S f =>
      match s with
      | [] => Ok (sequence its, s, g)
      | c :: s' =>
          if (c =? chr "|")%N || (c =? chr ")")%N
          then Ok (sequence its, s, g)
          else if dangling (if (c =? chr "\")%N then tl s' else s')
          then Raise (bad_escape_end src)
          else if (c =? chr "(")%N then
            match s' with
            | d :: s0 =>
                if (d =? chr "?")%N then
                  match s0 with
                  | d0 :: s00 =>
                      if (d0 =? chr ":")%N then
                        if dangling s00 then Raise (bad_escape_end src) else
                        bind (parse_alt f src s00 g) (fun '(a, s1, g1) =>
                        match s1 with
                        | _ :: s2 =>
                            if dangling s2 then Raise (bad_escape_end src) else
                            parse_seq f src ((a, Plain) :: its) s2 g1
                        | [] => Raise (error_at src (tell src s)
                                         (py "missing ), unterminated subpattern"))
                        end)
                      else Raise (OutsideFragment (py "group extension"))
                  | [] => Raise (OutsideFragment (py "group extension"))
                  end
                else
                  bind (parse_alt f src s' (S g)) (fun '(a, s1, g1) =>
                  match s1 with
                  | _ :: s2 =>
                      if dangling s2 then Raise (bad_escape_end src) else
                      parse_seq f src ((Grp (S g) a, Plain) :: its) s2 g1
                  | [] => Raise (error_at src (tell src s)
                                   (py "missing ), unterminated subpattern"))
                  end)
            | [] => Raise (error_at src (tell src s)
                             (py "missing ), unterminated subpattern"))
            end
          else if (c =? chr "*")%N then
            bind (repeat_item src (tell src s) 0 None its s') (fun '(its', s1) =>
            parse_seq f src its' s1 g)
          else if (c =? chr "+")%N then
            bind (repeat_item src (tell src s) 1 None its s') (fun '(its', s1) =>
            parse_seq f src its' s1 g)
          else if (c =? chr "?")%N then
            bind (repeat_item src (tell src s) 0 (Some 1%N) its s')
                 (fun '(its', s1) =>
            parse_seq f src its' s1 g)
          else if (c =? chr "{")%N then
            bind (parse_braces src s') (fun b =>
            match b with
            | LiteralBrace => parse_seq f src ((Lit c, Plain) :: its) s' g
            | Bounds lo hi s1 =>
                bind (repeat_item src (tell src s) lo hi its s1)
                     (fun '(its', s2) =>
                parse_seq f src its' s2 g)
            end)
          else if (c =? chr "\")%N then
            match s' with
            | d :: s1 =>
                bind (escape src (tell src s) d) (fun a =>
                parse_seq f src ((a, kind_of a) :: its) s1 g)
            | [] => Raise (bad_escape_end src)
            end
          else if (c =? chr ".")%N
          then parse_seq f src ((Any, Plain) :: its) s' g
          else if (c =? chr "^")%N
          then parse_seq f src ((At AT_BEGINNING, Anchor) :: its) s' g
          else if (c =? chr "$")%N
          then parse_seq f src ((At AT_END, Anchor) :: its) s' g
          else if (c =? chr "[")%N then
            let (negated, s1) :=
              match s' with
              | d :: s1 => if (d =? chr "^")%N then (true, s1) else (false, s')
              | [] => (false, s')
              end in
            if dangling s1 then Raise (bad_escape_end src) else
            bind (parse_set (S (length s1)) src (tell src s) [] s1)
                 (fun '(members, s2) =>
            parse_seq f src ((In negated members, Plain) :: its) s2 g)
          else parse_seq f src ((Lit c, Plain) :: its) s' g
      end
  end.

(** The pattern and the number of its groups. *)
Definition parse (pattern : str) : res (regex * nat) :=
  if is_ascii pattern then
    bind (parse_alt (2 * length pattern + 2) pattern pattern 0)
         (fun '(a, s, g) =>
    match s with
    | [] => Ok (a, g)
    | _ :: _ => Raise (error_at pattern (tell pattern s)
                         (py "unbalanced parenthesis"))
    end)
  else Raise (OutsideFragment (py "pattern outside ASCII")).

(** ** Matching *)

(** The text each group matched last, the latest first. *)
Definition captures := list (nat * str).

Fixpoint group (n : nat) (cs : captures) : str :=
  match cs with
  | (m, t) :: cs' => if Nat.eqb m n then t else group n cs'
  | [] => []
  end.

Definition below (hi : option N) (n : N) : bool :=
  match hi with
  | Some h => (n <? h)%N
  | None => true
  end.

Definition word_at (s : str) : bool :=
  match s with
  | c :: _ => is_word c
  | [] => false
  end.

(** Whether the anchor holds between the text [left] before a position,
    the nearest character first, and the text [inp] after it. *)
Definition at_ok (a : anchor) (left inp : str) : bool :=
  match a with
  | AT_BEGINNING | AT_BEGINNING_STRING =>
      match left with [] => true | _ :: _ => false end
  | AT_END =>
      match inp with
      | [] => true
      | [c] => (c =? LF)%N
      | _ => false
      end
  | AT_END_STRING =>
      match inp with [] => true | _ :: _ => false end
  | AT_BOUNDARY =>
      match left, inp with
      | [], [] => false
      | _, _ => xorb (word_at left) (word_at inp)
      end
  | AT_NON_BOUNDARY =>
      match left, inp with
      | [], [] => false
      | _, _ => negb (xorb (word_at left) (word_at inp))
      end
  end.

(** The loop of a repetition of [body], [n] turns of it done.  Below
    [lo] turns one more turn is due.  From there on a greedy repetition
    tries one more turn first, as long as [hi] allows, and [k] when the
    turns fail or are spent; a lazy one tries [k] first.  A turn that
    consumes nothing is refused. *)
Fixpoint rep_loop {A : Type}
         (body : str -> str -> captures ->
                 (str -> str -> captures -> option A) -> option A)
         (greedy : bool) (lo : N) (hi : option N)
         (k : str -> str -> captures -> option A)
         (fuel : nat) (n : N) (left inp : str) (cs : captures)
         {struct fuel} : option A :=
  match fuel with
  | 0 => None
  | S f =>
      let more :=
        body left inp cs
             (fun l i c => if length i <? length inp
                           then rep_loop body greedy lo hi k f (n + 1)%N l i c
                           else None) in
      if (n <? lo)%N then more
      else if greedy then
        if below hi n then
          match more with
          | Some x => Some x
          | None => k left inp cs
          end
        else k left inp cs
      else
        match k left inp cs with
        | Some x => Some x
        | None => if below hi n then more else None
        end
  end.

(** A backtracking matcher: [k] is what remains to be matched after [r],
    given the text before, the text left and the groups so far.  A
    repetition is greedy or lazy. *)
Fixpoint mat {A : Type} (r : regex) (left inp : str) (cs : captures)
         (k : str -> str -> captures -> option A) {struct r} : option A :=
  match r with
  | Empty => k left inp cs
  | Lit c =>
      match inp with
      | d :: i => if (c =? d)%N then k (d :: left) i cs else None
      | [] => None
      end
  | Any =>
      match inp with
      | d :: i => if (d =? LF)%N then None else k (d :: left) i cs
      | [] => None
      end
  | Cls negated cl =>
      match inp with
      | d :: i => if xorb negated (in_class cl d) then k (d :: left) i cs
                  else None
      | [] => None
      end
  | In negated members =>
      match inp with
      | d :: i =>
          if xorb negated (existsb (fun it => in_item it d) members)
          then k (d :: left) i cs else None
      | [] => None
      end
  | At a => if at_ok a left inp then k left inp cs else None
  | Cat a b => mat a left inp cs (fun l i c => mat b l i c k)
  | Alt a b =>
      match mat a left inp cs k with
      | Some x => Some x
      | None => mat b left inp cs k
      end
  | Grp n a =>
      mat a left inp cs
          (fun l i c => k l i ((n, firstn (length inp - length i) inp) :: c))
  | Rep greedy lo hi a =>
      rep_loop (mat a) greedy lo hi k (S (length inp)) 0%N left inp cs
  end.

(** A match of [r] at the head of [inp]: the text before the end of the
    match, the text after it and the groups.  With [must_advance] an
    empty match is refused. *)
Definition match_at (r : regex) (left inp : str) (must_advance : bool)
  : option (str * str * captures) :=
  mat r left inp []
      (fun l i c => if must_advance && (length i =? length inp)
                    then None else Some (l, i, c)).

(** The leftmost match in [inp]: the text skipped before it, the text
    matched, the text before the end of the match, the text after it
    and the groups.  [must_advance] bears on the first position only. *)
Fixpoint search (r : regex) (left inp : str) (must_advance : bool)
         (skipped : str)
  : option (str * str * str * str * captures) :=
  match match_at r left inp must_advance with
  | Some (l, rest, cs) =>
      Some (skipped, firstn (length inp - length rest) inp, l, rest, cs)
  | None =>
      match inp with
      | [] => None
      | d :: inp' => search r (d :: left) inp' false (skipped ++ [d])
      end
  end.

(** ** Replacement templates *)

Inductive template_item : Type :=
| Literal (c : char)
| GroupRef (n : nat).

(** The character after a backslash in a replacement, when it is
    neither a digit nor [g]; [pos] is the position of the backslash. *)
Definition template_escape (src : str) (pos : nat) (c : char)
  : res (list template_item) :=
  if (c =? chr "a")%N then Ok [Literal 7%N]
  else if (c =? chr "b")%N then Ok [Literal 8%N]
  else if (c =? chr "f")%N then Ok [Literal 12%N]
  else if (c =? chr "n")%N then Ok [Literal 10%N]
  else if (c =? chr "r")%N then Ok [Literal 13%N]
  else if (c =? chr "t")%N then Ok [Literal 9%N]
  else if (c =? chr "v")%N then Ok [Literal 11%N]
  else if (c =? chr "\")%N then Ok [Literal c]
  else if (c =? chr "0")%N
  then Raise (OutsideFragment (py "template escape"))
  else if is_asciiletter c
  then Raise (error_at src pos (py "bad escape \" ++ [c]))
  else Ok [Literal (chr "\"); Literal c].

(** [addgroup(index, ...)]; [pos] is the position the error names. *)
Definition group_ref (src : str) (pos : nat) (groups : nat) (index : N)
  : res (list template_item) :=
  if (N.of_nat groups <? index)%N
  then Raise (error_at src pos
                (py "invalid group reference " ++ decimal_N index))
  else Ok [GroupRef (N.to_nat index)].

(** [name.isidentifier()], on ASCII *)
Definition is_identifier (name : str) : bool :=
  match name with
  | c :: rest =>
      (is_asciiletter c || (c =? chr "_")%N) && forallb is_word rest
  | [] => false
  end.

(** [s.getuntil(">", "group name")]: the name read so far in [result],
    the text left in [s]. *)
Fixpoint getuntil (fuel : nat) (src : str) (result : str) (s : str)
         {struct fuel} : res (str * str) :=
  match fuel with
  | 0 => Raise (OutsideFragment (py "fuel"))
  | S f =>
      bind (get src s) (fun o =>
      match o with
      | None =>
          match result with
          | [] => Raise (error_at src (tell src s) (py "missing group name"))
          | _ :: _ =>
              Raise (error_at src (tell src s - length result)
                       (py "missing >, unterminated name"))
          end
      | Some (c, s1) =>
          if match c with
             | [d] => (d =? chr ">")%N
             | _ => false
             end
          then
            match result with
            | [] => Raise (error_at src (tell src s1 - 1)
                             (py "missing group name"))
            | _ :: _ => Ok (result, s1)
            end
          else getuntil f src (result ++ c) s1
      end)
  end.

(** What follows [\g] in a replacement. *)
Definition named_ref (src : str) (groups : nat) (s : str)
  : res (list template_item * str) :=
  match s with
  | c :: s1 =>
      if (c =? chr "<")%N then
        if dangling s1 then Raise (bad_escape_end src) else
        bind (getuntil (S (length s1)) src [] s1) (fun '(name, s2) =>
        if is_identifier name
        then Raise (IndexError (py "unknown group name '" ++ name ++ py "'"))
        else if forallb is_digit name
        then bind (group_ref src (tell src s2 - S (length name)) groups
                             (int name)) (fun a => Ok (a, s2))
        else Raise (OutsideFragment (py "group name")))
      else Raise (error_at src (tell src s) (py "missing <"))
  | [] => Raise (error_at src (tell src s) (py "missing <"))
  end.

Fixpoint parse_template (fuel : nat) (src : str) (groups : nat) (t : str)
         {struct fuel} : res (list template_item) :=
  match fuel with
  | 0 => Raise (OutsideFragment (py "fuel"))
  | S f =>
      match t with
      | [] => Ok []
      | c :: t1 =>
          if (c =? chr "\")%N then
            match t1 with
            | [] => Raise (bad_escape_end src)
            | d :: t2 =>
                if dangling t2 then Raise (bad_escape_end src)
                else if (d =? chr "g")%N then
                  bind (named_ref src groups t2) (fun '(a, t3) =>
                  bind (parse_template f src groups t3) (fun b =>
                  Ok (a ++ b)))
                else if is_digit d && negb (d =? chr "0")%N then
                  match t2 with
                  | d2 :: t3 =>
                      if is_digit d2 then
                        if dangling t3 then Raise (bad_escape_end src) else
                        if is_octdigit d && is_octdigit d2
                           && match t3 with
                              | d3 :: _ => is_octdigit d3
                              | [] => false
                              end
                        then Raise (OutsideFragment (py "octal escape"))
                        else
                          bind (group_ref src (S (tell src t)) groups
                                          (int [d; d2])) (fun a =>
                          bind (parse_template f src groups t3) (fun b =>
                          Ok (a ++ b)))
                      else
                        bind (group_ref src (S (tell src t)) groups (int [d]))
                             (fun a =>
                        bind (parse_template f src groups t2) (fun b =>
                        Ok (a ++ b)))
                  | [] =>
                      bind (group_ref src (S (tell src t)) groups (int [d]))
                           (fun a =>
                      bind (parse_template f src groups t2) (fun b =>
                      Ok (a ++ b)))
                  end
                else
                  bind (template_escape src (tell src t) d) (fun a =>
                  bind (parse_template f src groups t2) (fun b =>
                  Ok (a ++ b)))
            end
          else if dangling t1 then Raise (bad_escape_end src)
          else bind (parse_template f src groups t1) (fun b =>
               Ok (Literal c :: b))
      end
  end.

(** The replacement as [re.sub] reads it for a pattern of [groups]
    groups. *)
Definition template (groups : nat) (repl : str)
  : res (list template_item) :=
  parse_template (S (length repl)) repl groups repl.

(** The replacement for a match: [whole] is the text matched, group 0. *)
Definition expand (tpl : list template_item) (whole : str) (cs : captures)
  : str :=
  concat (map (fun it => match it with
                         | Literal c => [c]
                         | GroupRef 0 => whole
                         | GroupRef n => group n cs
                         end) tpl).

(** ** Substitution *)

(** The loop of [re.sub]: every leftmost match in turn, each search
    starting where the last match ended; after an empty match the next
    one must advance. *)
Fixpoint sub_loop (fuel : nat) (r : regex) (tpl : list template_item)
         (left inp : str) (must_advance : bool) : str :=
  match fuel with
  | 0 => inp
  | S f =>
      match search r left inp must_advance [] with
      | None => inp
      | Some (skipped, matched, l, rest, cs) =>
          skipped ++ expand tpl matched cs
          ++ sub_loop f r tpl l rest
               match matched with [] => true | _ :: _ => false end
      end
  end.

Definition compile (pattern : str) : res unit :=
  bind (parse pattern) (fun _ => Ok tt).

Definition sub (pattern repl string : str) : res str :=
  bind (parse pattern) (fun '(r, groups) =>
  if is_ascii repl then
    bind (template groups repl) (fun tpl =>
    if is_ascii string
    then Ok (sub_loop (2 * length string + 2) r tpl [] string false)
    else Raise (OutsideFragment (py "text outside ASCII")))
  else Raise (OutsideFragment (py "replacement outside ASCII"))).

Definition engine : regex_engine :=
  {| re_compile := compile; re_sub := sub |}.

End PyRe.

(** * Notions the properties are stated with *)

(** ** What a substitution is

    The matches of a pattern, told without the matcher: [matches r left
    m right cs cs'] says that the text [m], standing between the text
    [left] before it (the nearest character first) and the text [right]
    after it, is matched by [r], the groups going from [cs] to [cs']. *)








(** ** Hints, runs and lines *)

Definition colon : char := chr ":".

(** The text after the [n]-th colon of [s], when [s] has that many. *)
Fixpoint after_colons (s : str) (n : nat) {struct s} : option str :=
  match n with
  | 0 => Some s
  | S n' =>
      match s with
      | [] => None
      | c :: s' => if (c =? colon)%N then after_colons s' n' else after_colons s' n
      end
  end.

(** The last piece of [s.split(':', 2)]. *)
Definition last_part (s : str) : str :=
  match after_colons s 2 with
  | Some t => t
  | None => match after_colons s 1 with
            | Some t => t
            | None => s
            end
  end.

(** The delimiter between pattern and replacement. *)
Definition delimiter : str := py " with: ".

(** The one failure of [parse_hint]. *)
Definition unpack_failure : exn :=
  ValueError (hint_format_message
              ++ py "not enough values to unpack (expected 2, got 1)").

(** The number of pieces the colons of [s] cut it into. *)
Definition colon_parts (s : str) : nat :=
  S (length (filter (fun c => (c =? colon)%N) s)).

(** [e] is an exception the engine raises on some input. *)
Definition engine_raises (E : regex_engine) (e : exn) : Prop :=
  (exists p, re_compile E p = Raise e) \/
  (exists p r s, re_sub E p r s = Raise e).

(** What a run leaves when it starts from [st] rather than from
    [initial]. *)
Definition after (st r : state) : state :=
  {| modified_lines := modified_lines st ++ modified_lines r;
     log := log st ++ log r |}.

(** What one turn of the loop does with a line it takes for a hint:
    the branch of line 72, with the loop going on after it. *)
Definition hint_turn (E : regex_engine) (line : str) (rest : list str)
           (st : state) : res state :=
  match parse_hint line with
  | Raise e => for_loop E rest (logging (skipping_hint e) (append line st))
  | Ok (pattern, replacement) =>
      match rest with
      | [] => Ok (logging (hint_at_eof line) (append line st))
      | next_line :: rest' =>
          match replace_line E next_line pattern replacement with
          | Ok modified_line =>
              for_loop E rest' (append modified_line (append line st))
          | Raise e =>
              if is_ValueError e
              then for_loop E rest'
                     (append next_line
                        (logging (skipping_replacement e) (append line st)))
              else Raise e
          end
      end
  end.

(** The loop, having drawn the lines [lines], has drawn the last of them
    as a hint that parses: the line that comes next, if any, is the
    target of that hint and is not looked at as a hint itself. *)
Fixpoint pending (lines : list str) : bool :=
  match lines with
  | [] => false
  | line :: rest =>
      if Py.contains hint_marker line then
        match parse_hint line with
        | Raise _ => pending rest
        | Ok _ =>
            match rest with
            | [] => true
            | _ :: rest' => pending rest'
            end
        end
      else pending rest
  end.

(** No line of the document carries the marker. *)
Definition no_hint_lines (lines : list str) : Prop :=
  forall l, In l lines -> Py.contains hint_marker l = false.

(** The number of logical lines of a document. *)
Definition logical_lines (s : str) : nat := length (Py.splitlines s).

(** The line structure of a text: its line boundaries in order, and
    whether there is text between them. *)
Inductive token : Type :=
| Text
| Break (c : char).

(** One more character of text before a shape. *)
Definition more_text (ts : list token) : list token :=
  match ts with
  | Text :: _ => ts
  | _ => Text :: ts
  end.

Fixpoint shape (s : str) : list token :=
  match s with
  | [] => []
  | c :: s' =>
      if Py.is_linebreak c then Break c :: shape s'
      else more_text (shape s')
  end.

Definition nonempty (s : str) : bool :=
  match s with
  | [] => false
  | _ :: _ => true
  end.

Definition same_shape (a b : str) : Prop := shape a = shape b.

(** The shape of [a ++ b] from the shapes of [a] and [b]. *)
Fixpoint glue (x y : list token) : list token :=
  match x with
  | [] => y
  | t :: x' =>
      match x' with
      | [] => match t, y with
              | Text, Text :: _ => y
              | _, _ => t :: y
              end
      | _ :: _ => t :: glue x' y
      end
  end.

(** The number of lines of a text of a given shape; [started] tells
    that the current line has text already. *)
Fixpoint count_lines (started : bool) (ts : list token) : nat :=
  match ts with
  | [] => if started then 1 else 0
  | Text :: ts' => count_lines true ts'
  | Break c :: ts' =>
      match ts' with
      | Break d :: ts'' =>
          if (c =? CR)%N && (d =? LF)%N
          then S (count_lines false ts'')
          else S (count_lines false ts')
      | _ => S (count_lines false ts')
      end
  end.

(** * Hint lines as they are written *)

Definition all_space (s : str) : bool := forallb Py.isspace s.

Definition no_colon (s : str) : bool :=
  forallb (fun c => negb (c =? colon)%N) s.

(** The delimiter short of its last space: what is left of it at the end
    of a line once [strip] has passed. *)
Definition open_delimiter : str := py " with:".

(** A line made of two pieces closed by colons, then the pattern, the
    delimiter and the replacement, with white space around them. *)
Definition hint_text (lead name ws1 pattern replacement ws2 : str) : str :=
  lead ++ [colon] ++ name ++ [colon]
  ++ ws1 ++ pattern ++ delimiter ++ replacement ++ ws2.

(** The lines of a document that carry the marker. *)
Definition marker_lines (lines : list str) : list str :=
  filter (Py.contains hint_marker) lines.

(** [a] ends where a line ends, as far as [a ++ b] goes: it is empty, or
    its last character is a line boundary that a first character of [b]
    does not complete. *)
Definition at_line_end (a b : str) : bool :=
  match rev a with
  | [] => true
  | c :: _ =>
      Py.is_linebreak c &&
      negb ((c =? CR)%N && match b with
                           | d :: _ => (d =? LF)%N
                           | [] => false
                           end)
  end.

(** The line of index [i] comes directly after a line that carries the
    marker. *)
Definition follows_marker (lines : list str) (i : nat) : bool :=
  match i with
  | 0 => false
  | S j => match nth_error lines j with
           | Some prev => Py.contains hint_marker prev
           | None => false
           end
  end.

(** * The command: [setup_logging], [print_diff] and [main]

    What [main] does after [parse_args].  The file system, the standard
    input, [difflib] and the handlers of [logging] are a parameter, a
    [system] over a type [FS] of file system states of which nothing is
    supposed.  A [world] is the state [main] works on: the file system,
    the text [print] was given for the standard output (what [colorama]
    makes of the colors in it is not modelled), the records [logging] let
    through and the calls made of [write_text].  A record is a level and
    a message; the traceback [exc_info] adds is not kept.  [print] is
    taken not to fail. *)

(** A [Path], as the text [str] gives of it. *)
Definition path : Type := str.

(** What [main] tells apart in what is raised: an [Exception] or not,
    an [OSError] or not, and the text of [str(e)].  The exceptions of
    the core are [Exception]s all. *)
Inductive raised : Type :=
| Exception (os_error : bool) (text : str)
| BaseException (text : str).

Inductive io (A : Type) : Type :=
| Return (a : A)
| Throw (x : raised).
Arguments Return {A} a.
Arguments Throw {A} x.

Inductive level : Type := INFO | WARNING | ERROR.

Definition record : Type := level * str.

Definition of_log_event (ev : log_event) : record :=
  match ev with
  | log_error m => (ERROR, m)
  | log_warning m => (WARNING, m)
  end.

(** What [setup_logging] leaves of [logging]: disabled, or a handler on
    a file or on the standard error, both at level [INFO]. *)
Inductive sink : Type :=
| Disabled
| ToFile (name : str)
| ToStderr.

Definition EXIT_SUCCESS : nat := 0.
Definition EXIT_GENERAL_FAILURE : nat := 1.
Definition EXIT_NO_FILES_MATCHED : nat := 2.
Definition EXIT_FILE_READ_ERROR : nat := 3.
Definition EXIT_FILE_WRITE_ERROR : nat := 4.
Definition EXIT_REGEX_ERROR : nat := 6.
Definition EXIT_INTERNAL_ERROR : nat := 8.

(** The namespace [parse_args] returns; [log_file] is its [log]. *)
Record arguments : Type := {
  input : option (list str);
  stdin : bool;
  output_dir : option path;
  log_file : option str;
  diff : bool;
  quiet : bool
}.

(** [a == b] on [str] *)
Fixpoint str_eqb (a b : str) : bool :=
  match a, b with
  | [], [] => true
  | c :: a', d :: b' => (c =? d)%N && str_eqb a' b'
  | _, _ => false
  end.

(** [colorama.Fore] *)
Definition ESC : char := 27%N.
Definition Fore_RED : str := ESC :: py "[31m".
Definition Fore_GREEN : str := ESC :: py "[32m".
Definition Fore_CYAN : str := ESC :: py "[36m".

(** The color [print_diff] puts before a line of the diff. *)
Definition paint (line : str) : str :=
  if Py.startswith (py "+++") line || Py.startswith (py "---") line then []
  else if Py.startswith (py "@@") line then Fore_CYAN
  else if Py.startswith (py "+") line then Fore_GREEN
  else if Py.startswith (py "-") line then Fore_RED
  else [].

(** [for_loop] with the state kept when an exception leaves the loop:
    the records logged before it have been logged. *)
Fixpoint for_loop_logged (E : regex_engine) (lines_iter : list str)
         (st : state) : state * option exn :=
  match lines_iter with
  | [] => (st, None)
  | line :: rest =>
      if Py.contains hint_marker line then
        let st := append line st in
        match parse_hint line with
        | Raise (ValueError _ as e) =>
            for_loop_logged E rest (logging (skipping_hint e) st)
        | Raise e => (st, Some e)
        | Ok (pattern, replacement) =>
            match rest with
            | [] => (logging (hint_at_eof line) st, None)
            | next_line :: rest' =>
                match replace_line E next_line pattern replacement with
                | Raise (ValueError _ as e) =>
                    for_loop_logged E rest'
                      (append next_line (logging (skipping_replacement e) st))
                | Raise e => (st, Some e)
                | Ok modified_line =>
                    for_loop_logged E rest' (append modified_line st)
                end
            end
        end
      else for_loop_logged E rest (append line st)
  end.

(** [process_content] with what it logged. *)
Definition process_logged (E : regex_engine) (content : str)
  : list log_event * res str :=
  let (st, e) := for_loop_logged E (Py.splitlines content) initial in
  (log st,
   match e with
   | None => Ok (Py.join (modified_lines st))
   | Some e => Raise e
   end).

Section Command.

Variable FS : Type.

Record system : Type := {
  (** [sys.stdin.read()] *)
  stdin_read : io str;
  (** [Path.cwd()] *)
  cwd : FS -> io path;
  (** [Path(pattern).is_absolute()] *)
  is_absolute : str -> bool;
  (** [list(p.parent.glob(p.name))] for [p = Path(pattern)] *)
  parent_glob : FS -> str -> io (list path);
  (** [list(cwd.glob(pattern))] and [list(cwd.rglob(pattern))] *)
  cwd_glob : FS -> path -> str -> io (list path);
  cwd_rglob : FS -> path -> str -> io (list path);
  (** [f.is_file()] *)
  is_file : FS -> path -> io bool;
  (** [sorted(files_to_process)], of the paths added to the set *)
  sorted_set : list path -> list path;
  (** [output_dir.mkdir(parents=True, exist_ok=True)] *)
  mkdir : FS -> path -> FS * option raised;
  (** [output_dir / file_path.name] *)
  output_file : path -> path -> path;
  (** [file_path.read_text(encoding="utf-8")] *)
  read_text : FS -> path -> io str;
  (** [output_path.write_text(content, encoding="utf-8")] *)
  write_text : FS -> path -> str -> FS * option raised;
  (** [list(unified_diff(a, b, fromfile=..., tofile=...))] *)
  unified_diff : list str -> list str -> str -> str -> list str;
  (** [logging.basicConfig(filename=...)] opening the file, and a
      record going to it *)
  open_log : FS -> str -> FS * option raised;
  log_append : FS -> str -> record -> FS
}.

Record world : Type := {
  fs : FS;
  stdout : str;
  logged : list record;
  writes : list (path * str)
}.

Variable sys : system.
Variable E : regex_engine.

Definition set_fs (f : FS) (w : world) : world :=
  {| fs := f; stdout := stdout w; logged := logged w; writes := writes w |}.

(** [print(text, end='')] *)
Definition print (text : str) (w : world) : world :=
  {| fs := fs w; stdout := stdout w ++ text;
     logged := logged w; writes := writes w |}.

(** [logging.info], [logging.warning] and [logging.error]. *)
Definition emit (s : sink) (r : record) (w : world) : world :=
  match s with
  | Disabled => w
  | ToStderr =>
      {| fs := fs w; stdout := stdout w;
         logged := logged w ++ [r]; writes := writes w |}
  | ToFile name =>
      {| fs := log_append sys (fs w) name r; stdout := stdout w;
         logged := logged w ++ [r]; writes := writes w |}
  end.

Definition emit_all (s : sink) (rs : list record) (w : world) : world :=
  fold_left (fun w r => emit s r w) rs w.

Definition setup_logging (log_file : option str) (quiet : bool) (w : world)
  : world * io sink :=
  if quiet then (w, Return Disabled)
  else
    match log_file with
    | Some ((_ :: _) as name) =>
        let (f, r) := open_log sys (fs w) name in
        (set_fs f w, match r with
                     | None => Return (ToFile name)
                     | Some x => Throw x
                     end)
    | _ => (w, Return ToStderr)
    end.

Definition print_diff (original_content modified_content file_name : str)
           (w : world) : world :=
  let display_name :=
    match file_name with
    | [] => []
    | _ :: _ => py " (" ++ file_name ++ py ")"
    end in
  let diff_output :=
    unified_diff sys (Py.splitlines original_content)
                 (Py.splitlines modified_content)
                 (py "original" ++ display_name)
                 (py "modified" ++ display_name) in
  match diff_output with
  | [] => print (Fore_GREEN ++ py "No changes detected for" ++ display_name
                 ++ py "." ++ nl) w
  | _ :: _ => fold_left (fun w line => print (paint line ++ line) w) diff_output w
  end.

(** [process_content] in [main]: its records go where [logging] sends
    them, as they come. *)
Definition run_process (s : sink) (content : str) (w : world)
  : world * res str :=
  let (evs, result) := process_logged E content in
  (emit_all s (map of_log_event evs) w, result).

(** The branch [if args.stdin]. *)
Definition main_stdin (s : sink) (args : arguments) (w : world)
  : world * io nat :=
  let w := emit s (INFO, py "Reading from stdin...") w in
  match stdin_read sys with
  | Throw (Exception _ text) =>
      (emit s (ERROR, py "Error reading stdin: " ++ text) w,
       Return EXIT_FILE_READ_ERROR)
  | Throw x => (w, Throw x)
  | Return original_content =>
      match run_process s original_content w with
      | (w, Raise e) =>
          (emit s (ERROR, py "An internal error occurred while processing stdin: "
                          ++ exn_str e) w,
           Return EXIT_INTERNAL_ERROR)
      | (w, Ok modified_content) =>
          (if diff args
           then print_diff original_content modified_content [] w
           else print (modified_content ++ nl) w,
           Return EXIT_SUCCESS)
      end
  end.

(** [for f in matched: if f.is_file(): files_to_process.add(f)] *)
Fixpoint add_files (matched : list path) (files : list path) (w : world)
  : io (list path) :=
  match matched with
  | [] => Return files
  | f :: rest =>
      match is_file sys (fs w) f with
      | Throw x => Throw x
      | Return true => add_files rest (files ++ [f]) w
      | Return false => add_files rest files w
      end
  end.

(** [for pattern in args.input: ...] *)
Fixpoint expand (s : sink) (cwd : path) (patterns : list str)
         (files : list path) (w : world) : world * io (list path) :=
  match patterns with
  | [] => (w, Return files)
  | pattern :: rest =>
      match (if is_absolute sys pattern then parent_glob sys (fs w) pattern
             else if Py.contains (py "**") pattern
                  then cwd_rglob sys (fs w) cwd pattern
                  else cwd_glob sys (fs w) cwd pattern) with
      | Throw x => (w, Throw x)
      | Return matched =>
          let w := match matched with
                   | [] => emit s (WARNING, py "No files matched the pattern: "
                                            ++ pattern) w
                   | _ :: _ => w
                   end in
          match add_files matched files w with
          | Throw x => (w, Throw x)
          | Return files => expand s cwd rest files w
          end
      end
  end.

(** [for file_path in sorted(files_to_process): ...] *)
Fixpoint process_files (s : sink) (args : arguments) (files : list path)
         (overall_exit_code : nat) (w : world) : world * io nat :=
  match files with
  | [] => (w, Return overall_exit_code)
  | file_path :: rest =>
      let w := emit s (INFO, py "Processing file: " ++ file_path) w in
      match read_text sys (fs w) file_path with
      | Throw (Exception _ text) =>
          process_files s args rest
            (Nat.max overall_exit_code EXIT_FILE_READ_ERROR)
            (emit s (ERROR, py "Error reading file " ++ file_path ++ py ": "
                            ++ text) w)
      | Throw x => (w, Throw x)
      | Return original_content =>
          match run_process s original_content w with
          | (w, Raise e) =>
              process_files s args rest
                (Nat.max overall_exit_code EXIT_INTERNAL_ERROR)
                (emit s (ERROR, py "An internal error occurred while processing "
                                ++ file_path ++ py ": " ++ exn_str e) w)
          | (w, Ok modified_content) =>
              if str_eqb original_content modified_content then
                process_files s args rest overall_exit_code
                  (emit s (INFO, py "No changes made to " ++ file_path
                                 ++ py ".") w)
              else if diff args then
                process_files s args rest overall_exit_code
                  (print_diff original_content modified_content file_path w)
              else
                match output_dir args with
                | Some dir =>
                    let output_path := output_file sys dir file_path in
                    let (f, r) :=
                      write_text sys (fs w) output_path modified_content in
                    let w :=
                      {| fs := f; stdout := stdout w; logged := logged w;
                         writes := writes w ++ [(output_path, modified_content)]
                      |} in
                    match r with
                    | None =>
                        process_files s args rest overall_exit_code
                          (emit s (INFO, py "Successfully wrote modified file to "
                                         ++ output_path) w)
                    | Some (Exception _ text) =>
                        process_files s args rest
                          (Nat.max overall_exit_code EXIT_FILE_WRITE_ERROR)
                          (emit s (ERROR, py "Failed to write to output file "
                                          ++ output_path ++ py ": " ++ text) w)
                    | Some x => (w, Throw x)
                    end
                | None =>
                    process_files s args rest overall_exit_code
                      (print (py "--- # Modified content for " ++ file_path
                              ++ nl ++ modified_content ++ nl) w)
                end
          end
      end
  end.

(** The branch of the files. *)
Definition main_files (s : sink) (args : arguments) (w : world)
  : world * io nat :=
  match cwd sys (fs w) with
  | Throw x => (w, Throw x)
  | Return cwd =>
      match input args with
      | None =>
          (w, Throw (Exception false (py "'NoneType' object is not iterable")))
      | Some patterns =>
          match expand s cwd patterns [] w with
          | (w, Throw x) => (w, Throw x)
          | (w, Return []) =>
              (emit s (ERROR, py "No input files were found matching the provided patterns.") w,
               Return EXIT_NO_FILES_MATCHED)
          | (w, Return ((_ :: _) as files)) =>
              match output_dir args with
              | Some dir =>
                  let (f, r) := mkdir sys (fs w) dir in
                  let w := set_fs f w in
                  match r with
                  | None =>
                      process_files s args (sorted_set sys files) EXIT_SUCCESS
                        (emit s (INFO, py "Output directory set to: " ++ dir) w)
                  | Some (Exception true text) =>
                      (emit s (ERROR, py "Could not create output directory '"
                                      ++ dir ++ py "': " ++ text) w,
                       Return EXIT_FILE_WRITE_ERROR)
                  | Some x => (w, Throw x)
                  end
              | None =>
                  process_files s args (sorted_set sys files) EXIT_SUCCESS w
              end
          end
      end
  end.

Definition main (args : arguments) (w : world) : world * io nat :=
  match setup_logging (log_file args) (quiet args) w with
  | (w, Throw x) => (w, Throw x)
  | (w, Return s) =>
      if stdin args then main_stdin s args w else main_files s args w
  end.

End Command.

Arguments fs {FS} w.
Arguments stdout {FS} w.
Arguments logged {FS} w.
Arguments writes {FS} w.

(** The world [w] with the records of [w0]. *)
Definition with_logged {FS : Type} (w0 w : world FS) : world FS :=
  {| fs := fs w; stdout := stdout w; logged := logged w0; writes := writes w |}.

(** The arguments with another [quiet]. *)
Definition set_quiet (q : bool) (args : arguments) : arguments :=
  {| input := input args; stdin := stdin args; output_dir := output_dir args;
     log_file := log_file args; diff := diff args; quiet := q |}.

(** The exit codes [main] has a [return] for. *)
Definition returned_codes : list nat :=
  [EXIT_SUCCESS; EXIT_NO_FILES_MATCHED; EXIT_FILE_READ_ERROR;
   EXIT_FILE_WRITE_ERROR; EXIT_INTERNAL_ERROR].

(** ** Files in memory, for examples

    A system whose files are a list of paths with their texts and do
    not change: a pattern matches the file of that very name, no call
    fails but the reading of a file that is not there, and a text
    written is kept by the world only.  The diff of two lists of lines
    is empty when they are the same, and else a header, the lines of
    the one removed and those of the other added. *)

Definition memory : Type := list (path * str).

Fixpoint lookup (p : path) (m : memory) : option str :=
  match m with
  | [] => None
  | (q, c) :: m' => if str_eqb p q then Some c else lookup p m'
  end.

Fixpoint name_reversed (reversed : str) : str :=
  match reversed with
  | [] => []
  | c :: r => if (c =? chr "/")%N then [] else c :: name_reversed r
  end.

Definition file_name (p : path) : str := rev (name_reversed (rev p)).

Definition found (m : memory) (p : path) : list path :=
  match lookup p m with
  | Some _ => [p]
  | None => []
  end.

Fixpoint lines_eqb (a b : list str) : bool :=
  match a, b with
  | [], [] => true
  | x :: a', y :: b' => str_eqb x y && lines_eqb a' b'
  | _, _ => false
  end.

Definition memory_diff (a b : list str) (fromfile tofile : str) : list str :=
  if lines_eqb a b then []
  else [py "--- " ++ fromfile ++ nl; py "+++ " ++ tofile ++ nl;
        py "@@ @@" ++ nl]
       ++ map (fun l => py "-" ++ l) a ++ map (fun l => py "+" ++ l) b.

Definition memory_system (m : memory) (input_text : io str) : system unit :=
  {| stdin_read := input_text;
     cwd := fun _ => Return (py "/work");
     is_absolute := Py.startswith (py "/");
     parent_glob := fun _ pattern => Return (found m pattern);
     cwd_glob := fun _ cwd pattern => Return (found m (cwd ++ py "/" ++ pattern));
     cwd_rglob := fun _ cwd pattern => Return (found m (cwd ++ py "/" ++ pattern));
     is_file := fun _ p => Return (match lookup p m with
                                   | Some _ => true
                                   | None => false
                                   end);
     sorted_set := fun files => files;
     mkdir := fun _ _ => (tt, None);
     output_file := fun dir p => dir ++ py "/" ++ file_name p;
     read_text := fun _ p => match lookup p m with
                             | Some c => Return c
                             | None => Throw (Exception true (py "No such file"))
                             end;
     write_text := fun _ _ _ => (tt, None);
     unified_diff := memory_diff;
     open_log := fun _ _ => (tt, None);
     log_append := fun _ _ _ => tt |}.

Definition empty_world : world unit :=
  {| fs := tt; stdout := []; logged := []; writes := [] |}.

(** What the run wrote, [added], went into the output directory and is
    a text [process_content] changed. *)
Definition written_from_hints {FS : Type} (sys : system FS)
           (E : regex_engine) (args : arguments)
           (added : list (path * str)) : Prop :=
  forall p c, In (p, c) added ->
    exists dir file original,
      output_dir args = Some dir /\ p = output_file FS sys dir file /\
      process_content E original = Ok c /\ original <> c.

(** Arguments as [parse_args] returns them for [--input a.yml b.yml]
    and for [--stdin]. *)
Definition input_arguments : arguments :=
  {| input := Some [py "a.yml"; py "b.yml"]; stdin := false;
     output_dir := None; log_file := None; diff := false; quiet := false |}.

Definition stdin_arguments : arguments :=
  {| input := None; stdin := true; output_dir := None; log_file := None;
     diff := false; quiet := false |}.

Definition set_output_dir (dir : option path) (args : arguments) : arguments :=
  {| input := input args; stdin := stdin args; output_dir := dir;
     log_file := log_file args; diff := diff args; quiet := quiet args |}.

Definition set_diff (d : bool) (args : arguments) : arguments :=
  {| input := input args; stdin := stdin args; output_dir := output_dir args;
     log_file := log_file args; diff := d; quiet := quiet args |}.

(** Two templates, the first with a hint. *)
Definition hinted_text : str :=
  py "# cfn-hint: replace: t2 with: t3" ++ nl ++ py "Type: t2.micro" ++ nl.

Definition plain_text : str := py "Type: t2.micro" ++ nl.

Definition two_files : memory :=
  [(py "/work/a.yml", hinted_text); (py "/work/b.yml", plain_text)].

Definition plain_files : memory :=
  [(py "/work/a.yml", plain_text); (py "/work/b.yml", py "Name: web" ++ nl)].

(** * The engine at work

    Substitutions as CPython's [re.sub] makes them: empty matches
    between the characters; an empty match right after a match that was
    not empty; the first alternative that lets the rest match; a group
    that took no part left empty; [.] stopping at a line feed only;
    anchors and character sets; the errors with their positions. *)

Lemma PyRe_examples :
  PyRe.sub [] (py "-") (py "abc") = Ok (py "-a-b-c-") /\
  PyRe.sub (py "b*") (py "-") (py "abbbc") = Ok (py "-a--c-") /\
  PyRe.sub (py "a{,2}") (py "X") (py "aaaaa b") = Ok (py "XXXX XbX") /\
  PyRe.sub (py "(a|ab)(c|bcd)(d*)") (py "<\1|\2|\3>") (py "abcd abcdd")
  = Ok (py "<a|bcd|> <a|bcd|d>") /\
  PyRe.sub (py "((a)|b)*") (py "<\1\2>") (py "abab c")
  = Ok (py "<ba><> <>c<>") /\
  PyRe.sub (py "(a)|b") (py "[\1]") (py "ab") = Ok (py "[a][]") /\
  PyRe.sub (py ".") (py "-") (py "a" ++ [LF] ++ py "b" ++ [CR])
  = Ok (py "-" ++ [LF] ++ py "--") /\
  PyRe.sub (py "\bfoo\b") (py "X") (py "foo food foo") = Ok (py "X food X") /\
  PyRe.sub (py "[a-c]+$") (py "X") (py "xabc" ++ nl) = Ok (py "xX" ++ nl) /\
  PyRe.sub (py "^\s+|\s+\Z") [] (py "  a b " ++ nl) = Ok (py "a b") /\
  PyRe.sub (py "[^a-z\d]") (py "_") (py "ab-3 C" ++ nl) = Ok (py "ab_3___") /\
  PyRe.sub (py "(\w+)=(\w+)") (py "\g<2>=\g<1>") (py "k=v; a=b")
  = Ok (py "v=k; b=a") /\
  PyRe.compile (py "a**")
  = Raise (re_error (py "multiple repeat at position 2")) /\
  PyRe.compile (py "a)")
  = Raise (re_error (py "unbalanced parenthesis at position 1")) /\
  PyRe.compile (py "[z-a]")
  = Raise (re_error (py "bad character range z-a at position 1")) /\
  PyRe.compile (py "a" ++ nl ++ py "(")
  = Raise (re_error (py "missing ), unterminated subpattern at position 2 (line 2, column 1)")).
Proof. repeat split; vm_compute; reflexivity. Qed.

(** * The engine: what the matcher finds *)

Section Matcher.

Context {A : Type}.




End Matcher.










(** * Python strings: lemmas *)

Lemma list_ind_two {A : Type} (P : list A -> Prop) :
  P [] ->
  (forall x l, P l -> (forall y l', l = y :: l' -> P l') -> P (x :: l)) ->
  forall l, P l.
Proof.
  intros Hnil Hcons l.
  enough (H : P l /\ (forall y l', l = y :: l' -> P l')) by apply H.
  induction l as [|x l [IH1 IH2]].
  - split; [exact Hnil | discriminate].
  - split; [now apply Hcons|].
    intros y l' [= -> ->]. exact IH1.
Qed.

Lemma startswith_app (p t : str) : Py.startswith p (p ++ t) = true.
Proof.
  induction p as [|c p IH]; simpl; [reflexivity|].
  now rewrite N.eqb_refl, IH.
Qed.

Lemma startswith_inv (p s : str) :
  Py.startswith p s = true -> s = p ++ skipn (length p) s.
Proof.
  revert s; induction p as [|c p IH]; intros s H; simpl in *; [reflexivity|].
  destruct s as [|d s]; [discriminate|].
  apply andb_true_iff in H as [Hc Hp].
  apply N.eqb_eq in Hc; subst d.
  simpl. f_equal. now apply IH.
Qed.

Lemma find_Some (sub s : str) (i : nat) :
  Py.find sub s = Some i ->
  s = firstn i s ++ sub ++ skipn (i + length sub) s /\ i <= length s.
Proof.
  revert i; induction s as [|c s IH]; intros i H; simpl in H.
  - destruct sub; simpl in H; [|discriminate].
    injection H as <-. split; [reflexivity | simpl; lia].
  - destruct (Py.startswith sub (c :: s)) eqn:Hs.
    + injection H as <-. split; [|simpl; lia].
      simpl firstn. simpl app at 1. now apply startswith_inv.
    + destruct (Py.find sub s) as [j|] eqn:Hf; [|discriminate].
      injection H as <-.
      destruct (IH j eq_refl) as [Heq Hle].
      split; [|simpl; lia].
      simpl. f_equal. exact Heq.
Qed.

Lemma find_startswith (sub s : str) :
  Py.startswith sub s = true -> Py.find sub s = Some 0.
Proof. destruct s; simpl; intros ->; reflexivity. Qed.

Lemma find_app (sub a b : str) : exists i, Py.find sub (a ++ sub ++ b) = Some i.
Proof.
  induction a as [|c a [i IH]].
  - exists 0. simpl app. apply find_startswith, startswith_app.
  - change ((c :: a) ++ sub ++ b) with (c :: (a ++ sub ++ b)).
    simpl Py.find.
    destruct (Py.startswith sub (c :: a ++ sub ++ b)); [eauto|].
    rewrite IH. simpl. eauto.
Qed.

Lemma contains_app (sub a b : str) : Py.contains sub (a ++ sub ++ b) = true.
Proof.
  unfold Py.contains. destruct (find_app sub a b) as [i ->]. reflexivity.
Qed.

Lemma find_cons (sub : str) (c : char) (s : str) :
  Py.find sub (c :: s) =
  if Py.startswith sub (c :: s) then Some 0 else option_map S (Py.find sub s).
Proof. reflexivity. Qed.

Lemma startswith_single (c d : char) (s : str) :
  Py.startswith [c] (d :: s) = (d =? c)%N.
Proof.
  change (Py.startswith [c] (d :: s)) with ((c =? d)%N && true).
  now rewrite andb_true_r, N.eqb_sym.
Qed.

Lemma after_colons_find (s : str) (n : nat) :
  after_colons s (S n) =
  match Py.find [colon] s with
  | Some i => after_colons (skipn (i + 1) s) n
  | None => None
  end.
Proof.
  induction s as [|c s IH]; [reflexivity|].
  rewrite find_cons, startswith_single.
  change (after_colons (c :: s) (S n))
    with (if (c =? colon)%N then after_colons s n else after_colons s (S n)).
  destruct (c =? colon)%N.
  - reflexivity.
  - rewrite IH. destruct (Py.find [colon] s); reflexivity.
Qed.

Lemma after_colons_0 (s : str) : after_colons s 0 = Some s.
Proof. destruct s; reflexivity. Qed.

Lemma after_colons_count (s : str) (n : nat) :
  after_colons s n = None <->
  length (filter (fun c => (c =? colon)%N) s) < n.
Proof.
  revert n; induction s as [|c s IH]; intros n.
  - destruct n; simpl; split; intros H;
      try discriminate; try reflexivity; lia.
  - destruct n as [|n].
    + simpl. split; intros H; [discriminate | lia].
    + change (after_colons (c :: s) (S n))
        with (if (c =? colon)%N then after_colons s n
              else after_colons s (S n)).
      simpl filter. destruct (c =? colon)%N; simpl length; rewrite IH; lia.
Qed.

Lemma after_colons_In (s : str) :
  after_colons s 1 = None -> ~ In colon s.
Proof.
  induction s as [|c s IH]; simpl; [tauto|].
  destruct (c =? colon)%N eqn:Hc.
  - rewrite after_colons_0. discriminate.
  - intros H [->|Hin]; [|now apply IH].
    now rewrite N.eqb_refl in Hc.
Qed.

Lemma after_colons_split (s t : str) :
  after_colons s 1 = Some t -> after_colons s 2 = after_colons t 1.
Proof.
  rewrite !after_colons_find.
  destruct (Py.find [colon] s) as [i|]; [|discriminate].
  rewrite after_colons_0. intros [= <-].
  now rewrite after_colons_find.
Qed.

Lemma split_colon_last (s : str) :
  getitem_last (Py.split [colon] s 2) = Ok (last_part s).
Proof.
  unfold last_part. rewrite !after_colons_find. simpl Py.split.
  destruct (Py.find [colon] s) as [i|]; [|reflexivity].
  rewrite after_colons_0, after_colons_find.
  change (length [colon]) with 1.
  destruct (Py.find [colon] (skipn (i + 1) s)) as [j|]; [|reflexivity].
  now rewrite after_colons_0.
Qed.

Lemma last_part_no_colon (s : str) :
  after_colons s 2 = None -> ~ In colon (last_part s).
Proof.
  intros H. unfold last_part. rewrite H.
  destruct (after_colons s 1) as [t|] eqn:H1.
  - apply after_colons_In. now rewrite <- (after_colons_split _ _ H1).
  - now apply after_colons_In.
Qed.

(** [split(':', 2)] gives as many pieces as the colons make, three at
    the most. *)
Lemma split_colon_length (line : str) :
  length (Py.split [colon] line 2) = Nat.min 3 (colon_parts line).
Proof.
  pose proof (after_colons_count line 1) as H1.
  pose proof (after_colons_count line 2) as H2.
  rewrite after_colons_find in H1, H2.
  cbn [Py.split]. change (length [colon]) with 1. unfold colon_parts.
  destruct (Py.find [colon] line) as [i|].
  - rewrite after_colons_0 in H1. rewrite after_colons_find in H2.
    destruct (Py.find [colon] (skipn (i + 1) line)) as [j|].
    + rewrite after_colons_0 in H2. cbn [length].
      destruct (Nat.lt_ge_cases
                  (length (filter (fun c => (c =? colon)%N) line)) 2) as [Hlt|Hge].
      * apply H2 in Hlt. discriminate.
      * lia.
    + cbn [length].
      destruct (Nat.lt_ge_cases
                  (length (filter (fun c => (c =? colon)%N) line)) 1) as [Hlt|Hge].
      * apply H1 in Hlt. discriminate.
      * assert (length (filter (fun c => (c =? colon)%N) line) < 2)
          by (now apply H2).
        lia.
  - cbn [length].
    assert (length (filter (fun c => (c =? colon)%N) line) < 1)
      by (now apply H1).
    lia.
Qed.

(** ** [strip] keeps characters of its argument *)

Lemma lstrip_In (c : char) (s : str) : In c (Py.lstrip s) -> In c s.
Proof.
  induction s as [|d s IH]; simpl; [tauto|].
  destruct (Py.isspace d); simpl; tauto.
Qed.

Lemma strip_In (c : char) (s : str) : In c (Py.strip s) -> In c s.
Proof.
  unfold Py.strip, Py.rstrip. intros H.
  apply in_rev, lstrip_In in H. apply in_rev in H. now apply lstrip_In.
Qed.

Lemma with_needs_colon (s : str) :
  ~ In colon s -> Py.find (py " with: ") s = None.
Proof.
  intros Hno. destruct (Py.find (py " with: ") s) as [i|] eqn:H; [|reflexivity].
  exfalso. apply Hno. apply find_Some in H as [-> _].
  apply in_or_app. right. apply in_or_app. left.
  vm_compute. tauto.
Qed.

(** * The hint parser: lemmas *)

(** [parse_hint] in closed form: the split at the first delimiter of the
    trimmed last piece, or the one failure it has. *)
Lemma parse_hint_eq (line : str) :
  parse_hint line =
  let parts := Py.strip (last_part line) in
  match Py.find delimiter parts with
  | Some i => Ok (firstn i parts, skipn (i + length delimiter) parts)
  | None => Raise unpack_failure
  end.
Proof.
  unfold parse_hint. change (py ":") with [colon].
  rewrite split_colon_last. simpl bind.
  change (py " with: ") with delimiter.
  unfold Py.split. cbv zeta.
  destruct (Py.find delimiter (Py.strip (last_part line))); reflexivity.
Qed.

Lemma parse_hint_raises (line : str) (e : exn) :
  parse_hint line = Raise e -> e = unpack_failure.
Proof.
  rewrite parse_hint_eq. cbv zeta.
  destruct (Py.find delimiter _); [discriminate|].
  now intros [= <-].
Qed.

(** * The line rewriter: lemmas *)

Section Rewriter.

Variable E : regex_engine.


Lemma replace_line_compile_error (line pattern replacement m : str) :
  re_compile E pattern = Raise (re_error m) ->
  replace_line E line pattern replacement =
  Raise (ValueError (invalid_regex_message pattern (re_error m))).
Proof. unfold replace_line. intros ->. reflexivity. Qed.

Lemma replace_line_sub_error (line pattern replacement m : str) :
  re_compile E pattern = Ok tt ->
  re_sub E pattern replacement line = Raise (re_error m) ->
  replace_line E line pattern replacement =
  Raise (ValueError (invalid_regex_message pattern (re_error m))).
Proof. unfold replace_line. intros -> ->. reflexivity. Qed.

(** What [replace_line] raises is the [ValueError] it makes of a
    [re.error], or an exception of the engine that is no [re.error]. *)
Lemma replace_line_raises (line pattern replacement : str) (e : exn) :
  replace_line E line pattern replacement = Raise e ->
  is_ValueError e = true \/
  (is_re_error e = false /\ engine_raises E e).
Proof.
  unfold replace_line, engine_raises.
  destruct (re_compile E pattern) as [[]|e1] eqn:Hc; simpl.
  - destruct (re_sub E pattern replacement line) as [out|e2] eqn:Hs; simpl;
      [discriminate|].
    destruct e2; intros [= <-]; simpl; eauto 8.
  - destruct e1; intros [= <-]; simpl; eauto 8.
Qed.

(** ** The loop *)

Lemma after_initial (st : state) : after st initial = st.
Proof. destruct st; unfold after; simpl. now rewrite !app_nil_r. Qed.

End Rewriter.

(** * The document processor: lemmas *)

Ltac state_eq :=
  unfold after, append, logging, initial; simpl;
  rewrite ?app_nil_r, <- ?app_assoc; simpl; reflexivity.

Section Loop.

Variable E : regex_engine.

(** The branches of one turn of the loop. *)

Lemma for_loop_plain (line : str) (rest : list str) (st : state) :
  Py.contains hint_marker line = false ->
  for_loop E (line :: rest) st = for_loop E rest (append line st).
Proof. intros H. simpl. now rewrite H. Qed.

Lemma for_loop_parse_failure (line : str) (rest : list str) (st : state)
      (e : exn) :
  Py.contains hint_marker line = true ->
  parse_hint line = Raise e ->
  for_loop E (line :: rest) st =
  for_loop E rest (logging (skipping_hint e) (append line st)).
Proof.
  intros H Hp. simpl. rewrite H, Hp.
  apply parse_hint_raises in Hp. subst e. reflexivity.
Qed.

Lemma for_loop_eof (line pattern replacement : str) (st : state) :
  Py.contains hint_marker line = true ->
  parse_hint line = Ok (pattern, replacement) ->
  for_loop E [line] st = Ok (logging (hint_at_eof line) (append line st)).
Proof. intros H Hp. simpl. now rewrite H, Hp. Qed.

Lemma for_loop_rewrite (line pattern replacement next_line modified_line : str)
      (rest : list str) (st : state) :
  Py.contains hint_marker line = true ->
  parse_hint line = Ok (pattern, replacement) ->
  replace_line E next_line pattern replacement = Ok modified_line ->
  for_loop E (line :: next_line :: rest) st =
  for_loop E rest (append modified_line (append line st)).
Proof. intros H Hp Hr. simpl. now rewrite H, Hp, Hr. Qed.

Lemma for_loop_regex_failure (line pattern replacement next_line : str)
      (rest : list str) (st : state) (e : exn) :
  Py.contains hint_marker line = true ->
  parse_hint line = Ok (pattern, replacement) ->
  replace_line E next_line pattern replacement = Raise e ->
  is_ValueError e = true ->
  for_loop E (line :: next_line :: rest) st =
  for_loop E rest
    (append next_line (logging (skipping_replacement e) (append line st))).
Proof.
  intros H Hp Hr He. simpl. rewrite H, Hp, Hr.
  destruct e; try discriminate. reflexivity.
Qed.

Lemma for_loop_escape (line pattern replacement next_line : str)
      (rest : list str) (st : state) (e : exn) :
  Py.contains hint_marker line = true ->
  parse_hint line = Ok (pattern, replacement) ->
  replace_line E next_line pattern replacement = Raise e ->
  is_ValueError e = false ->
  for_loop E (line :: next_line :: rest) st = Raise e.
Proof.
  intros H Hp Hr He. simpl. rewrite H, Hp, Hr.
  destruct e; try discriminate; reflexivity.
Qed.

(** The loop appends to the state it is given and reads nothing of it. *)
Lemma for_loop_after (lines : list str) :
  forall st,
    for_loop E lines st =
    (r <- for_loop E lines initial ;; Ok (after st r)).
Proof.
  induction lines as [|line rest IH1 IH2] using list_ind_two; intros st.
  - simpl. now rewrite after_initial.
  - destruct (Py.contains hint_marker line) eqn:Hm.
    + destruct (parse_hint line) as [[p r]|e] eqn:Hp.
      * destruct rest as [|t rest'].
        -- rewrite !(for_loop_eof _ _ _ _ Hm Hp). simpl. f_equal; try state_eq.
        -- specialize (IH2 _ _ eq_refl).
           destruct (replace_line E t p r) as [m|e] eqn:Hr.
           ++ rewrite !(for_loop_rewrite _ _ _ _ _ _ _ Hm Hp Hr).
              rewrite (IH2 (append _ (append _ st))),
                      (IH2 (append _ (append _ initial))).
              destruct (for_loop E rest' initial); simpl; [|reflexivity].
              f_equal; try state_eq.
           ++ destruct (is_ValueError e) eqn:He.
              ** rewrite !(for_loop_regex_failure _ _ _ _ _ _ _ Hm Hp Hr He).
                 rewrite (IH2 (append _ (logging _ (append _ st)))),
                         (IH2 (append _ (logging _ (append _ initial)))).
                 destruct (for_loop E rest' initial); simpl; [|reflexivity].
                 f_equal; try state_eq.
              ** now rewrite !(for_loop_escape _ _ _ _ _ _ _ Hm Hp Hr He).
      * rewrite !(for_loop_parse_failure _ _ _ _ Hm Hp).
        rewrite (IH1 (logging _ (append _ st))),
                (IH1 (logging _ (append _ initial))).
        destruct (for_loop E rest initial); simpl; [|reflexivity].
        f_equal; try state_eq.
    + rewrite !(for_loop_plain _ _ _ Hm).
      rewrite (IH1 (append _ st)), (IH1 (append _ initial)).
      destruct (for_loop E rest initial); simpl; [|reflexivity].
      f_equal; try state_eq.
Qed.

End Loop.

(** * Lines: lemmas *)

Lemma splitlines_from_cons (line : str) (c : char) (rest : str) :
  Py.splitlines_from line (c :: rest) =
  if Py.is_linebreak c then
    match rest with
    | d :: rest' =>
        if (c =? CR)%N && (d =? LF)%N
        then (line ++ [c; d]) :: Py.splitlines_from [] rest'
        else (line ++ [c]) :: Py.splitlines_from [] rest
    | [] => (line ++ [c]) :: Py.splitlines_from [] rest
    end
  else Py.splitlines_from (line ++ [c]) rest.
Proof. reflexivity. Qed.

(** Joining the lines of a text gives the text back. *)
Lemma splitlines_from_join (s : str) :
  forall line, concat (Py.splitlines_from line s) = line ++ s.
Proof.
  induction s as [|c rest IH1 IH2] using list_ind_two; intros line.
  - destruct line; simpl; now rewrite ?app_nil_r.
  - rewrite splitlines_from_cons.
    destruct (Py.is_linebreak c).
    + destruct rest as [|d rest'].
      * simpl. now rewrite app_nil_r.
      * destruct ((c =? CR)%N && (d =? LF)%N).
        -- rewrite concat_cons, (IH2 _ _ eq_refl). simpl.
           now rewrite <- app_assoc.
        -- rewrite concat_cons, IH1. simpl. now rewrite <- app_assoc.
    + rewrite IH1. now rewrite <- app_assoc.
Qed.

Lemma splitlines_join (s : str) : Py.join (Py.splitlines s) = s.
Proof. apply (splitlines_from_join s []). Qed.

Lemma shape_cons (c : char) (s : str) :
  shape (c :: s) =
  if Py.is_linebreak c then Break c :: shape s else more_text (shape s).
Proof. reflexivity. Qed.

Lemma glue_break (c : char) (x y : list token) :
  glue (Break c :: x) y = Break c :: glue x y.
Proof. destruct x; reflexivity. Qed.

Lemma glue_more_text (x y : list token) :
  glue (more_text x) y = more_text (glue x y).
Proof.
  destruct x as [|[|d] x].
  - destruct y as [|[|d] y]; reflexivity.
  - destruct x as [|t x]; [destruct y as [|[|d] y]|]; reflexivity.
  - change (more_text (Break d :: x)) with (Text :: Break d :: x).
    change (glue (Text :: Break d :: x) y) with (Text :: glue (Break d :: x) y).
    now rewrite glue_break.
Qed.

Lemma shape_app (a b : str) : shape (a ++ b) = glue (shape a) (shape b).
Proof.
  induction a as [|c a IH]; [reflexivity|].
  change ((c :: a) ++ b) with (c :: (a ++ b)).
  rewrite !shape_cons, IH.
  destruct (Py.is_linebreak c).
  - now rewrite glue_break.
  - now rewrite glue_more_text.
Qed.

Lemma count_lines_more_text (started : bool) (ts : list token) :
  count_lines started (more_text ts) = count_lines true ts.
Proof. destruct ts as [|[|d] ts]; reflexivity. Qed.

Lemma count_lines_break (started : bool) (c : char) (ts : list token) :
  count_lines started (Break c :: ts) =
  match ts with
  | Break d :: ts' =>
      if (c =? CR)%N && (d =? LF)%N
      then S (count_lines false ts')
      else S (count_lines false ts)
  | _ => S (count_lines false ts)
  end.
Proof. destruct ts as [|[|d] ts]; reflexivity. Qed.

(** The number of lines of a text is a matter of its shape. *)
Lemma splitlines_from_count (s : str) :
  forall line,
    length (Py.splitlines_from line s) = count_lines (nonempty line) (shape s).
Proof.
  induction s as [|c rest IH1 IH2] using list_ind_two; intros line.
  - destruct line; reflexivity.
  - rewrite splitlines_from_cons, shape_cons.
    destruct (Py.is_linebreak c) eqn:Hc.
    + rewrite count_lines_break.
      destruct rest as [|d rest'].
      * reflexivity.
      * rewrite shape_cons.
        destruct ((c =? CR)%N && (d =? LF)%N) eqn:Hcd.
        -- assert (Hd : d = LF).
           { apply andb_true_iff in Hcd as [_ Hd]. now apply N.eqb_eq in Hd. }
           subst d.
           change (Py.is_linebreak LF) with true. cbv iota.
           rewrite Hcd. cbn [length]. now rewrite (IH2 _ _ eq_refl).
        -- cbn [length]. rewrite IH1, shape_cons.
           destruct (Py.is_linebreak d).
           ++ now rewrite Hcd.
           ++ destruct (more_text (shape rest')) as [|[|d'] ts] eqn:Hm;
                try reflexivity.
              destruct (shape rest') as [|[|d''] ts']; discriminate.
    + rewrite IH1, count_lines_more_text.
      destruct line; reflexivity.
Qed.

Lemma logical_lines_shape (s : str) :
  logical_lines s = count_lines false (shape s).
Proof. apply (splitlines_from_count s []). Qed.

Lemma same_shape_app (a a' b b' : str) :
  same_shape a a' -> same_shape b b' -> same_shape (a ++ b) (a' ++ b').
Proof. unfold same_shape. intros Ha Hb. now rewrite !shape_app, Ha, Hb. Qed.

Lemma same_shape_concat (ls ls' : list str) :
  Forall2 same_shape ls ls' -> same_shape (concat ls) (concat ls').
Proof.
  induction 1 as [|l l' ls ls' Hl _ IH]; [reflexivity|].
  simpl. now apply same_shape_app.
Qed.

(** * The document processor: whole runs *)

Section Runs.

Variable E : regex_engine.

Lemma for_loop_hint_turn (line : str) (rest : list str) (st : state) :
  Py.contains hint_marker line = true ->
  for_loop E (line :: rest) st = hint_turn E line rest st.
Proof.
  intros Hm. unfold hint_turn.
  destruct (parse_hint line) as [[p r]|e] eqn:Hp.
  - destruct rest as [|t rest'].
    + exact (for_loop_eof E _ _ _ _ Hm Hp).
    + destruct (replace_line E t p r) as [m|e] eqn:Hr.
      * exact (for_loop_rewrite E _ _ _ _ _ _ _ Hm Hp Hr).
      * destruct (is_ValueError e) eqn:He.
        -- exact (for_loop_regex_failure E _ _ _ _ _ _ _ Hm Hp Hr He).
        -- exact (for_loop_escape E _ _ _ _ _ _ _ Hm Hp Hr He).
  - exact (for_loop_parse_failure E _ _ _ _ Hm Hp).
Qed.

(** Lines without the marker go to the output as they are. *)
Lemma for_loop_no_hints (pre rest : list str) :
  no_hint_lines pre ->
  forall st,
    for_loop E (pre ++ rest) st =
    for_loop E rest
      {| modified_lines := modified_lines st ++ pre; log := log st |}.
Proof.
  induction pre as [|l pre IH]; intros Hno st.
  - simpl. destruct st; simpl. now rewrite app_nil_r.
  - change ((l :: pre) ++ rest) with (l :: (pre ++ rest)).
    rewrite (for_loop_plain E _ _ _ (Hno l (or_introl eq_refl))).
    rewrite IH by (intros x Hx; apply Hno; now right).
    f_equal. unfold append; simpl. now rewrite <- app_assoc.
Qed.

(** An exception that leaves the loop is one the engine raised, and
    neither a [re.error] nor a [ValueError]. *)
Lemma for_loop_raises (lines : list str) :
  forall st e,
    for_loop E lines st = Raise e ->
    is_ValueError e = false /\ is_re_error e = false /\ engine_raises E e.
Proof.
  induction lines as [|line rest IH1 IH2] using list_ind_two; intros st e.
  - discriminate.
  - destruct (Py.contains hint_marker line) eqn:Hm.
    + rewrite (for_loop_hint_turn _ _ _ Hm). unfold hint_turn.
      destruct (parse_hint line) as [[p r]|e'] eqn:Hp; [|apply IH1].
      destruct rest as [|t rest']; [discriminate|].
      destruct (replace_line E t p r) as [m|e'] eqn:Hr;
        [apply (IH2 _ _ eq_refl)|].
      destruct (is_ValueError e') eqn:He; [apply (IH2 _ _ eq_refl)|].
      intros [= <-].
      destruct (replace_line_raises E _ _ _ _ Hr) as [Hv|[Hre Heng]].
      * congruence.
      * auto.
    + rewrite (for_loop_plain E _ _ _ Hm). apply IH1.
Qed.

(** Every line drawn leaves one line in the output. *)
Lemma for_loop_length (lines : list str) :
  forall st st',
    for_loop E lines st = Ok st' ->
    length (modified_lines st') = length (modified_lines st) + length lines.
Proof.
  induction lines as [|line rest IH1 IH2] using list_ind_two; intros st st'.
  - intros [= <-]. simpl. lia.
  - destruct (Py.contains hint_marker line) eqn:Hm.
    + rewrite (for_loop_hint_turn _ _ _ Hm). unfold hint_turn.
      destruct (parse_hint line) as [[p r]|e'] eqn:Hp.
      * destruct rest as [|t rest'].
        -- intros [= <-]. simpl. rewrite length_app. simpl. lia.
        -- destruct (replace_line E t p r) as [m|e'] eqn:Hr.
           ++ intros H. apply (IH2 _ _ eq_refl) in H. rewrite H.
              simpl. rewrite !length_app. simpl. lia.
           ++ destruct (is_ValueError e'); [|discriminate].
              intros H. apply (IH2 _ _ eq_refl) in H. rewrite H.
              simpl. rewrite !length_app. simpl. lia.
      * intros H. apply IH1 in H. rewrite H.
        simpl. rewrite length_app. simpl. lia.
    + rewrite (for_loop_plain E _ _ _ Hm).
      intros H. apply IH1 in H. rewrite H.
      simpl. rewrite length_app. simpl. lia.
Qed.

(** What the loop leaves from [st] is what it leaves on its own, put
    after [st]. *)
Lemma for_loop_ok_after (lines : list str) (st st' : state) :
  for_loop E lines st = Ok st' ->
  exists r, for_loop E lines initial = Ok r /\ st' = after st r.
Proof.
  rewrite for_loop_after.
  destruct (for_loop E lines initial) as [r|e]; simpl; [|discriminate].
  intros [= <-]. eauto.
Qed.

(** Lines the loop has done with, none pending, and the lines after
    them: the loop runs over the ones, then over the others. *)
Lemma for_loop_app (pre tail : list str) :
  pending pre = false ->
  forall st,
    for_loop E (pre ++ tail) st =
    (s <- for_loop E pre st ;; for_loop E tail s).
Proof.
  induction pre as [|line rest IH1 IH2] using list_ind_two; intros Hpre st.
  - reflexivity.
  - change ((line :: rest) ++ tail) with (line :: (rest ++ tail)).
    cbn [pending] in Hpre.
    destruct (Py.contains hint_marker line) eqn:Hm.
    + rewrite !(for_loop_hint_turn _ _ _ Hm). unfold hint_turn.
      destruct (parse_hint line) as [[p r]|e'] eqn:Hp; [|now apply IH1].
      destruct rest as [|t rest']; [discriminate|].
      change ((t :: rest') ++ tail) with (t :: (rest' ++ tail)).
      cbv beta iota.
      destruct (replace_line E t p r) as [m|e'];
        [now apply (IH2 _ _ eq_refl)|].
      destruct (is_ValueError e'); [now apply (IH2 _ _ eq_refl)|reflexivity].
    + rewrite !(for_loop_plain E _ _ _ Hm). now apply IH1.
Qed.

Lemma no_hint_lines_pending (lines : list str) :
  no_hint_lines lines -> pending lines = false.
Proof.
  induction lines as [|l lines IH]; intros Hno; [reflexivity|].
  cbn [pending]. rewrite (Hno l (or_introl eq_refl)).
  apply IH. intros x Hx. apply Hno. now right.
Qed.

Lemma for_loop_no_hints_ok (lines : list str) :
  no_hint_lines lines ->
  for_loop E lines initial = Ok {| modified_lines := lines; log := [] |}.
Proof.
  intros Hno. rewrite <- (app_nil_r lines) at 1.
  now rewrite (for_loop_no_hints _ _ Hno).
Qed.

(** The output of a document from the runs over a part of its lines the
    loop is done with and over the lines after them. *)
Lemma process_content_split (content : str) (pre tail : list str) :
  Py.splitlines content = pre ++ tail ->
  pending pre = false ->
  process_content E content =
  (s <- for_loop E pre initial ;;
   r <- for_loop E tail initial ;;
   Ok (Py.join (modified_lines s) ++ Py.join (modified_lines r))).
Proof.
  intros Hl Hpre. unfold process_content, process_run.
  rewrite Hl, (for_loop_app _ _ Hpre).
  destruct (for_loop E pre initial) as [s|e]; simpl; [|reflexivity].
  rewrite for_loop_after.
  destruct (for_loop E tail initial) as [r|e]; simpl; [|reflexivity].
  unfold Py.join. now rewrite concat_app.
Qed.

(** With an engine that signals every failure with [re.error] the
    processor returns on every document. *)
Lemma process_content_total (content : str) :
  raises_only_re_error E ->
  exists out, process_content E content = Ok out.
Proof.
  intros [Hc Hs]. unfold process_content, process_run.
  destruct (for_loop E (Py.splitlines content) initial) as [st|e] eqn:H.
  - simpl. eauto.
  - exfalso. apply for_loop_raises in H as (_ & Hre & [[p Hp]|(p & r & s & Hp)]).
    + apply Hc in Hp. congruence.
    + apply Hs in Hp. congruence.
Qed.

End Runs.

Lemma colon_parts_after (line : str) :
  colon_parts line < 3 <-> after_colons line 2 = None.
Proof. rewrite after_colons_count. unfold colon_parts. lia. Qed.

Lemma parse_hint_fails_without_delimiter (line : str) :
  Py.find delimiter (Py.strip (last_part line)) = None ->
  parse_hint line = Raise unpack_failure.
Proof. intros H. rewrite parse_hint_eq. cbv zeta. now rewrite H. Qed.

(** What the loop and the processor do with a hint whose substitution
    [replace_line] refuses with a [ValueError]. *)
Lemma regex_failure_recovered
      (E : regex_engine) (h pattern replacement next_line : str) (e : exn)
      (rest : list str) :
  Py.contains hint_marker h = true ->
  parse_hint h = Ok (pattern, replacement) ->
  replace_line E next_line pattern replacement = Raise e ->
  is_ValueError e = true ->
  (forall st,
      for_loop E (h :: next_line :: rest) st =
      for_loop E rest
        (append next_line (logging (skipping_replacement e) (append h st)))) /\
  (forall st,
      for_loop E [h; next_line] st =
      Ok (append next_line (logging (skipping_replacement e) (append h st)))) /\
  (forall content pre,
      Py.splitlines content = pre ++ h :: next_line :: rest ->
      pending pre = false ->
      process_content E content =
      (s <- for_loop E pre initial ;;
       r <- for_loop E rest initial ;;
       Ok (Py.join (modified_lines s) ++ h ++ next_line
           ++ Py.join (modified_lines r)))) /\
  (forall content pre,
      Py.splitlines content = pre ++ h :: next_line :: rest ->
      no_hint_lines pre ->
      no_hint_lines rest ->
      process_content E content = Ok content).
Proof.
  intros Hm Hp Hr He.
  assert (Hturn : forall tail st,
             for_loop E (h :: next_line :: tail) st =
             for_loop E tail
               (append next_line
                  (logging (skipping_replacement e) (append h st)))).
  { intros tail st.
    exact (for_loop_regex_failure E _ _ _ _ tail st _ Hm Hp Hr He). }
  assert (Hdoc : forall content pre,
             Py.splitlines content = pre ++ h :: next_line :: rest ->
             pending pre = false ->
             process_content E content =
             (s <- for_loop E pre initial ;;
              r <- for_loop E rest initial ;;
              Ok (Py.join (modified_lines s) ++ h ++ next_line
                  ++ Py.join (modified_lines r)))).
  { intros content pre Hl Hpre.
    rewrite (process_content_split E content pre _ Hl Hpre).
    destruct (for_loop E pre initial) as [s|e1]; cbn [bind]; [|reflexivity].
    rewrite Hturn, for_loop_after.
    destruct (for_loop E rest initial) as [r|e2]; reflexivity. }
  split; [exact (Hturn rest)|]. split; [exact (Hturn [])|].
  split; [exact Hdoc|].
  intros content pre Hl Hpre Hrest.
  rewrite (Hdoc content pre Hl (no_hint_lines_pending pre Hpre)).
  rewrite (for_loop_no_hints_ok E pre Hpre), (for_loop_no_hints_ok E rest Hrest).
  cbn [bind modified_lines]. f_equal.
  rewrite <- (splitlines_join content), Hl.
  unfold Py.join. rewrite concat_app. reflexivity.
Qed.

(** * The properties *)

(** C1. A document none of whose lines carries the hint marker comes out
    of [process_content] as it went in: every line with the line end it
    had, whichever it was, and a last line without one left without
    one. *)
Theorem process_content_identity (E : regex_engine) (d : str) :
  no_hint_lines (Py.splitlines d) ->
  process_content E d = Ok d.
Proof.
  intros Hno. unfold process_content, process_run.
  rewrite (for_loop_no_hints_ok E _ Hno). simpl.
  now rewrite splitlines_join.
Qed.

(** C2, as amended. [process_content] recovers every failure of the hint
    parser, the end of the document after a hint, and every [re.error]
    (and [ValueError]) of the engine: it returns, unless the engine
    raises an exception that is neither of the two, and then that
    exception is what leaves it. *)
Theorem process_content_raises_only_engine_errors
        (E : regex_engine) (content : str) :
  (exists out, process_content E content = Ok out) \/
  (exists e, process_content E content = Raise e /\
             is_ValueError e = false /\ is_re_error e = false /\
             engine_raises E e).
Proof.
  unfold process_content, process_run.
  destruct (for_loop E (Py.splitlines content) initial) as [st|e] eqn:H; simpl.
  - left. eauto.
  - right. exists e. split; [reflexivity|].
    exact (for_loop_raises E _ _ _ H).
Qed.


(** C4, as amended. When the loop draws a line with the marker whose
    hint does not parse, it appends the line as it is, logs one error
    and goes on with the very next line; when it is the last line the
    loop returns.  In the output of a document the line stands as it
    was, after what the lines before it gave, and what follows it is
    what the loop makes of the following lines on their own; a document
    with no other line that carries the marker comes out as it went
    in. *)
Theorem parse_failure_keeps_next_line
        (E : regex_engine) (h : str) (rest : list str) (e : exn) :
  Py.contains hint_marker h = true ->
  parse_hint h = Raise e ->
  (forall st,
      for_loop E (h :: rest) st =
      for_loop E rest (logging (skipping_hint e) (append h st))) /\
  (forall st,
      for_loop E [h] st = Ok (logging (skipping_hint e) (append h st))) /\
  (forall content pre,
      Py.splitlines content = pre ++ h :: rest ->
      pending pre = false ->
      process_content E content =
      (s <- for_loop E pre initial ;;
       r <- for_loop E rest initial ;;
       Ok (Py.join (modified_lines s) ++ h ++ Py.join (modified_lines r)))) /\
  (forall content pre,
      Py.splitlines content = pre ++ h :: rest ->
      no_hint_lines pre ->
      no_hint_lines rest ->
      process_content E content = Ok content).
Proof.
  intros Hm Hp.
  assert (Hturn : forall tail st,
             for_loop E (h :: tail) st =
             for_loop E tail (logging (skipping_hint e) (append h st)))
    by (intros tail st; exact (for_loop_parse_failure E h tail st e Hm Hp)).
  assert (Hdoc : forall content pre,
             Py.splitlines content = pre ++ h :: rest ->
             pending pre = false ->
             process_content E content =
             (s <- for_loop E pre initial ;;
              r <- for_loop E rest initial ;;
              Ok (Py.join (modified_lines s) ++ h
                  ++ Py.join (modified_lines r)))).
  { intros content pre Hl Hpre.
    rewrite (process_content_split E content pre (h :: rest) Hl Hpre).
    destruct (for_loop E pre initial) as [s|e1]; cbn [bind]; [|reflexivity].
    rewrite Hturn, for_loop_after.
    destruct (for_loop E rest initial) as [r|e2]; reflexivity. }
  split; [exact (Hturn rest)|]. split; [exact (Hturn [])|].
  split; [exact Hdoc|].
  intros content pre Hl Hpre Hrest.
  rewrite (Hdoc content pre Hl (no_hint_lines_pending pre Hpre)).
  rewrite (for_loop_no_hints_ok E pre Hpre), (for_loop_no_hints_ok E rest Hrest).
  cbn [bind modified_lines]. f_equal.
  rewrite <- (splitlines_join content), Hl.
  unfold Py.join. rewrite concat_app. reflexivity.
Qed.

(** C5, as amended. When the loop draws a line with the marker whose
    hint parses but whose pattern [re.compile] refuses with a
    [re.error], it appends the hint line and then the next line as it
    is, logs one error and goes on after them; when they are the last
    lines the loop returns.  Both lines stand in the output as they
    were, and a document with no other line that carries the marker
    comes out as it went in. *)
Theorem compile_failure_keeps_target
        (E : regex_engine) (h pattern replacement next_line m : str)
        (rest : list str) :
  Py.contains hint_marker h = true ->
  parse_hint h = Ok (pattern, replacement) ->
  re_compile E pattern = Raise (re_error m) ->
  let e := ValueError (invalid_regex_message pattern (re_error m)) in
  (forall st,
      for_loop E (h :: next_line :: rest) st =
      for_loop E rest
        (append next_line (logging (skipping_replacement e) (append h st)))) /\
  (forall st,
      for_loop E [h; next_line] st =
      Ok (append next_line (logging (skipping_replacement e) (append h st)))) /\
  (forall content pre,
      Py.splitlines content = pre ++ h :: next_line :: rest ->
      pending pre = false ->
      process_content E content =
      (s <- for_loop E pre initial ;;
       r <- for_loop E rest initial ;;
       Ok (Py.join (modified_lines s) ++ h ++ next_line
           ++ Py.join (modified_lines r)))) /\
  (forall content pre,
      Py.splitlines content = pre ++ h :: next_line :: rest ->
      no_hint_lines pre ->
      no_hint_lines rest ->
      process_content E content = Ok content).
Proof.
  intros Hm Hp Hc e.
  assert (Hr : forall t,
             replace_line E t pattern replacement = Raise e)
    by (intros t; exact (replace_line_compile_error E t _ replacement _ Hc)).
  exact (regex_failure_recovered E h pattern replacement next_line e rest
           Hm Hp (Hr next_line) eq_refl).
Qed.

(** C6, as amended. When the loop draws a line with the marker whose
    hint parses and no line follows, it appends the line, logs one
    warning and returns: the output is what the lines before gave, then
    the hint line; it is the input when no line before carries the
    marker. *)
Theorem hint_at_end_of_document
        (E : regex_engine) (h pattern replacement : str) :
  Py.contains hint_marker h = true ->
  parse_hint h = Ok (pattern, replacement) ->
  (forall st,
      for_loop E [h] st = Ok (logging (hint_at_eof h) (append h st))) /\
  (forall content pre,
      Py.splitlines content = pre ++ [h] ->
      pending pre = false ->
      process_content E content =
      (s <- for_loop E pre initial ;; Ok (Py.join (modified_lines s) ++ h))) /\
  (forall content pre,
      Py.splitlines content = pre ++ [h] ->
      no_hint_lines pre ->
      process_content E content = Ok content).
Proof.
  intros Hm Hp.
  assert (Heof : forall st,
             for_loop E [h] st = Ok (logging (hint_at_eof h) (append h st)))
    by (intros st; exact (for_loop_eof E h _ _ st Hm Hp)).
  assert (Hdoc : forall content pre,
             Py.splitlines content = pre ++ [h] ->
             pending pre = false ->
             process_content E content =
             (s <- for_loop E pre initial ;;
              Ok (Py.join (modified_lines s) ++ h))).
  { intros content pre Hl Hpre.
    rewrite (process_content_split E content pre [h] Hl Hpre).
    destruct (for_loop E pre initial) as [s|e1]; cbn [bind]; [|reflexivity].
    rewrite Heof. simpl. now rewrite app_nil_r. }
  split; [exact Heof|]. split; [exact Hdoc|].
  intros content pre Hl Hno.
  rewrite (Hdoc content pre Hl (no_hint_lines_pending pre Hno)).
  rewrite (for_loop_no_hints_ok E pre Hno). simpl.
  f_equal. rewrite <- (splitlines_join content), Hl.
  unfold Py.join. rewrite concat_app. simpl. now rewrite app_nil_r.
Qed.

(** C7, as amended. A line that has [# cfn-hint: replace:] anywhere in
    it, whatever stands before and after, is a hint line to the loop:
    the turn that draws it is the turn of a hint. *)
Theorem marker_anywhere_is_hint
        (E : regex_engine) (before after_marker : str)
        (rest : list str) (st : state) :
  let line := before ++ hint_marker ++ after_marker in
  Py.contains hint_marker line = true /\
  for_loop E (line :: rest) st = hint_turn E line rest st.
Proof.
  intros line.
  assert (Hm : Py.contains hint_marker line = true) by apply contains_app.
  split; [exact Hm|]. now apply for_loop_hint_turn.
Qed.

(** C8. [parse_hint] fails, with a [ValueError], exactly when the line
    has fewer than three pieces between colons or the text after its
    second colon, trimmed, has no [" with: "] in it; so it fails on every
    line of fewer than three pieces, and it fails in no other way.  The
    pieces are those of [split(':', 2)], which stops at three. *)
Theorem parse_hint_fails_iff (line : str) :
  ((exists m, parse_hint line = Raise (ValueError m)) <->
   (colon_parts line < 3 \/
    exists t, after_colons line 2 = Some t /\
              Py.contains delimiter (Py.strip t) = false)) /\
  (colon_parts line < 3 -> exists m, parse_hint line = Raise (ValueError m)) /\
  (forall e, parse_hint line = Raise e -> exists m, e = ValueError m) /\
  length (Py.split (py ":") line 2) = Nat.min 3 (colon_parts line).
Proof.
  assert (Hfew : colon_parts line < 3 ->
                 exists m, parse_hint line = Raise (ValueError m)).
  { intros H. apply colon_parts_after in H.
    eexists. apply parse_hint_fails_without_delimiter.
    apply with_needs_colon. intros Hin. apply strip_In in Hin.
    now apply (last_part_no_colon line H). }
  split; [|split; [exact Hfew|split]].
  - split.
    + intros [m Hp]. rewrite parse_hint_eq in Hp. cbv zeta in Hp.
      destruct (after_colons line 2) as [t|] eqn:Ht.
      * right. exists t. split; [reflexivity|].
        unfold Py.contains, last_part in *. rewrite Ht in Hp.
        destruct (Py.find delimiter (Py.strip t)); [discriminate|reflexivity].
      * left. now apply colon_parts_after.
    + intros [H|(t & Ht & Hc)]; [now apply Hfew|].
      eexists. apply parse_hint_fails_without_delimiter.
      unfold last_part. rewrite Ht.
      unfold Py.contains in Hc.
      destruct (Py.find delimiter (Py.strip t)); [discriminate|reflexivity].
  - intros e He. apply parse_hint_raises in He. subst e. eexists. reflexivity.
  - exact (split_colon_length line).
Qed.

(** C9, as amended. The loop leaves one line in [modified_lines] for
    each line of the input; and when each of them has the shape of the
    line it stands for (the same line boundaries in the same order, and
    text before, between and after them in the one where there is text
    in the other) the joined output has as many logical lines as the
    input. *)
Theorem line_count_preserved (E : regex_engine) (content : str) (st : state) :
  process_run E content = Ok st ->
  length (modified_lines st) = logical_lines content /\
  (Forall2 same_shape (Py.splitlines content) (modified_lines st) ->
   logical_lines (Py.join (modified_lines st)) = logical_lines content).
Proof.
  intros H. split.
  - apply for_loop_length in H. exact H.
  - intros Hs. rewrite !logical_lines_shape.
    apply same_shape_concat in Hs. unfold same_shape in Hs.
    unfold Py.join. rewrite <- Hs.
    change (concat (Py.splitlines content)) with (Py.join (Py.splitlines content)).
    now rewrite splitlines_join.
Qed.

(** C10. When the pattern of a parsed hint compiles and the substitution
    raises a [re.error], [replace_line] raises the [ValueError] it raises
    when the pattern does not compile, and the loop recovers in the same
    way: the hint line, then the next line as it is, one error logged,
    and on with the line after; when they are the last lines the loop
    returns, and a document with no other line that carries the marker
    comes out as it went in. *)
Theorem template_failure_recovered
        (E : regex_engine) (h pattern replacement next_line m : str)
        (rest : list str) :
  Py.contains hint_marker h = true ->
  parse_hint h = Ok (pattern, replacement) ->
  re_compile E pattern = Ok tt ->
  re_sub E pattern replacement next_line = Raise (re_error m) ->
  let e := ValueError (invalid_regex_message pattern (re_error m)) in
  replace_line E next_line pattern replacement = Raise e /\
  (forall E' : regex_engine,
      re_compile E' pattern = Raise (re_error m) ->
      replace_line E' next_line pattern replacement = Raise e) /\
  (forall st,
      for_loop E (h :: next_line :: rest) st =
      for_loop E rest
        (append next_line (logging (skipping_replacement e) (append h st)))) /\
  (forall st,
      for_loop E [h; next_line] st =
      Ok (append next_line (logging (skipping_replacement e) (append h st)))) /\
  (forall content pre,
      Py.splitlines content = pre ++ h :: next_line :: rest ->
      pending pre = false ->
      process_content E content =
      (s <- for_loop E pre initial ;;
       r <- for_loop E rest initial ;;
       Ok (Py.join (modified_lines s) ++ h ++ next_line
           ++ Py.join (modified_lines r)))) /\
  (forall content pre,
      Py.splitlines content = pre ++ h :: next_line :: rest ->
      no_hint_lines pre ->
      no_hint_lines rest ->
      process_content E content = Ok content).
Proof.
  intros Hm Hp Hc Hs e.
  pose proof (replace_line_sub_error E next_line _ _ _ Hc Hs) as Hr.
  split; [exact Hr|]. split.
  - intros E' Hc'. now apply replace_line_compile_error.
  - exact (regex_failure_recovered E h pattern replacement next_line e rest
             Hm Hp Hr eq_refl).
Qed.

(** * The properties at work *)

Ltac each_line H :=
  vm_compute in H;
  repeat (destruct H as [<-|H]; [vm_compute; reflexivity|]);
  contradiction.

(** Lines ending in LF, CR LF and CR, and a last line without an end. *)
Lemma process_content_identity_witness :
  let d := py "a: 1" ++ nl ++ py "b: 2" ++ [CR; LF] ++ py "c: 3" ++ [CR]
           ++ py "last" in
  no_hint_lines (Py.splitlines d) /\ process_content PyRe.engine d = Ok d.
Proof.
  intros d.
  assert (H : no_hint_lines (Py.splitlines d)) by (intros l Hin; each_line Hin).
  split; [exact H|].
  exact (process_content_identity PyRe.engine d H).
Defined.

(** C2 as stated fails: a repetition count no smaller than [MAXREPEAT]
    makes [re.compile] raise [OverflowError], which is no [re.error];
    it leaves [replace_line] and [process_content]. *)
Lemma repetition_overflow_escapes :
  process_content PyRe.engine
    (py "# cfn-hint: replace: a{4294967295} with: b" ++ nl ++ py "a" ++ nl)
  = Raise (OverflowError (py "the repetition number is too large")).
Proof. vm_compute. reflexivity. Qed.



(** A hint without [" with: "], then a hint and its target: the loop
    goes on with the second hint.  And the same hint between two plain
    lines: the document comes out as it went in. *)
Lemma parse_failure_keeps_next_line_witness :
  let h := py "# cfn-hint: replace: oops" ++ nl in
  let rest := [py "# cfn-hint: replace: a with: b" ++ nl; py "a" ++ nl] in
  let d := py "x: a" ++ nl ++ h ++ py "y: a" ++ nl in
  Py.contains hint_marker h = true /\
  parse_hint h = Raise unpack_failure /\
  for_loop PyRe.engine [h] initial
  = Ok {| modified_lines := [h];
          log := [skipping_hint unpack_failure] |} /\
  process_content PyRe.engine (h ++ Py.join rest)
  = Ok (h ++ py "# cfn-hint: replace: a with: b" ++ nl ++ py "b" ++ nl) /\
  process_content PyRe.engine d = Ok d.
Proof.
  intros h rest d.
  assert (Hm : Py.contains hint_marker h = true) by (vm_compute; reflexivity).
  assert (Hp : parse_hint h = Raise unpack_failure) by (vm_compute; reflexivity).
  split; [exact Hm|]. split; [exact Hp|].
  destruct (parse_failure_keeps_next_line PyRe.engine h rest _ Hm Hp)
    as (_ & Hlast & Hdoc & _).
  split; [exact (Hlast initial)|]. split.
  - rewrite (Hdoc (h ++ Py.join rest) [] eq_refl eq_refl).
    vm_compute. reflexivity.
  - apply (proj2 (proj2 (proj2 (parse_failure_keeps_next_line
                                  PyRe.engine h [py "y: a" ++ nl] _ Hm Hp)))
                 d [py "x: a" ++ nl]).
    + vm_compute. reflexivity.
    + intros l Hin. each_line Hin.
    + intros l Hin. each_line Hin.
Defined.

(** C4 as stated fails: the second line carries the marker and its hint
    does not parse, yet it does not stand in the output as it was: the
    hint before it took it for its target and rewrote it. *)
Lemma malformed_hint_after_hint_is_rewritten :
  let h1 := py "# cfn-hint: replace: a with: b" ++ nl in
  let h2 := py "# cfn-hint: replace: oops" ++ nl in
  let out := h1 ++ py "# cfn-hint: replbce: oops" ++ nl in
  Py.splitlines (h1 ++ h2) = [h1; h2] /\
  Py.contains hint_marker h2 = true /\
  parse_hint h2 = Raise unpack_failure /\
  process_content PyRe.engine (h1 ++ h2) = Ok out /\
  ~ In h2 (Py.splitlines out).
Proof.
  intros h1 h2 out.
  repeat split; try (vm_compute; reflexivity).
  intros Hin. vm_compute in Hin.
  destruct Hin as [Hin|[Hin|[]]]; discriminate.
Qed.

(** A pattern with a group left open. *)
Lemma compile_failure_keeps_target_witness :
  let h := py "# cfn-hint: replace: (foo with: bar" ++ nl in
  let t := py "(foo" ++ nl in
  let m := py "missing ), unterminated subpattern at position 0" in
  let e := ValueError (py "Invalid regex pattern: '(foo'. Details: " ++ m) in
  Py.contains hint_marker h = true /\
  parse_hint h = Ok (py "(foo", py "bar") /\
  re_compile PyRe.engine (py "(foo") = Raise (re_error m) /\
  for_loop PyRe.engine [h; t] initial
  = Ok {| modified_lines := [h; t]; log := [skipping_replacement e] |} /\
  process_content PyRe.engine (h ++ t) = Ok (h ++ t).
Proof.
  intros h t m e.
  assert (Hm : Py.contains hint_marker h = true) by (vm_compute; reflexivity).
  assert (Hp : parse_hint h = Ok (py "(foo", py "bar"))
    by (vm_compute; reflexivity).
  assert (Hc : re_compile PyRe.engine (py "(foo") = Raise (re_error m))
    by (vm_compute; reflexivity).
  split; [exact Hm|]. split; [exact Hp|]. split; [exact Hc|].
  destruct (compile_failure_keeps_target PyRe.engine h _ _ t m []
              Hm Hp Hc) as (_ & Hlast & _ & Hdoc).
  split; [exact (Hlast initial)|].
  apply (Hdoc (h ++ t) []).
  - vm_compute. reflexivity.
  - intros l [].
  - intros l [].
Defined.

(** C5 as stated fails: the hint parses, [re.compile] refuses its
    pattern, with an [OverflowError], and [process_content] raises:
    nothing of the document is returned.  And a line with the marker
    whose hint parses and whose pattern does not compile is not kept as
    it was where it comes right after a hint that parses: it is the
    target of that hint. *)
Lemma compile_overflow_is_not_recovered :
  let h := py "# cfn-hint: replace: x{4294967296,} with: y" ++ nl in
  let d := py "Name: web" ++ nl ++ h ++ py "x" ++ nl in
  let e := OverflowError (py "the repetition number is too large") in
  let h1 := py "# cfn-hint: replace: foo with: bar" ++ nl in
  let h2 := py "# cfn-hint: replace: (foo with: x" ++ nl in
  let t := py "(foo" ++ nl in
  (Py.contains hint_marker h = true /\
   parse_hint h = Ok (py "x{4294967296,}", py "y") /\
   re_compile PyRe.engine (py "x{4294967296,}") = Raise e /\
   process_content PyRe.engine d = Raise e) /\
  (Py.contains hint_marker h2 = true /\
   parse_hint h2 = Ok (py "(foo", py "x") /\
   re_compile PyRe.engine (py "(foo")
   = Raise (re_error (py "missing ), unterminated subpattern at position 0")) /\
   process_content PyRe.engine (h1 ++ h2 ++ t)
   = Ok (h1 ++ py "# cfn-hint: replace: (bar with: x" ++ nl ++ t)).
Proof. intros h d e h1 h2 t. repeat split; vm_compute; reflexivity. Qed.

Lemma hint_at_end_of_document_witness :
  let h := py "# cfn-hint: replace: a with: b" in
  let content := py "x: a" ++ nl ++ h in
  Py.contains hint_marker h = true /\
  parse_hint h = Ok (py "a", py "b") /\
  process_content PyRe.engine content = Ok content.
Proof.
  intros h content.
  assert (Hm : Py.contains hint_marker h = true) by (vm_compute; reflexivity).
  assert (Hp : parse_hint h = Ok (py "a", py "b")) by (vm_compute; reflexivity).
  split; [exact Hm|]. split; [exact Hp|].
  apply (proj2 (proj2 (hint_at_end_of_document PyRe.engine h _ _ Hm Hp))
               content [py "x: a" ++ nl]).
  - vm_compute. reflexivity.
  - intros l Hin. each_line Hin.
Defined.

(** C6 as stated fails: the last line is a hint that parses, and the
    output is not the input, an earlier hint having rewritten its
    target. *)
Lemma hint_at_end_output_differs :
  let h := py "# cfn-hint: replace: a with: b" in
  let d := py "# cfn-hint: replace: foo with: bar" ++ nl
           ++ py "foo baz" ++ nl ++ h in
  let out := py "# cfn-hint: replace: foo with: bar" ++ nl
             ++ py "bar baz" ++ nl ++ h in
  last (Py.splitlines d) [] = h /\
  Py.contains hint_marker h = true /\
  parse_hint h = Ok (py "a", py "b") /\
  process_content PyRe.engine d = Ok out /\
  out <> d.
Proof.
  intros h d out.
  repeat split; try (vm_compute; reflexivity).
  vm_compute. discriminate.
Qed.

(** C7 as stated fails: this line has [cfn-hint: replace:] in it and a
    well-formed hint after it, yet is no hint line to the loop, its [#]
    missing: the next line stays as it is, where the turn of a hint
    would have rewritten it. *)
Lemma bare_marker_is_not_hint :
  let line := py "cfn-hint: replace: foo with: bar" ++ nl in
  let t := py "foo baz" ++ nl in
  Py.contains (py "cfn-hint: replace:") line = true /\
  Py.contains hint_marker line = false /\
  process_content PyRe.engine (line ++ t) = Ok (line ++ t) /\
  for_loop PyRe.engine [line; t] initial
  = Ok {| modified_lines := [line; t]; log := [] |} /\
  hint_turn PyRe.engine line [t] initial
  = Ok {| modified_lines := [line; py "bar baz" ++ nl]; log := [] |}.
Proof. intros line t. repeat split; vm_compute; reflexivity. Qed.

Lemma parse_hint_fails_iff_witness :
  let line := py "# cfn-hint; replace: foo with bar" ++ nl in
  colon_parts line < 3 /\
  exists m, parse_hint line = Raise (ValueError m).
Proof.
  intros line.
  assert (H : colon_parts line < 3) by (vm_compute; lia).
  split; [exact H|].
  exact (proj1 (proj2 (parse_hint_fails_iff line)) H).
Defined.

(** The example of the specification: two lines in, two lines out. *)
Lemma line_count_preserved_witness :
  let content := py "# cfn-hint: replace: foo with: bar" ++ nl
                 ++ py "foo baz" ++ nl in
  exists st,
    process_run PyRe.engine content = Ok st /\
    Forall2 same_shape (Py.splitlines content) (modified_lines st) /\
    length (modified_lines st) = logical_lines content /\
    logical_lines (Py.join (modified_lines st)) = logical_lines content.
Proof.
  intros content.
  destruct (process_run PyRe.engine content) as [st|e] eqn:Hrun;
    [|vm_compute in Hrun; discriminate].
  exists st.
  assert (Hs : Forall2 same_shape (Py.splitlines content) (modified_lines st)).
  { vm_compute in Hrun. injection Hrun as <-.
    repeat constructor. }
  split; [reflexivity|]. split; [exact Hs|].
  destruct (line_count_preserved PyRe.engine content st Hrun) as [Hlen Hlines].
  split; [exact Hlen | exact (Hlines Hs)].
Defined.

(** C9 as stated fails: the pattern [\s] matches the line end of the
    target, and three lines come out as two.  And a last line that a
    substitution leaves empty is a line no more: two lines come out as
    one. *)
Lemma line_count_changes :
  let d := py "# cfn-hint: replace: \s with: _" ++ nl
           ++ py "a b" ++ nl ++ py "c" ++ nl in
  let out := py "# cfn-hint: replace: \s with: _" ++ nl
             ++ py "a_b_c" ++ nl in
  let d' := py "# cfn-hint: replace: (x?)foo with: \1" ++ nl ++ py "foo" in
  let out' := py "# cfn-hint: replace: (x?)foo with: \1" ++ nl in
  (process_content PyRe.engine d = Ok out /\
   logical_lines d = 3 /\
   logical_lines out = 2) /\
  (process_content PyRe.engine d' = Ok out' /\
   logical_lines d' = 2 /\
   logical_lines out' = 1).
Proof. intros d out d' out'. repeat split; vm_compute; reflexivity. Qed.

(** The replacement [\9] for the pattern [foo], which has no group. *)
Lemma template_failure_recovered_witness :
  let h := py "# cfn-hint: replace: foo with: \9" ++ nl in
  let t := py "foo" ++ nl in
  let m := py "invalid group reference 9 at position 1" in
  let e := ValueError (py "Invalid regex pattern: 'foo'. Details: " ++ m) in
  Py.contains hint_marker h = true /\
  parse_hint h = Ok (py "foo", py "\9") /\
  re_compile PyRe.engine (py "foo") = Ok tt /\
  re_sub PyRe.engine (py "foo") (py "\9") t = Raise (re_error m) /\
  replace_line PyRe.engine t (py "foo") (py "\9") = Raise e /\
  for_loop PyRe.engine [h; t] initial
  = Ok {| modified_lines := [h; t]; log := [skipping_replacement e] |} /\
  process_content PyRe.engine (h ++ t) = Ok (h ++ t).
Proof.
  intros h t m e.
  assert (Hm : Py.contains hint_marker h = true) by (vm_compute; reflexivity).
  assert (Hp : parse_hint h = Ok (py "foo", py "\9"))
    by (vm_compute; reflexivity).
  assert (Hc : re_compile PyRe.engine (py "foo") = Ok tt)
    by (vm_compute; reflexivity).
  assert (Hs : re_sub PyRe.engine (py "foo") (py "\9") t = Raise (re_error m))
    by (vm_compute; reflexivity).
  split; [exact Hm|]. split; [exact Hp|]. split; [exact Hc|].
  split; [exact Hs|].
  destruct (template_failure_recovered PyRe.engine h _ _ t m []
              Hm Hp Hc Hs) as (Hr & _ & _ & Hlast & _ & Hdoc).
  split; [exact Hr|]. split; [exact (Hlast initial)|].
  apply (Hdoc (h ++ t) []).
  - vm_compute. reflexivity.
  - intros l [].
  - intros l [].
Defined.

(** * More on Python strings *)

Lemma lstrip_spaces (ws s : str) :
  all_space ws = true -> Py.lstrip (ws ++ s) = Py.lstrip s.
Proof.
  induction ws as [|c ws IH]; intros H; [reflexivity|].
  apply andb_true_iff in H as [Hc Hws].
  simpl. rewrite Hc. now apply IH.
Qed.

Lemma lstrip_head (c : char) (s : str) :
  Py.isspace c = false -> Py.lstrip (c :: s) = c :: s.
Proof. intros H. simpl. now rewrite H. Qed.

(** [lstrip] drops a run of white space and nothing else. *)
Lemma lstrip_suffix (s : str) :
  exists ws, all_space ws = true /\ s = ws ++ Py.lstrip s.
Proof.
  induction s as [|c s (ws & Hws & IH)].
  - exists []. split; reflexivity.
  - simpl. destruct (Py.isspace c) eqn:Hc.
    + exists (c :: ws). split.
      * simpl. now rewrite Hc.
      * simpl. now rewrite <- IH.
    + exists []. split; reflexivity.
Qed.

Lemma lstrip_first (s t : str) (c : char) :
  Py.lstrip s = c :: t -> Py.isspace c = false.
Proof.
  induction s as [|d s IH]; simpl; [discriminate|].
  destruct (Py.isspace d) eqn:Hd; [exact IH|].
  now intros [= <- _].
Qed.

Lemma rstrip_spaces (s ws : str) :
  all_space ws = true -> Py.rstrip (s ++ ws) = Py.rstrip s.
Proof.
  intros H. unfold Py.rstrip. rewrite rev_app_distr, lstrip_spaces; [reflexivity|].
  unfold all_space in *. rewrite forallb_forall in *.
  intros x Hx. apply H. now apply in_rev.
Qed.

Lemma rstrip_last (s : str) (c : char) :
  Py.isspace c = false -> Py.rstrip (s ++ [c]) = s ++ [c].
Proof.
  intros H. unfold Py.rstrip. rewrite rev_app_distr. simpl rev at 2.
  simpl app. rewrite lstrip_head by exact H.
  simpl. now rewrite rev_involutive.
Qed.

Lemma strip_first (s t : str) (c : char) :
  Py.strip s = c :: t -> Py.isspace c = false.
Proof.
  unfold Py.strip, Py.rstrip. intros H.
  destruct (lstrip_suffix (rev (Py.lstrip s))) as (ws & Hws & Heq).
  assert (Hl : Py.lstrip (rev (Py.lstrip s)) = rev (c :: t))
    by (now rewrite <- H, rev_involutive).
  rewrite Hl in Heq. simpl in Heq.
  apply (f_equal (@rev char)) in Heq.
  rewrite rev_involutive, rev_app_distr, rev_app_distr in Heq.
  simpl in Heq. now apply lstrip_first in Heq.
Qed.

Lemma strip_last (s t : str) (c : char) :
  Py.strip s = t ++ [c] -> Py.isspace c = false.
Proof.
  unfold Py.strip, Py.rstrip. intros H.
  apply (f_equal (@rev char)) in H.
  rewrite rev_involutive, rev_app_distr in H. simpl in H.
  now apply lstrip_first in H.
Qed.

(** What [strip] leaves is a piece of its argument. *)
Lemma strip_infix (s : str) : exists a b, s = a ++ Py.strip s ++ b.
Proof.
  unfold Py.strip, Py.rstrip.
  destruct (lstrip_suffix s) as (ws & _ & Hs).
  destruct (lstrip_suffix (rev (Py.lstrip s))) as (ws' & _ & Hr).
  exists ws, (rev ws').
  rewrite <- rev_app_distr, <- Hr, rev_involutive. exact Hs.
Qed.

Lemma contains_cons_false (sub : str) (c : char) (s : str) :
  Py.contains sub (c :: s) = false -> Py.contains sub s = false.
Proof.
  unfold Py.contains. rewrite find_cons.
  destruct (Py.startswith sub (c :: s)); [discriminate|].
  destruct (Py.find sub s); [discriminate|reflexivity].
Qed.

Lemma contains_inv (sub s : str) :
  Py.contains sub s = true -> exists a b, s = a ++ sub ++ b.
Proof.
  unfold Py.contains. destruct (Py.find sub s) as [i|] eqn:H; [|discriminate].
  intros _. apply find_Some in H as [H _]. eauto.
Qed.

Lemma startswith_shorten (sub x y : str) :
  Py.startswith sub (x ++ y) = true ->
  length sub <= length x ->
  Py.startswith sub x = true.
Proof.
  revert x; induction sub as [|c sub IH]; intros x H Hlen; [reflexivity|].
  destruct x as [|d x]; [simpl in Hlen; lia|].
  simpl in *. apply andb_true_iff in H as [Hc Hs].
  rewrite Hc. apply IH; [exact Hs | lia].
Qed.

(** The index [find] gives is that of the first occurrence: an
    occurrence of [sub] after [a] puts it at [length a] at the most. *)
Lemma find_app_le (sub a b : str) :
  exists j, Py.find sub (a ++ sub ++ b) = Some j /\ j <= length a.
Proof.
  induction a as [|c a (j & Hj & Hle)].
  - exists 0. split; [|simpl; lia].
    simpl app. apply find_startswith, startswith_app.
  - change ((c :: a) ++ sub ++ b) with (c :: (a ++ sub ++ b)).
    rewrite find_cons.
    destruct (Py.startswith sub (c :: a ++ sub ++ b)).
    + exists 0. split; [reflexivity | simpl; lia].
    + rewrite Hj. exists (S j). split; [reflexivity | simpl; lia].
Qed.

(** Where [sub' ++ [z]] has no occurrence that begins in [p], its first
    occurrence in [p ++ (sub' ++ [z]) ++ r] is the one after [p]. *)
Lemma find_first (sub' : str) (z : char) (p r : str) :
  Py.contains (sub' ++ [z]) (p ++ sub') = false ->
  Py.find (sub' ++ [z]) (p ++ (sub' ++ [z]) ++ r) = Some (length p).
Proof.
  induction p as [|c p IH]; intros H.
  - simpl app. apply find_startswith, startswith_app.
  - change ((c :: p) ++ (sub' ++ [z]) ++ r)
      with (c :: (p ++ (sub' ++ [z]) ++ r)).
    rewrite find_cons.
    destruct (Py.startswith (sub' ++ [z]) (c :: p ++ (sub' ++ [z]) ++ r))
      eqn:Hs.
    + exfalso.
      assert (Hx : Py.startswith (sub' ++ [z]) ((c :: p) ++ sub') = true).
      { apply startswith_shorten with (y := z :: r).
        - rewrite <- Hs. f_equal. simpl. now rewrite <- !app_assoc.
        - rewrite !length_app. simpl. lia. }
      apply find_startswith in Hx. unfold Py.contains in H.
      now rewrite Hx in H.
    + rewrite IH; [reflexivity|].
      now apply contains_cons_false in H.
Qed.

(** ** The pieces of a line *)

Lemma after_colons_app (a rest : str) (n : nat) :
  no_colon a = true ->
  after_colons (a ++ colon :: rest) (S n) = after_colons rest n.
Proof.
  induction a as [|c a IH]; intros H.
  - change (after_colons ([] ++ colon :: rest) (S n))
      with (if (colon =? colon)%N then after_colons rest n
            else after_colons rest (S n)).
    now rewrite N.eqb_refl.
  - apply andb_true_iff in H as [Hc Ha].
    change (after_colons ((c :: a) ++ colon :: rest) (S n))
      with (if (c =? colon)%N then after_colons (a ++ colon :: rest) n
            else after_colons (a ++ colon :: rest) (S n)).
    apply negb_true_iff in Hc. rewrite Hc. now apply IH.
Qed.

(** [strip] takes the white space around a text that begins and ends
    with something else. *)
Lemma strip_trim (ws1 x ws2 : str) :
  all_space ws1 = true ->
  all_space ws2 = true ->
  x <> [] ->
  Py.lstrip x = x ->
  Py.rstrip x = x ->
  Py.strip (ws1 ++ x ++ ws2) = x.
Proof.
  intros H1 H2 Hne Hl Hr. unfold Py.strip.
  rewrite lstrip_spaces by exact H1.
  destruct x as [|c x]; [contradiction|].
  assert (Hc : Py.isspace c = false) by (now apply lstrip_first in Hl).
  change ((c :: x) ++ ws2) with (c :: (x ++ ws2)).
  rewrite lstrip_head by exact Hc.
  change (c :: (x ++ ws2)) with ((c :: x) ++ ws2).
  now rewrite rstrip_spaces.
Qed.

Lemma contains_strip (sub s : str) :
  Py.contains sub (Py.strip s) = true -> Py.contains sub s = true.
Proof.
  intros H. apply contains_inv in H as (a' & b' & H).
  destruct (strip_infix s) as (a & b & Hs).
  rewrite Hs, H.
  replace (a ++ (a' ++ sub ++ b') ++ b) with ((a ++ a') ++ sub ++ (b' ++ b))
    by (now rewrite <- !app_assoc).
  apply contains_app.
Qed.

Lemma lstrip_app (x y : str) :
  Py.lstrip x <> [] -> Py.lstrip (x ++ y) = Py.lstrip x ++ y.
Proof.
  induction x as [|c x IH]; simpl; [congruence|].
  destruct (Py.isspace c); [exact IH | reflexivity].
Qed.

Lemma lstrip_keeps (c : char) (x : str) :
  Py.isspace c = false -> In c x -> Py.lstrip x <> [].
Proof.
  intros Hc. induction x as [|d x IH]; simpl; [tauto|].
  destruct (Py.isspace d) eqn:Hd; [|discriminate].
  intros [->|Hin]; [congruence | now apply IH].
Qed.

(** * The hint parser: what it returns *)

Lemma parse_hint_ok (line pattern replacement : str) :
  parse_hint line = Ok (pattern, replacement) ->
  exists i,
    Py.find delimiter (Py.strip (last_part line)) = Some i /\
    i = length pattern /\
    Py.strip (last_part line) = pattern ++ delimiter ++ replacement.
Proof.
  rewrite parse_hint_eq. cbv zeta.
  destruct (Py.find delimiter (Py.strip (last_part line))) as [i|] eqn:Hf;
    [|discriminate].
  intros [= <- <-]. exists i. split; [reflexivity|].
  apply find_Some in Hf as [Heq Hle].
  split; [|exact Heq].
  now rewrite length_firstn, Nat.min_l.
Qed.

(** X1. What [parse_hint] returns puts the trimmed text after the second
    colon back together, and the cut is at the first delimiter: none
    begins within the pattern. *)
Theorem parse_hint_splits_at_first_delimiter (line pattern replacement : str) :
  parse_hint line = Ok (pattern, replacement) ->
  Py.strip (last_part line) = pattern ++ delimiter ++ replacement /\
  Py.contains delimiter (pattern ++ open_delimiter) = false.
Proof.
  intros H. destruct (parse_hint_ok _ _ _ H) as (i & Hf & Hi & Heq).
  split; [exact Heq|].
  destruct (Py.contains delimiter (pattern ++ open_delimiter)) eqn:Hc;
    [|reflexivity].
  exfalso. apply contains_inv in Hc as (a & b & Hc).
  destruct (find_app_le delimiter a (b ++ [chr " "] ++ replacement))
    as (j & Hj & Hle).
  assert (Hparts : Py.strip (last_part line)
                   = a ++ delimiter ++ b ++ [chr " "] ++ replacement).
  { rewrite Heq.
    change delimiter with (open_delimiter ++ [chr " "]) at 1.
    rewrite <- app_assoc, app_assoc, Hc. now rewrite <- !app_assoc. }
  rewrite Hparts in Hf. rewrite Hf in Hj. injection Hj as <-.
  apply (f_equal (@length char)) in Hc.
  rewrite !length_app in Hc. change (length open_delimiter) with 6 in Hc.
  change (length delimiter) with 7 in Hc. lia.
Qed.

Lemma parse_hint_splits_at_first_delimiter_witness :
  let line := py "# cfn-hint: replace: a with: b with: c" ++ nl in
  parse_hint line = Ok (py "a", py "b with: c") /\
  Py.strip (last_part line) = py "a" ++ delimiter ++ py "b with: c" /\
  Py.contains delimiter (py "a" ++ open_delimiter) = false.
Proof.
  intros line.
  assert (H : parse_hint line = Ok (py "a", py "b with: c"))
    by (vm_compute; reflexivity).
  split; [exact H|].
  exact (parse_hint_splits_at_first_delimiter line _ _ H).
Defined.

(** X2. [parse_hint] never returns an empty pattern or an empty
    replacement, nor a pattern that begins or a replacement that ends
    with white space. *)
Theorem parse_hint_never_empty (line pattern replacement : str) :
  parse_hint line = Ok (pattern, replacement) ->
  pattern <> [] /\ replacement <> [] /\
  Py.lstrip pattern = pattern /\ Py.rstrip replacement = replacement.
Proof.
  intros H. destruct (parse_hint_ok _ _ _ H) as (i & _ & _ & Heq).
  assert (Hp : exists c t, pattern = c :: t /\ Py.isspace c = false).
  { destruct pattern as [|c t].
    - apply strip_first in Heq. discriminate.
    - exists c, t. split; [reflexivity|]. now apply strip_first in Heq. }
  assert (Hr : exists t c, replacement = t ++ [c] /\ Py.isspace c = false).
  { destruct (rev replacement) as [|c t] eqn:Hrev.
    - apply (f_equal (@rev char)) in Hrev. rewrite rev_involutive in Hrev.
      simpl in Hrev. subst replacement. exfalso.
      change (pattern ++ delimiter ++ [])
        with (pattern ++ open_delimiter ++ [chr " "]) in Heq.
      rewrite app_assoc in Heq. apply strip_last in Heq. discriminate.
    - apply (f_equal (@rev char)) in Hrev. rewrite rev_involutive in Hrev.
      simpl in Hrev. exists (rev t), c. split; [exact Hrev|].
      rewrite Hrev, !app_assoc in Heq. now apply strip_last in Heq. }
  destruct Hp as (c & t & -> & Hc). destruct Hr as (t' & c' & -> & Hc').
  split; [discriminate|]. split; [now destruct t'|].
  split; [now apply lstrip_head | now apply rstrip_last].
Qed.

Lemma parse_hint_never_empty_witness :
  let line := py "# cfn-hint: replace:   foo  with:  bar baz  " ++ nl in
  parse_hint line = Ok (py "foo ", py " bar baz") /\
  py "foo " <> [] /\ py " bar baz" <> [] /\
  Py.lstrip (py "foo ") = py "foo " /\
  Py.rstrip (py " bar baz") = py " bar baz".
Proof.
  intros line.
  assert (H : parse_hint line = Ok (py "foo ", py " bar baz"))
    by (vm_compute; reflexivity).
  split; [exact H|].
  exact (parse_hint_never_empty line _ _ H).
Defined.

Lemma rstrip_last_inv (r : str) :
  r <> [] -> Py.rstrip r = r ->
  exists t c, r = t ++ [c] /\ Py.isspace c = false.
Proof.
  intros Hne Hr. unfold Py.rstrip in Hr.
  apply (f_equal (@rev char)) in Hr. rewrite rev_involutive in Hr.
  destruct (rev r) as [|c t] eqn:Hrev.
  - apply (f_equal (@rev char)) in Hrev. rewrite rev_involutive in Hrev.
    now subst r.
  - exists (rev t), c. split.
    + apply (f_equal (@rev char)) in Hrev. now rewrite rev_involutive in Hrev.
    + now apply lstrip_first in Hr.
Qed.

Lemma after_colons_hint_text (lead name rest : str) :
  no_colon lead = true -> no_colon name = true ->
  after_colons (lead ++ [colon] ++ name ++ [colon] ++ rest) 2 = Some rest.
Proof.
  intros Hl Hn. simpl app.
  rewrite (after_colons_app lead _ 1 Hl), (after_colons_app name _ 0 Hn).
  apply after_colons_0.
Qed.

Lemma last_part_hint_text (lead name rest : str) :
  no_colon lead = true -> no_colon name = true ->
  last_part (lead ++ [colon] ++ name ++ [colon] ++ rest) = rest.
Proof.
  intros Hl Hn. unfold last_part.
  now rewrite (after_colons_hint_text lead name rest Hl Hn).
Qed.

(** X3. A line written as two pieces closed by colons, a pattern, the
    delimiter and a replacement, with any white space around the two,
    gives the pattern and the replacement back, provided neither is
    empty, the pattern does not begin and the replacement does not end
    with white space, and no delimiter begins within the pattern. *)
Theorem parse_hint_round_trip
        (lead name ws1 pattern replacement ws2 : str) :
  no_colon lead = true ->
  no_colon name = true ->
  all_space ws1 = true ->
  all_space ws2 = true ->
  pattern <> [] ->
  replacement <> [] ->
  Py.lstrip pattern = pattern ->
  Py.rstrip replacement = replacement ->
  Py.contains delimiter (pattern ++ open_delimiter) = false ->
  parse_hint (hint_text lead name ws1 pattern replacement ws2)
  = Ok (pattern, replacement).
Proof.
  intros Hl Hn H1 H2 Hp Hr Hlp Hrr Hfirst.
  rewrite parse_hint_eq. cbv zeta. unfold hint_text.
  rewrite (last_part_hint_text lead name _ Hl Hn).
  assert (Hstrip : Py.strip (ws1 ++ pattern ++ delimiter ++ replacement ++ ws2)
                   = pattern ++ delimiter ++ replacement).
  { replace (ws1 ++ pattern ++ delimiter ++ replacement ++ ws2)
      with (ws1 ++ (pattern ++ delimiter ++ replacement) ++ ws2)
      by (now rewrite <- !app_assoc).
    apply strip_trim; try assumption.
    - destruct pattern; [contradiction | discriminate].
    - destruct pattern as [|c t]; [contradiction|].
      apply lstrip_head. now apply lstrip_first in Hlp.
    - destruct (rstrip_last_inv replacement Hr Hrr) as (t & c & -> & Hc).
      rewrite !app_assoc. now apply rstrip_last. }
  rewrite Hstrip.
  change delimiter with (open_delimiter ++ [chr " "]) at 1 2.
  rewrite (find_first open_delimiter (chr " ") pattern replacement Hfirst).
  change (open_delimiter ++ [chr " "]) with delimiter.
  f_equal. f_equal.
  - rewrite firstn_app, Nat.sub_diag, firstn_all. simpl. apply app_nil_r.
  - rewrite skipn_app, skipn_all2 by lia.
    replace (length pattern + length delimiter - length pattern)
      with (length delimiter) by lia.
    reflexivity.
Qed.

Lemma parse_hint_round_trip_witness :
  parse_hint (hint_text (py "  # cfn-hint") (py " replace") (py "  ")
                        (py "(\d+) units") (py "[\1]") (py " " ++ nl))
  = Ok (py "(\d+) units", py "[\1]").
Proof.
  apply parse_hint_round_trip; vm_compute; try reflexivity; discriminate.
Defined.

(** X4. A hint whose replacement is empty, or white space only, is
    rejected: once the line is trimmed the delimiter has lost its last
    space.  (No earlier delimiter in the text is supposed.) *)
Theorem blank_replacement_rejected (lead name ws1 pattern ws2 : str) :
  no_colon lead = true ->
  no_colon name = true ->
  all_space ws2 = true ->
  Py.contains delimiter (ws1 ++ pattern ++ open_delimiter) = false ->
  parse_hint (hint_text lead name ws1 pattern [] ws2) = Raise unpack_failure.
Proof.
  intros Hl Hn H2 Hfirst.
  apply parse_hint_fails_without_delimiter. unfold hint_text.
  rewrite (last_part_hint_text lead name _ Hl Hn).
  set (X := ws1 ++ pattern ++ open_delimiter).
  assert (HT : ws1 ++ pattern ++ delimiter ++ [] ++ ws2
               = X ++ (chr " " :: ws2)).
  { unfold X. change delimiter with (open_delimiter ++ [chr " "]).
    now rewrite <- !app_assoc. }
  assert (HX : Py.lstrip X <> []).
  { apply (lstrip_keeps colon); [reflexivity|].
    unfold X. rewrite !in_app_iff. right. right. vm_compute. tauto. }
  assert (Hs : Py.strip (X ++ (chr " " :: ws2)) = Py.strip X).
  { unfold Py.strip. rewrite (lstrip_app X _ HX).
    apply rstrip_spaces. simpl. exact H2. }
  rewrite HT, Hs.
  destruct (Py.find delimiter (Py.strip X)) as [i|] eqn:Hf; [|reflexivity].
  exfalso.
  assert (Hc : Py.contains delimiter (Py.strip X) = true)
    by (unfold Py.contains; now rewrite Hf).
  apply contains_strip in Hc. fold X in Hfirst. congruence.
Qed.

Lemma blank_replacement_rejected_witness :
  parse_hint (py "# cfn-hint: replace: foo with: " ++ nl)
  = Raise unpack_failure.
Proof.
  apply (blank_replacement_rejected (py "# cfn-hint") (py " replace")
           (py " ") (py "foo") nl);
    vm_compute; reflexivity.
Defined.

(** [parse_hint] reads nothing of a line before its second colon. *)
Lemma parse_hint_after_second_colon (line1 line2 t : str) :
  after_colons line1 2 = Some t ->
  after_colons line2 2 = Some t ->
  parse_hint line1 = parse_hint line2.
Proof.
  intros H1 H2. rewrite !parse_hint_eq. unfold last_part.
  now rewrite H1, H2.
Qed.

Lemma after_colons_marker (before rest : str) :
  no_colon before = true ->
  after_colons (before ++ hint_marker ++ rest) 2 = Some rest.
Proof.
  intros H.
  change hint_marker
    with (py "# cfn-hint" ++ [colon] ++ py " replace" ++ [colon]).
  replace (before ++ (py "# cfn-hint" ++ [colon] ++ py " replace" ++ [colon])
           ++ rest)
    with ((before ++ py "# cfn-hint") ++ [colon] ++ py " replace" ++ [colon]
          ++ rest)
    by (now rewrite <- !app_assoc).
  apply after_colons_hint_text; [|reflexivity].
  unfold no_colon in *. rewrite forallb_app.
  apply andb_true_iff. split; [exact H | reflexivity].
Qed.

(** X5. Text before the marker that has no colon in it changes nothing
    of what [parse_hint] returns. *)
Theorem text_before_marker_ignored (before rest : str) :
  no_colon before = true ->
  parse_hint (before ++ hint_marker ++ rest) = parse_hint (hint_marker ++ rest).
Proof.
  intros H.
  apply (parse_hint_after_second_colon _ _ rest).
  - now apply after_colons_marker.
  - now apply (after_colons_marker []).
Qed.

Lemma text_before_marker_ignored_witness :
  parse_hint (py "    - item  # cfn-hint: replace: a with: b" ++ nl)
  = parse_hint (py "# cfn-hint: replace: a with: b" ++ nl).
Proof.
  apply (text_before_marker_ignored (py "    - item  ")
           (py " a with: b" ++ nl)).
  vm_compute. reflexivity.
Defined.

(** X6. With one colon in the text before the marker, the second colon
    of the line is the one within the marker: [parse_hint] reads the
    line as a hint whose text begins with [ replace:]. *)
Theorem colon_before_marker_shifts_hint (key value rest : str) :
  no_colon key = true ->
  no_colon value = true ->
  parse_hint (key ++ [colon] ++ value ++ hint_marker ++ rest)
  = parse_hint (hint_marker ++ py " replace:" ++ rest).
Proof.
  intros Hk Hv.
  apply (parse_hint_after_second_colon _ _ (py " replace:" ++ rest)).
  - change hint_marker with (py "# cfn-hint" ++ [colon] ++ py " replace:").
    replace (key ++ [colon] ++ value
             ++ (py "# cfn-hint" ++ [colon] ++ py " replace:") ++ rest)
      with (key ++ [colon] ++ (value ++ py "# cfn-hint") ++ [colon]
            ++ py " replace:" ++ rest)
      by (now rewrite <- !app_assoc).
    apply after_colons_hint_text; [exact Hk|].
    unfold no_colon in *. rewrite forallb_app.
    apply andb_true_iff. split; [exact Hv | reflexivity].
  - now apply (after_colons_marker []).
Qed.

Lemma colon_before_marker_shifts_hint_witness :
  parse_hint (py "Name: web  # cfn-hint: replace: a with: b" ++ nl)
  = parse_hint (py "# cfn-hint: replace: replace: a with: b" ++ nl) /\
  parse_hint (py "Name: web  # cfn-hint: replace: a with: b" ++ nl)
  = Ok (py "replace: a", py "b").
Proof.
  split.
  - apply (colon_before_marker_shifts_hint (py "Name") (py " web  ")
             (py " a with: b" ++ nl)); vm_compute; reflexivity.
  - vm_compute. reflexivity.
Defined.

(** * The document processor: more of what it does *)

Section MoreRuns.

Variable E : regex_engine.

Lemma follows_marker_tail (line : str) (rest : list str) (j : nat) :
  follows_marker (line :: rest) (S (S j)) = follows_marker rest (S j).
Proof. reflexivity. Qed.

Lemma follows_marker_shift (line : str) (rest : list str) (j : nat) :
  follows_marker (line :: rest) (S j) = false ->
  Py.contains hint_marker line = false ->
  follows_marker rest j = false.
Proof. destruct j; [reflexivity | now rewrite follows_marker_tail]. Qed.

(** X7. A line that does not come directly after a line with the marker
    is in the output as it was, at the place it had. *)
Theorem line_kept_unless_after_marker (lines : list str) :
  forall (r : state) (i : nat) (l : str),
    for_loop E lines initial = Ok r ->
    nth_error lines i = Some l ->
    follows_marker lines i = false ->
    nth_error (modified_lines r) i = Some l.
Proof.
  induction lines as [|line rest IH1 IH2] using list_ind_two;
    intros r i l Hrun Hi Hf.
  - destruct i; discriminate.
  - destruct (Py.contains hint_marker line) eqn:Hm.
    + rewrite (for_loop_hint_turn E _ _ _ Hm) in Hrun. unfold hint_turn in Hrun.
      destruct (parse_hint line) as [[p q]|e] eqn:Hp.
      * destruct rest as [|t rest'].
        -- injection Hrun as <-.
           destruct i as [|[|i]]; try discriminate; exact Hi.
        -- assert (Hstep : exists x r',
                      for_loop E rest' initial = Ok r' /\
                      modified_lines r = line :: x :: modified_lines r').
           { destruct (replace_line E t p q) as [m|e].
             - apply for_loop_ok_after in Hrun as (r' & Hr' & ->).
               exists m, r'. split; [exact Hr' | reflexivity].
             - destruct (is_ValueError e); [|discriminate].
               apply for_loop_ok_after in Hrun as (r' & Hr' & ->).
               exists t, r'. split; [exact Hr' | reflexivity]. }
           destruct Hstep as (x & r' & Hr' & ->).
           destruct i as [|[|i]].
           ++ exact Hi.
           ++ simpl in Hf. congruence.
           ++ simpl. apply (IH2 _ _ eq_refl r' i l Hr'); [exact Hi|].
              destruct i; [reflexivity | exact Hf].
      * apply for_loop_ok_after in Hrun as (r' & Hr' & ->).
        destruct i as [|i]; [exact Hi|].
        destruct i as [|i]; [simpl in Hf; congruence|].
        simpl. apply (IH1 r' (S i) l Hr'); [exact Hi | exact Hf].
    + rewrite (for_loop_plain E _ _ _ Hm) in Hrun.
      apply for_loop_ok_after in Hrun as (r' & Hr' & ->).
      destruct i as [|i]; [exact Hi|].
      simpl. apply (IH1 r' i l Hr'); [exact Hi|].
      now apply (follows_marker_shift line).
Qed.

(** The loop is done with a hint that parses and the line after it,
    whatever that line is. *)
Lemma pending_after_target (pre : list str) (h t : str) (tail : list str)
      (pattern replacement : str) :
  pending pre = false ->
  Py.contains hint_marker h = true ->
  parse_hint h = Ok (pattern, replacement) ->
  pending (pre ++ h :: t :: tail) = pending tail.
Proof.
  intros Hpre Hm Hp. revert Hpre.
  induction pre as [|line rest IH1 IH2] using list_ind_two; intros Hpre.
  - simpl app. cbn [pending]. now rewrite Hm, Hp.
  - change ((line :: rest) ++ h :: t :: tail)
      with (line :: (rest ++ h :: t :: tail)).
    cbn [pending] in *.
    destruct (Py.contains hint_marker line); [|now apply IH1].
    destruct (parse_hint line) as [[p q]|e]; [|now apply IH1].
    destruct rest as [|t' rest']; [discriminate|].
    change ((t' :: rest') ++ h :: t :: tail)
      with (t' :: (rest' ++ h :: t :: tail)).
    cbv beta iota. now apply (IH2 _ _ eq_refl).
Qed.

(** X8. When the loop draws a line with the marker whose hint parses and
    the engine rewrites the next line, the output has the hint line as
    it was and the rewritten line after it, and the loop goes on with
    the line after: the next line is the target whatever it is, a line
    with the marker too, and such a line is then not read as a hint. *)
Theorem hint_rewrites_next_line
        (h pattern replacement next_line modified_line : str)
        (rest : list str) :
  Py.contains hint_marker h = true ->
  parse_hint h = Ok (pattern, replacement) ->
  replace_line E next_line pattern replacement = Ok modified_line ->
  (forall content pre,
      Py.splitlines content = pre ++ h :: next_line :: rest ->
      pending pre = false ->
      process_content E content =
      (s <- for_loop E pre initial ;;
       r <- for_loop E rest initial ;;
       Ok (Py.join (modified_lines s) ++ h ++ modified_line
           ++ Py.join (modified_lines r)))) /\
  (forall pre, pending pre = false ->
               pending (pre ++ h :: next_line :: rest) = pending rest).
Proof.
  intros Hm Hp Hr. split.
  - intros content pre Hl Hpre.
    rewrite (process_content_split E content pre _ Hl Hpre).
    destruct (for_loop E pre initial) as [s|e1]; cbn [bind]; [|reflexivity].
    rewrite (for_loop_rewrite E _ _ _ _ _ rest initial Hm Hp Hr),
            for_loop_after.
    destruct (for_loop E rest initial) as [r|e2]; reflexivity.
  - intros pre Hpre. exact (pending_after_target pre h _ rest _ _ Hpre Hm Hp).
Qed.

(** X9. The loop logs one record at the most for each line with the
    marker, and none for a document without one. *)
Theorem log_bounded_by_marker_lines (lines : list str) :
  forall r,
    for_loop E lines initial = Ok r ->
    length (log r) <= length (marker_lines lines).
Proof.
  induction lines as [|line rest IH1 IH2] using list_ind_two; intros r Hrun.
  - injection Hrun as <-. simpl. lia.
  - unfold marker_lines in *. cbn [filter].
    destruct (Py.contains hint_marker line) eqn:Hm.
    + rewrite (for_loop_hint_turn E _ _ _ Hm) in Hrun. unfold hint_turn in Hrun.
      destruct (parse_hint line) as [[p q]|e] eqn:Hp.
      * destruct rest as [|t rest'].
        -- injection Hrun as <-. simpl. lia.
        -- cbn [filter].
           assert (Hrest : length (filter (Py.contains hint_marker) rest')
                           <= length (if Py.contains hint_marker t
                                      then t :: filter (Py.contains hint_marker) rest'
                                      else filter (Py.contains hint_marker) rest'))
             by (destruct (Py.contains hint_marker t); simpl; lia).
           destruct (replace_line E t p q) as [m|e].
           ++ apply for_loop_ok_after in Hrun as (r' & Hr' & ->).
              apply (IH2 _ _ eq_refl) in Hr'. simpl. lia.
           ++ destruct (is_ValueError e); [|discriminate].
              apply for_loop_ok_after in Hrun as (r' & Hr' & ->).
              apply (IH2 _ _ eq_refl) in Hr'. simpl. lia.
      * apply for_loop_ok_after in Hrun as (r' & Hr' & ->).
        apply IH1 in Hr'. simpl. lia.
    + rewrite (for_loop_plain E _ _ _ Hm) in Hrun.
      apply for_loop_ok_after in Hrun as (r' & Hr' & ->).
      apply IH1 in Hr'. simpl. lia.
Qed.

End MoreRuns.

(** ** Lines of a text made of two *)

Lemma at_line_end_cons (c : char) (x b : str) :
  x <> [] -> at_line_end (c :: x) b = at_line_end x b.
Proof.
  intros Hx. unfold at_line_end. simpl rev.
  destruct (rev x) as [|d t] eqn:Hrev; [|reflexivity].
  apply (f_equal (@rev char)) in Hrev. rewrite rev_involutive in Hrev.
  contradiction.
Qed.

Lemma splitlines_from_app (a b : str) :
  at_line_end a b = true ->
  forall line,
    (a = [] -> line = []) ->
    Py.splitlines_from line (a ++ b) =
    Py.splitlines_from line a ++ Py.splitlines_from [] b.
Proof.
  induction a as [|c rest IH1 IH2] using list_ind_two; intros Hend line Hline.
  - rewrite (Hline eq_refl). reflexivity.
  - change ((c :: rest) ++ b) with (c :: (rest ++ b)).
    rewrite !splitlines_from_cons.
    destruct rest as [|d rest'].
    + unfold at_line_end in Hend. simpl rev in Hend.
      apply andb_true_iff in Hend as [Hc Hcr]. rewrite Hc.
      simpl app. destruct b as [|d b']; [reflexivity|].
      apply negb_true_iff in Hcr. rewrite Hcr. reflexivity.
    + rewrite at_line_end_cons in Hend by discriminate.
      change ((d :: rest') ++ b) with (d :: (rest' ++ b)).
      destruct (Py.is_linebreak c).
      * destruct ((c =? CR)%N && (d =? LF)%N).
        -- cbn [app]. f_equal.
           apply (IH2 _ _ eq_refl); [|reflexivity].
           destruct rest' as [|x rest'']; [reflexivity|].
           now rewrite at_line_end_cons in Hend by discriminate.
        -- cbn [app]. f_equal.
           change (d :: rest' ++ b) with ((d :: rest') ++ b).
           apply IH1; [exact Hend | discriminate].
      * change (d :: rest' ++ b) with ((d :: rest') ++ b).
        apply IH1; [exact Hend | discriminate].
Qed.

Lemma splitlines_app (a b : str) :
  at_line_end a b = true ->
  Py.splitlines (a ++ b) = Py.splitlines a ++ Py.splitlines b.
Proof. intros H. now apply splitlines_from_app. Qed.

(** X10. Two documents put end to end, the first ending where a line
    ends and not on a hint that waits for its target, come out as the
    two outputs put end to end. *)
Theorem process_content_app (E : regex_engine) (d1 d2 : str) :
  at_line_end d1 d2 = true ->
  pending (Py.splitlines d1) = false ->
  process_content E (d1 ++ d2) =
  (out1 <- process_content E d1 ;;
   out2 <- process_content E d2 ;;
   Ok (out1 ++ out2)).
Proof.
  intros Hend Hpend.
  rewrite (process_content_split E (d1 ++ d2) _ _ (splitlines_app _ _ Hend) Hpend).
  unfold process_content, process_run.
  destruct (for_loop E (Py.splitlines d1) initial) as [s|e]; cbn [bind];
    [|reflexivity].
  destruct (for_loop E (Py.splitlines d2) initial) as [r|e]; reflexivity.
Qed.

(** * More of the properties at work *)

Lemma line_kept_unless_after_marker_witness :
  let lines := [py "a: foo" ++ nl;
                py "# cfn-hint: replace: foo with: bar" ++ nl;
                py "b: foo" ++ nl;
                py "c: foo" ++ nl] in
  for_loop PyRe.engine lines initial
  = Ok {| modified_lines := [py "a: foo" ++ nl;
                             py "# cfn-hint: replace: foo with: bar" ++ nl;
                             py "b: bar" ++ nl;
                             py "c: foo" ++ nl];
          log := [] |} /\
  nth_error [py "a: foo" ++ nl;
             py "# cfn-hint: replace: foo with: bar" ++ nl;
             py "b: bar" ++ nl;
             py "c: foo" ++ nl] 3 = Some (py "c: foo" ++ nl).
Proof.
  intros lines.
  assert (Hrun : for_loop PyRe.engine lines initial
                 = Ok {| modified_lines :=
                           [py "a: foo" ++ nl;
                            py "# cfn-hint: replace: foo with: bar" ++ nl;
                            py "b: bar" ++ nl;
                            py "c: foo" ++ nl];
                         log := [] |})
    by (vm_compute; reflexivity).
  split; [exact Hrun|].
  exact (line_kept_unless_after_marker PyRe.engine lines _ 3 _ Hrun
           eq_refl eq_refl).
Defined.

(** A hint, then a line that is a hint itself, then the line that second
    hint would have aimed at. *)
Lemma hint_rewrites_next_line_witness :
  let h := py "# cfn-hint: replace: oo with: 00" ++ nl in
  let t := py "# cfn-hint: replace: foo with: bar" ++ nl in
  let m := py "# cfn-hint: replace: f00 with: bar" ++ nl in
  Py.contains hint_marker h = true /\
  parse_hint h = Ok (py "oo", py "00") /\
  replace_line PyRe.engine t (py "oo") (py "00") = Ok m /\
  process_content PyRe.engine (h ++ t ++ py "foo" ++ nl)
  = Ok (h ++ m ++ py "foo" ++ nl) /\
  pending [h; t; py "foo" ++ nl] = false.
Proof.
  intros h t m.
  assert (Hm : Py.contains hint_marker h = true) by (vm_compute; reflexivity).
  assert (Hp : parse_hint h = Ok (py "oo", py "00")) by (vm_compute; reflexivity).
  assert (Hr : replace_line PyRe.engine t (py "oo") (py "00") = Ok m)
    by (vm_compute; reflexivity).
  split; [exact Hm|]. split; [exact Hp|]. split; [exact Hr|].
  destruct (hint_rewrites_next_line PyRe.engine h _ _ t m [py "foo" ++ nl]
              Hm Hp Hr) as [Hdoc Hpend].
  split.
  - rewrite (Hdoc (h ++ t ++ py "foo" ++ nl) [] eq_refl eq_refl).
    vm_compute. reflexivity.
  - exact (Hpend [] eq_refl).
Defined.

Lemma log_bounded_by_marker_lines_witness :
  let lines := [py "# cfn-hint: replace: oops" ++ nl;
                py "# cfn-hint: replace: ( with: x" ++ nl;
                py "# cfn-hint: replace: a with: b" ++ nl] in
  exists r,
    for_loop PyRe.engine lines initial = Ok r /\
    length (log r) = 2 /\
    length (log r) <= length (marker_lines lines).
Proof.
  intros lines.
  destruct (for_loop PyRe.engine lines initial) as [r|e] eqn:Hrun;
    [|vm_compute in Hrun; discriminate].
  exists r. split; [reflexivity|]. split.
  - vm_compute in Hrun. injection Hrun as <-. reflexivity.
  - exact (log_bounded_by_marker_lines PyRe.engine lines r Hrun).
Defined.

Lemma process_content_app_witness :
  let d1 := py "# cfn-hint: replace: foo with: bar" ++ nl
            ++ py "foo" ++ [CR; LF] in
  let d2 := py "foo" ++ nl in
  at_line_end d1 d2 = true /\
  pending (Py.splitlines d1) = false /\
  process_content PyRe.engine (d1 ++ d2)
  = (out1 <- process_content PyRe.engine d1 ;;
     out2 <- process_content PyRe.engine d2 ;;
     Ok (out1 ++ out2)).
Proof.
  intros d1 d2.
  assert (H1 : at_line_end d1 d2 = true) by (vm_compute; reflexivity).
  assert (H2 : pending (Py.splitlines d1) = false) by (vm_compute; reflexivity).
  split; [exact H1|]. split; [exact H2|].
  exact (process_content_app PyRe.engine d1 d2 H1 H2).
Defined.

(** * The command: lemmas *)

Lemma str_eqb_refl (a : str) : str_eqb a a = true.
Proof. induction a as [|c a IH]; simpl; [reflexivity|]. now rewrite N.eqb_refl. Qed.

Lemma str_eqb_eq (a b : str) : str_eqb a b = true -> a = b.
Proof.
  revert b; induction a as [|c a IH]; intros [|d b] H; simpl in H;
    try discriminate; [reflexivity|].
  apply andb_true_iff in H as [Hc Hab]. apply N.eqb_eq in Hc.
  subst d. f_equal. now apply IH.
Qed.

(** [for_loop_logged] is [for_loop], with the state kept. *)
Lemma for_loop_logged_spec (E : regex_engine) (lines : list str) :
  forall st,
    for_loop E lines st =
    match for_loop_logged E lines st with
    | (st', None) => Ok st'
    | (_, Some e) => Raise e
    end.
Proof.
  induction lines as [|line rest IH1 IH2] using list_ind_two; intros st.
  - reflexivity.
  - cbn [for_loop for_loop_logged].
    destruct (Py.contains hint_marker line); [|apply IH1].
    destruct (parse_hint line) as [[p q]|[]]; try reflexivity; [|apply IH1].
    destruct rest as [|t rest']; [reflexivity|].
    destruct (replace_line E t p q) as [m|[]]; try reflexivity;
      apply (IH2 _ _ eq_refl).
Qed.

Lemma process_logged_result (E : regex_engine) (content : str) :
  snd (process_logged E content) = process_content E content.
Proof.
  unfold process_logged, process_content, process_run.
  rewrite for_loop_logged_spec.
  destruct (for_loop_logged E (Py.splitlines content) initial) as [st [e|]];
    reflexivity.
Qed.

Lemma for_loop_logged_no_hints (E : regex_engine) (lines : list str) :
  no_hint_lines lines ->
  forall st,
    for_loop_logged E lines st =
    ({| modified_lines := modified_lines st ++ lines; log := log st |}, None).
Proof.
  induction lines as [|l lines IH]; intros Hno st.
  - simpl. destruct st; simpl. now rewrite app_nil_r.
  - cbn [for_loop_logged]. rewrite (Hno l (or_introl eq_refl)).
    rewrite IH by (intros x Hx; apply Hno; now right).
    unfold append; simpl. now rewrite <- app_assoc.
Qed.

(** A document without hints is processed without a record, and comes
    out as it is. *)
Lemma process_logged_no_hints (E : regex_engine) (content : str) :
  no_hint_lines (Py.splitlines content) ->
  process_logged E content = ([], Ok content).
Proof.
  intros Hno. unfold process_logged.
  rewrite (for_loop_logged_no_hints E _ Hno). simpl.
  now rewrite splitlines_join.
Qed.

Section CommandFacts.

Variable FS : Type.
Variable sys : system FS.
Variable E : regex_engine.

(** ** What touches which part of the world *)

Lemma emit_writes (s : sink) (r : record) (w : world FS) :
  writes (emit FS sys s r w) = writes w.
Proof. destruct s; reflexivity. Qed.

Lemma emit_stdout (s : sink) (r : record) (w : world FS) :
  stdout (emit FS sys s r w) = stdout w.
Proof. destruct s; reflexivity. Qed.

Lemma emit_all_writes (s : sink) (rs : list record) (w : world FS) :
  writes (emit_all FS sys s rs w) = writes w.
Proof.
  unfold emit_all. revert w; induction rs as [|r rs IH]; intros w;
    [reflexivity|].
  simpl. now rewrite IH, emit_writes.
Qed.

Lemma emit_all_stdout (s : sink) (rs : list record) (w : world FS) :
  stdout (emit_all FS sys s rs w) = stdout w.
Proof.
  unfold emit_all. revert w; induction rs as [|r rs IH]; intros w;
    [reflexivity|].
  simpl. now rewrite IH, emit_stdout.
Qed.

Lemma print_lines_writes (f : str -> str) (lines : list str) (w : world FS) :
  writes (fold_left (fun w line => print FS (f line) w) lines w) = writes w.
Proof.
  revert w; induction lines as [|l lines IH]; intros w; [reflexivity|].
  simpl. now rewrite IH.
Qed.

Lemma print_diff_writes (a b name : str) (w : world FS) :
  writes (print_diff FS sys a b name w) = writes w.
Proof.
  unfold print_diff.
  destruct (unified_diff FS sys _ _ _ _) as [|l d]; [reflexivity|].
  apply (print_lines_writes (fun line => paint line ++ line)).
Qed.

Lemma run_process_writes (s : sink) (content : str) (w w' : world FS)
      (r : res str) :
  run_process FS sys E s content w = (w', r) -> writes w' = writes w.
Proof.
  unfold run_process. destruct (process_logged E content) as [evs result].
  intros [= <- _]. apply emit_all_writes.
Qed.

Lemma run_process_stdout (s : sink) (content : str) (w w' : world FS)
      (r : res str) :
  run_process FS sys E s content w = (w', r) -> stdout w' = stdout w.
Proof.
  unfold run_process. destruct (process_logged E content) as [evs result].
  intros [= <- _]. apply emit_all_stdout.
Qed.

Lemma run_process_result (s : sink) (content : str) (w : world FS) :
  snd (run_process FS sys E s content w) = process_content E content.
Proof.
  unfold run_process. rewrite <- process_logged_result.
  destruct (process_logged E content); reflexivity.
Qed.

Lemma setup_logging_writes (name : option str) (q : bool) (w w' : world FS)
      (r : io sink) :
  setup_logging FS sys name q w = (w', r) ->
  writes w' = writes w /\ stdout w' = stdout w.
Proof.
  unfold setup_logging. destruct q; [now intros [= <- _]|].
  destruct name as [[|c name]|]; try (now intros [= <- _]).
  destruct (open_log FS sys (fs w) (c :: name)) as [f o]. cbv beta iota.
  now intros [= <- _].
Qed.

Lemma expand_writes (s : sink) (cwd : path) (patterns : list str) :
  forall files (w w' : world FS) (r : io (list path)),
    expand FS sys s cwd patterns files w = (w', r) ->
    writes w' = writes w /\ stdout w' = stdout w.
Proof.
  induction patterns as [|pattern rest IH]; intros files w w' r.
  - now intros [= <- _].
  - cbn [expand].
    destruct (if is_absolute FS sys pattern
              then parent_glob FS sys (fs w) pattern
              else if Py.contains (py "**") pattern
                   then cwd_rglob FS sys (fs w) cwd pattern
                   else cwd_glob FS sys (fs w) cwd pattern) as [matched|x];
      [|now intros [= <- _]].
    destruct matched as [|f matched].
    + cbn [add_files]. intros H. apply IH in H.
      now rewrite emit_writes, emit_stdout in H.
    + destruct (add_files FS sys (f :: matched) files w) as [files'|x];
        [apply IH | now intros [= <- _]].
Qed.

End CommandFacts.

Ltac break_match_in H :=
  match type of H with
  | context [match ?x with _ => _ end] => destruct x eqn:?
  end.

Ltac same_writes :=
  repeat match goal with
         | H : run_process _ _ _ _ _ _ = _ |- _ =>
             apply run_process_writes in H
         | H : writes _ = _ |- _ => rewrite H
         | |- _ => rewrite emit_writes
         | |- _ => rewrite print_diff_writes
         end.

Section FileLoop.

Variable FS : Type.
Variable sys : system FS.
Variable E : regex_engine.

(** The loop over the files with [--diff] calls [write_text] for none. *)
Lemma process_files_diff_writes (s : sink) (args : arguments)
      (files : list path) :
  diff args = true ->
  forall code (w w' : world FS) (r : io nat),
    process_files FS sys E s args files code w = (w', r) ->
    writes w' = writes w.
Proof.
  intros Hdiff.
  induction files as [|file rest IH]; intros code w w' r H.
  - now injection H as <- _.
  - cbn [process_files] in H. cbv zeta in H. rewrite Hdiff in H.
    repeat break_match_in H;
      try (apply IH in H); try (injection H as <- _);
      same_writes; reflexivity.
Qed.

End FileLoop.

Ltac break_match :=
  match goal with
  | |- context [match ?x with _ => _ end] => destruct x eqn:?
  end.

Lemma max_loop_codes (c k : nat) :
  In c [EXIT_SUCCESS; EXIT_FILE_READ_ERROR; EXIT_FILE_WRITE_ERROR;
        EXIT_INTERNAL_ERROR] ->
  In k [EXIT_FILE_READ_ERROR; EXIT_FILE_WRITE_ERROR; EXIT_INTERNAL_ERROR] ->
  In (Nat.max c k) [EXIT_SUCCESS; EXIT_FILE_READ_ERROR; EXIT_FILE_WRITE_ERROR;
                    EXIT_INTERNAL_ERROR].
Proof.
  simpl. intros [<-|[<-|[<-|[<-|[]]]]] [<-|[<-|[<-|[]]]]; simpl; tauto.
Qed.

Lemma with_logged_self {FS : Type} (w : world FS) : with_logged w w = w.
Proof. destruct w; reflexivity. Qed.

Section FileLoopFacts.

Variable FS : Type.
Variable sys : system FS.
Variable E : regex_engine.

(** The code the loop over the files returns is the one it began with or
    that of a failure met. *)
Lemma process_files_codes (s : sink) (args : arguments) (files : list path) :
  forall code (w w' : world FS) c,
    In code [EXIT_SUCCESS; EXIT_FILE_READ_ERROR; EXIT_FILE_WRITE_ERROR;
             EXIT_INTERNAL_ERROR] ->
    process_files FS sys E s args files code w = (w', Return c) ->
    In c [EXIT_SUCCESS; EXIT_FILE_READ_ERROR; EXIT_FILE_WRITE_ERROR;
          EXIT_INTERNAL_ERROR].
Proof.
  induction files as [|file rest IH]; intros code w w' c Hcode H.
  - now injection H as _ <-.
  - cbn [process_files] in H. cbv zeta in H.
    repeat break_match_in H; try discriminate;
      (apply IH in H; [exact H|]);
      try exact Hcode;
      apply max_loop_codes; try exact Hcode; simpl; tauto.
Qed.

(** The loop over two lists of files one after the other. *)
Lemma process_files_split (s : sink) (args : arguments) (a b : list path) :
  forall code (w : world FS),
    process_files FS sys E s args (a ++ b) code w =
    match process_files FS sys E s args a code w with
    | (w1, Return code1) => process_files FS sys E s args b code1 w1
    | (w1, Throw x) => (w1, Throw x)
    end.
Proof.
  induction a as [|file rest IH]; intros code w.
  - reflexivity.
  - change ((file :: rest) ++ b) with (file :: (rest ++ b)).
    cbn [process_files]. cbv zeta.
    repeat (break_match; try apply IH; try reflexivity).
Qed.

(** X20. The loop over a list of files followed by another is the loop
    over the first, then the loop over the second from the world and
    the exit code the first one left: a file's failure stops neither,
    short of an exception that leaves [main]. *)
Theorem process_files_app (s : sink) (args : arguments) (a b : list path) :
  forall code (w : world FS),
    process_files FS sys E s args (a ++ b) code w =
    match process_files FS sys E s args a code w with
    | (w1, Return code1) => process_files FS sys E s args b code1 w1
    | (w1, Throw x) => (w1, Throw x)
    end.
Proof. exact (process_files_split s args a b). Qed.

(** Where no file that can be read has a hint, the loop prints nothing
    and writes nothing. *)
Lemma process_files_no_hints (s : sink) (args : arguments)
      (files : list path) :
  (forall f p c, read_text FS sys f p = Return c ->
                 no_hint_lines (Py.splitlines c)) ->
  forall code (w w' : world FS) (r : io nat),
    process_files FS sys E s args files code w = (w', r) ->
    stdout w' = stdout w /\ writes w' = writes w.
Proof.
  intros Hread.
  induction files as [|file rest IH]; intros code w w' r H.
  - injection H as <- _. split; reflexivity.
  - cbn [process_files] in H. cbv zeta in H.
    destruct (read_text FS sys _ file) as [c|[os text|text]] eqn:Hr.
    + unfold run_process in H.
      rewrite (process_logged_no_hints E c (Hread _ _ _ Hr)) in H.
      rewrite str_eqb_refl in H. apply IH in H.
      change (map of_log_event []) with (@nil record) in H.
      unfold emit_all in H. cbn [fold_left] in H.
      now rewrite !emit_writes, !emit_stdout in H.
    + apply IH in H. now rewrite !emit_writes, !emit_stdout in H.
    + injection H as <- _. now rewrite emit_writes, emit_stdout.
Qed.

(** ** Logging disabled *)

Lemma emit_disabled (w0 w : world FS) (r : record) :
  emit FS sys Disabled r (with_logged w0 w)
  = with_logged w0 (emit FS sys ToStderr r w).
Proof. reflexivity. Qed.

Lemma emit_all_disabled (rs : list record) :
  forall w0 w : world FS,
    emit_all FS sys Disabled rs (with_logged w0 w)
    = with_logged w0 (emit_all FS sys ToStderr rs w).
Proof.
  unfold emit_all. induction rs as [|r rs IH]; intros w0 w; [reflexivity|].
  cbn [fold_left]. rewrite emit_disabled. apply IH.
Qed.

Lemma print_lines_disabled (f : str -> str) (lines : list str) :
  forall w0 w : world FS,
    fold_left (fun w line => print FS (f line) w) lines (with_logged w0 w)
    = with_logged w0 (fold_left (fun w line => print FS (f line) w) lines w).
Proof.
  induction lines as [|l lines IH]; intros w0 w; [reflexivity|].
  cbn [fold_left]. apply (IH w0 (print FS (f l) w)).
Qed.

Lemma print_diff_disabled (a b name : str) (w0 w : world FS) :
  print_diff FS sys a b name (with_logged w0 w)
  = with_logged w0 (print_diff FS sys a b name w).
Proof.
  unfold print_diff.
  destruct (unified_diff FS sys _ _ _ _) as [|l d]; [reflexivity|].
  apply (print_lines_disabled (fun line => paint line ++ line)).
Qed.

Lemma run_process_disabled (content : str) (w0 w : world FS) :
  run_process FS sys E Disabled content (with_logged w0 w)
  = (with_logged w0 (fst (run_process FS sys E ToStderr content w)),
     snd (run_process FS sys E ToStderr content w)).
Proof.
  unfold run_process. destruct (process_logged E content) as [evs result].
  cbn [fst snd]. now rewrite emit_all_disabled.
Qed.

Lemma process_files_disabled (args : arguments) (files : list path) :
  forall code (w0 w : world FS),
    process_files FS sys E Disabled args files code (with_logged w0 w)
    = (with_logged w0 (fst (process_files FS sys E ToStderr args files code w)),
       snd (process_files FS sys E ToStderr args files code w)).
Proof.
  induction files as [|file rest IH]; intros code w0 w.
  - reflexivity.
  - cbn [process_files]. cbv zeta.
    rewrite emit_disabled.
    change (fs (with_logged w0 (emit FS sys ToStderr
                                  (INFO, py "Processing file: " ++ file) w)))
      with (fs (emit FS sys ToStderr (INFO, py "Processing file: " ++ file) w)).
    destruct (read_text FS sys _ file) as [c|[os text|text]].
    + rewrite run_process_disabled.
      destruct (run_process FS sys E ToStderr c _) as [w1 [m|e]]; cbn [fst snd].
      * destruct (str_eqb c m).
        -- rewrite emit_disabled. apply IH.
        -- destruct (diff args).
           ++ rewrite print_diff_disabled. apply IH.
           ++ destruct (output_dir args) as [dir|].
              ** change (fs (with_logged w0 w1)) with (fs w1).
                 destruct (write_text FS sys (fs w1) _ m) as [f [[os text|text]|]].
                 --- apply (IH _ w0 (emit FS sys ToStderr _
                                       {| fs := f; stdout := stdout w1;
                                          logged := logged w1;
                                          writes := writes w1 ++ _ |})).
                 --- reflexivity.
                 --- apply (IH _ w0 (emit FS sys ToStderr _
                                       {| fs := f; stdout := stdout w1;
                                          logged := logged w1;
                                          writes := writes w1 ++ _ |})).
              ** apply (IH _ w0 (print FS _ w1)).
      * rewrite emit_disabled. apply IH.
    + rewrite emit_disabled. apply IH.
    + reflexivity.
Qed.

End FileLoopFacts.

(** * The command: what it does *)

Ltac writes_kept :=
  unfold print; cbn [writes];
  repeat match goal with
         | H : run_process _ _ _ _ _ _ = _ |- _ => apply run_process_writes in H
         | H : writes _ = _ |- _ => rewrite H
         | |- _ => rewrite emit_writes
         | |- _ => rewrite print_diff_writes
         end.

Ltac stdout_kept :=
  repeat match goal with
         | H : run_process _ _ _ _ _ _ = _ |- _ => apply run_process_stdout in H
         | H : stdout _ = _ |- _ => rewrite H
         | |- _ => rewrite emit_stdout
         end.

Section MainFacts.

Variable FS : Type.
Variable sys : system FS.
Variable E : regex_engine.

Lemma main_stdin_writes (s : sink) (args : arguments) (w w' : world FS)
      (r : io nat) :
  main_stdin FS sys E s args w = (w', r) -> writes w' = writes w.
Proof.
  unfold main_stdin. cbv zeta. intros H.
  repeat break_match_in H; injection H as <- _; writes_kept; reflexivity.
Qed.

Lemma main_stdin_codes (s : sink) (args : arguments) (w w' : world FS)
      (c : nat) :
  main_stdin FS sys E s args w = (w', Return c) ->
  In c [EXIT_SUCCESS; EXIT_FILE_READ_ERROR; EXIT_INTERNAL_ERROR].
Proof.
  unfold main_stdin. cbv zeta. intros H.
  repeat break_match_in H; try discriminate; injection H as _ <-;
    simpl; tauto.
Qed.

Lemma written_from_hints_nil (args : arguments) :
  written_from_hints sys E args [].
Proof. intros p c []. Qed.

Lemma str_eqb_neq (a b : str) : str_eqb a b = false -> a <> b.
Proof. intros H ->. now rewrite str_eqb_refl in H. Qed.

Lemma process_files_written (s : sink) (args : arguments)
      (files : list path) :
  forall code (w w' : world FS) (r : io nat),
    process_files FS sys E s args files code w = (w', r) ->
    exists added,
      writes w' = writes w ++ added /\ written_from_hints sys E args added.
Proof.
  assert (Hkeep : forall (w w1 w' : world FS),
             writes w1 = writes w ->
             (exists added, writes w' = writes w1 ++ added /\
                            written_from_hints sys E args added) ->
             exists added, writes w' = writes w ++ added /\
                           written_from_hints sys E args added).
  { intros w w1 w' Hw (added & Hw' & Ha). exists added. now rewrite <- Hw. }
  induction files as [|file rest IH]; intros code w w' r H.
  - injection H as <- _. exists []. rewrite app_nil_r.
    split; [reflexivity | apply written_from_hints_nil].
  - cbn [process_files] in H. cbv zeta in H.
    destruct (read_text FS sys _ file) as [c|[os text|text]].
    + destruct (run_process FS sys E s c _) as [w1 result] eqn:Hrun.
      pose proof (run_process_result FS sys E s c
                    (emit FS sys s (INFO, py "Processing file: " ++ file) w))
        as Hres.
      rewrite Hrun in Hres. cbn [snd] in Hres.
      apply run_process_writes in Hrun. rewrite emit_writes in Hrun.
      destruct result as [m|e].
      * destruct (str_eqb c m) eqn:Hcm.
        { apply IH in H. apply (Hkeep w _ w' (eq_trans (emit_writes _ _ _ _ _) Hrun) H). }
        destruct (diff args).
        { apply IH in H.
          apply (Hkeep w _ w' (eq_trans (print_diff_writes _ _ _ _ _ _) Hrun) H). }
        destruct (output_dir args) as [dir|] eqn:Hdir.
        -- assert (Hone : written_from_hints sys E args
                            [(output_file FS sys dir file, m)]).
           { intros p c' [[= <- <-]|[]]. exists dir, file, c.
             repeat split; [exact Hdir | now symmetry | now apply str_eqb_neq]. }
           assert (Hadd : forall w2 : world FS,
                      writes w2 = writes w1 ++ [(output_file FS sys dir file, m)] ->
                      (exists added, writes w' = writes w2 ++ added /\
                                     written_from_hints sys E args added) ->
                      exists added, writes w' = writes w ++ added /\
                                    written_from_hints sys E args added).
           { intros w2 Hw2 (added & Hw' & Ha).
             exists ((output_file FS sys dir file, m) :: added). split.
             - rewrite Hw', Hw2, Hrun, <- app_assoc. reflexivity.
             - intros p c' [Hin|Hin]; [apply Hone; left; exact Hin | now apply Ha]. }
           destruct (write_text FS sys (fs w1) _ m) as [f [[os text|text]|]].
           ++ apply IH in H. eapply Hadd; [|exact H]. now rewrite emit_writes.
           ++ injection H as <- _.
              eapply Hadd; [|exists []; rewrite app_nil_r;
                             split; [reflexivity | apply written_from_hints_nil]].
              reflexivity.
           ++ apply IH in H. eapply Hadd; [|exact H]. now rewrite emit_writes.
        -- apply IH in H. apply (Hkeep w _ w' Hrun H).
      * apply IH in H.
        apply (Hkeep w _ w' (eq_trans (emit_writes _ _ _ _ _) Hrun) H).
    + apply IH in H. apply (Hkeep w _ w' (eq_trans (emit_writes _ _ _ _ _)
                                            (emit_writes _ _ _ _ _)) H).
    + injection H as <- _. exists []. rewrite app_nil_r, emit_writes.
      split; [reflexivity | apply written_from_hints_nil].
Qed.

End MainFacts.

Section MainCases.

Variable FS : Type.
Variable sys : system FS.
Variable E : regex_engine.

(** [main] fails in [setup_logging], or goes on with a sink into one of
    its two branches, nothing printed and nothing written yet. *)
Lemma main_cases (args : arguments) (w w' : world FS) (r : io nat) :
  main FS sys E args w = (w', r) ->
  (writes w' = writes w /\ stdout w' = stdout w /\ exists x, r = Throw x) \/
  (exists w0 s,
      writes w0 = writes w /\ stdout w0 = stdout w /\
      (if stdin args then main_stdin FS sys E s args w0
       else main_files FS sys E s args w0) = (w', r)).
Proof.
  unfold main.
  destruct (setup_logging FS sys (log_file args) (quiet args) w)
    as [w0 [s|x]] eqn:Hs;
    apply setup_logging_writes in Hs as [Hw Ho]; intros H.
  - right. exists w0, s. auto.
  - injection H as <- <-. left. eauto.
Qed.

(** The branch of the files ends before the loop, with one of two exit
    codes or an exception, or is the loop over the files found. *)
Lemma main_files_cases (s : sink) (args : arguments) (w w' : world FS)
      (r : io nat) :
  main_files FS sys E s args w = (w', r) ->
  (writes w' = writes w /\ stdout w' = stdout w /\
   forall c, r = Return c ->
             c = EXIT_NO_FILES_MATCHED \/
             (c = EXIT_FILE_WRITE_ERROR /\ output_dir args <> None)) \/
  (exists w1 files,
      writes w1 = writes w /\ stdout w1 = stdout w /\
      process_files FS sys E s args files EXIT_SUCCESS w1 = (w', r)).
Proof.
  unfold main_files.
  destruct (cwd FS sys (fs w)) as [d|x];
    [|intros [= <- <-]; left; repeat split; discriminate].
  destruct (input args) as [patterns|];
    [|intros [= <- <-]; left; repeat split; discriminate].
  destruct (expand FS sys s d patterns [] w) as [w1 [[|f files]|x]] eqn:Hex;
    apply expand_writes in Hex as [Hw Ho].
  - intros [= <- <-]. left. rewrite emit_writes, emit_stdout.
    repeat split; try assumption. intros c [= <-]. now left.
  - destruct (output_dir args) as [dir|].
    + destruct (mkdir FS sys (fs w1) dir) as [fs' [[[|] text|text]|]].
      * intros [= <- <-]. left. rewrite emit_writes, emit_stdout.
        repeat split; try assumption. intros c [= <-]. right.
        split; [reflexivity | discriminate].
      * intros [= <- <-]. left. repeat split; try assumption. discriminate.
      * intros [= <- <-]. left. repeat split; try assumption. discriminate.
      * intros H. right. eexists _, _. split; [|split; [|exact H]].
        -- now rewrite emit_writes.
        -- now rewrite emit_stdout.
    + intros H. right. exists w1, (sorted_set FS sys (f :: files)). auto.
  - intros [= <- <-]. left. repeat split; try assumption. discriminate.
Qed.

Lemma process_files_grows (s : sink) (args : arguments) (files : list path) :
  forall code (w w' : world FS) c,
    process_files FS sys E s args files code w = (w', Return c) -> code <= c.
Proof.
  induction files as [|file rest IH]; intros code w w' c H.
  - injection H as _ <-. apply Nat.le_refl.
  - cbn [process_files] in H. cbv zeta in H.
    repeat break_match_in H; try discriminate; apply IH in H; lia.
Qed.

End MainCases.

(** * The properties of the command *)

Section MainProperties.

Variable FS : Type.
Variable sys : system FS.
Variable E : regex_engine.

(** X11. When [main] returns, the exit code is 0, 2, 3, 4 or 8, never
    the 1 or the 6 the constants also name; from the standard input it
    is 0, 3 or 8. *)
Theorem main_exit_codes (args : arguments) (w w' : world FS) (c : nat) :
  main FS sys E args w = (w', Return c) ->
  In c returned_codes /\
  (stdin args = true ->
   In c [EXIT_SUCCESS; EXIT_FILE_READ_ERROR; EXIT_INTERNAL_ERROR]).
Proof.
  intros H. apply main_cases in H as [(_ & _ & x & Hx)|(w0 & s & _ & _ & H)];
    [discriminate|].
  destruct (stdin args).
  - apply main_stdin_codes in H. split; [|intros _; exact H].
    simpl in *. tauto.
  - split; [|discriminate].
    apply main_files_cases in H as [(_ & _ & Hc)|(w1 & files & _ & _ & H)].
    + destruct (Hc c eq_refl) as [->|[-> _]]; simpl; tauto.
    + apply process_files_codes in H; simpl in *; tauto.
Qed.

(** X12. Reading from the standard input, [main] writes no file,
    whatever the output directory asked for. *)
Theorem stdin_mode_never_writes (args : arguments) (w w' : world FS)
        (r : io nat) :
  stdin args = true ->
  main FS sys E args w = (w', r) ->
  writes w' = writes w.
Proof.
  intros Hstdin H.
  apply main_cases in H as [(Hw & _)|(w0 & s & Hw & _ & H)]; [exact Hw|].
  rewrite Hstdin in H. apply main_stdin_writes in H. congruence.
Qed.

(** X13. With [--diff], [main] writes no file, whatever the output
    directory asked for. *)
Theorem diff_mode_never_writes (args : arguments) (w w' : world FS)
        (r : io nat) :
  diff args = true ->
  main FS sys E args w = (w', r) ->
  writes w' = writes w.
Proof.
  intros Hdiff H.
  apply main_cases in H as [(Hw & _)|(w0 & s & Hw & _ & H)]; [exact Hw|].
  destruct (stdin args).
  - apply main_stdin_writes in H. congruence.
  - apply main_files_cases in H as [(Hw' & _)|(w1 & files & Hw1 & _ & H)];
      [congruence|].
    apply (process_files_diff_writes FS sys E s args files Hdiff) in H.
    congruence.
Qed.

(** X14. Whatever [main] writes goes into the output directory and is a
    text [process_content] returned and that differs from the text it
    was given: no file is written without an output directory, and none
    that the hints left as it was. *)
Theorem writes_only_into_output_dir (args : arguments) (w w' : world FS)
        (r : io nat) :
  main FS sys E args w = (w', r) ->
  exists added,
    writes w' = writes w ++ added /\ written_from_hints sys E args added.
Proof.
  intros H.
  assert (Hnone : writes w' = writes w ->
                  exists added, writes w' = writes w ++ added /\
                                written_from_hints sys E args added).
  { intros Hw. exists []. rewrite app_nil_r.
    split; [exact Hw | apply written_from_hints_nil]. }
  apply main_cases in H as [(Hw & _)|(w0 & s & Hw & _ & H)]; [now apply Hnone|].
  destruct (stdin args).
  - apply main_stdin_writes in H. apply Hnone. congruence.
  - apply main_files_cases in H as [(Hw' & _)|(w1 & files & Hw1 & _ & H)];
      [apply Hnone; congruence|].
    apply process_files_written in H as (added & Hadded & Hfrom).
    exists added. split; [congruence | exact Hfrom].
Qed.

(** X15. Where no file that can be read has a line with the marker,
    [main] over files prints nothing and writes nothing, whatever the
    options. *)
Theorem files_without_hints_untouched (args : arguments) (w w' : world FS)
        (r : io nat) :
  stdin args = false ->
  (forall f p c, read_text FS sys f p = Return c ->
                 no_hint_lines (Py.splitlines c)) ->
  main FS sys E args w = (w', r) ->
  stdout w' = stdout w /\ writes w' = writes w.
Proof.
  intros Hstdin Hread H.
  apply main_cases in H as [(Hw & Ho & _)|(w0 & s & Hw & Ho & H)]; [auto|].
  rewrite Hstdin in H.
  apply main_files_cases in H as [(Hw' & Ho' & _)|(w1 & files & Hw1 & Ho1 & H)].
  - split; congruence.
  - apply (process_files_no_hints FS sys E s args files Hread) in H
      as [Ho' Hw'].
    split; congruence.
Qed.

(** X16. A file that cannot be read does not stop the loop over the
    files: once the files before it are done, the loop logs the error
    and goes on with the files after it, from the exit code reached so
    far raised to 3 at least; and the exit code the loop returns in the
    end is 3 at least. *)
Theorem read_failure_fails_run (s : sink) (args : arguments)
        (before after_it : list path) (file : path) :
  (forall f, exists os text,
        read_text FS sys f file = Throw (Exception os text)) ->
  forall code (w w1 : world FS) c1,
    process_files FS sys E s args before code w = (w1, Return c1) ->
    (exists text : str,
        process_files FS sys E s args (before ++ file :: after_it) code w
        = process_files FS sys E s args after_it
            (Nat.max c1 EXIT_FILE_READ_ERROR)
            (emit FS sys s
               (ERROR, py "Error reading file " ++ file ++ py ": " ++ text)
               (emit FS sys s (INFO, py "Processing file: " ++ file) w1))) /\
    (forall w' c,
        process_files FS sys E s args (before ++ file :: after_it) code w
        = (w', Return c) ->
        EXIT_FILE_READ_ERROR <= c).
Proof.
  intros Hfail code w w1 c1 Hbefore.
  destruct (Hfail (fs (emit FS sys s (INFO, py "Processing file: " ++ file) w1)))
    as (os & text & Hr).
  assert (Hstep : process_files FS sys E s args (before ++ file :: after_it)
                    code w
                  = process_files FS sys E s args after_it
                      (Nat.max c1 EXIT_FILE_READ_ERROR)
                      (emit FS sys s
                         (ERROR, py "Error reading file " ++ file ++ py ": "
                                 ++ text)
                         (emit FS sys s
                            (INFO, py "Processing file: " ++ file) w1))).
  { rewrite process_files_split, Hbefore.
    cbn [process_files]. cbv zeta. now rewrite Hr. }
  split; [exists text; exact Hstep|].
  intros w' c H. rewrite Hstep in H. apply process_files_grows in H.
  unfold EXIT_FILE_READ_ERROR in *. lia.
Qed.

(** X17. From the standard input and without [--diff], [main] prints
    what [process_content] returns, and a line feed, and exits with 0;
    when [process_content] raises it prints nothing and exits with 8. *)
Theorem stdin_prints_processed (args : arguments) (w w' : world FS)
        (content : str) (c : nat) :
  stdin args = true ->
  diff args = false ->
  stdin_read FS sys = Return content ->
  main FS sys E args w = (w', Return c) ->
  match process_content E content with
  | Ok modified => stdout w' = stdout w ++ modified ++ nl /\ c = EXIT_SUCCESS
  | Raise _ => stdout w' = stdout w /\ c = EXIT_INTERNAL_ERROR
  end.
Proof.
  intros Hstdin Hdiff Hread H.
  apply main_cases in H as [(_ & _ & x & Hx)|(w0 & s & _ & Ho & H)];
    [discriminate|].
  rewrite Hstdin in H. unfold main_stdin in H. cbv zeta in H.
  rewrite Hread, Hdiff in H.
  rewrite <- (run_process_result FS sys E s content
                (emit FS sys s (INFO, py "Reading from stdin...") w0)).
  destruct (run_process FS sys E s content _) as [w1 [m|e]] eqn:Hrun;
    apply run_process_stdout in Hrun; rewrite emit_stdout in Hrun;
    injection H as <- <-; cbn [snd].
  - split; [|reflexivity]. unfold print; cbn [stdout]. congruence.
  - split; [|reflexivity]. rewrite emit_stdout. congruence.
Qed.

(** X18. From the standard input with [--diff], a text without a line
    with the marker has [main] print the one line in green that no
    changes were detected, the name left empty in it, where the diff of
    a list of lines with itself is empty. *)
Theorem stdin_diff_without_hints (args : arguments) (w w' : world FS)
        (content : str) (c : nat) :
  stdin args = true ->
  diff args = true ->
  stdin_read FS sys = Return content ->
  no_hint_lines (Py.splitlines content) ->
  (forall a f t, unified_diff FS sys a a f t = []) ->
  main FS sys E args w = (w', Return c) ->
  stdout w' = stdout w ++ Fore_GREEN ++ py "No changes detected for." ++ nl
  /\ c = EXIT_SUCCESS.
Proof.
  intros Hstdin Hdiff Hread Hno Hsame H.
  apply main_cases in H as [(_ & _ & x & Hx)|(w0 & s & _ & Ho & H)];
    [discriminate|].
  rewrite Hstdin in H. unfold main_stdin, run_process in H. cbv zeta in H.
  rewrite Hread, Hdiff, (process_logged_no_hints E content Hno) in H.
  injection H as <- <-. split; [|reflexivity].
  unfold print_diff. rewrite Hsame. unfold print; cbn [stdout].
  rewrite emit_stdout, Ho. reflexivity.
Qed.

End MainProperties.

(** * The command with [--quiet] *)

Section Quiet.

Variable FS : Type.
Variable sys : system FS.
Variable E : regex_engine.

Lemma add_files_same_fs (matched : list path) (w1 w2 : world FS) :
  fs w1 = fs w2 ->
  forall files,
    add_files FS sys matched files w1 = add_files FS sys matched files w2.
Proof.
  intros Hfs. induction matched as [|f rest IH]; intros files; [reflexivity|].
  cbn [add_files]. rewrite Hfs.
  destruct (is_file FS sys (fs w2) f) as [[|]|x]; [apply IH | apply IH | reflexivity].
Qed.

Lemma expand_disabled (cwd : path) (patterns : list str) :
  forall files (w0 w : world FS),
    expand FS sys Disabled cwd patterns files (with_logged w0 w)
    = (with_logged w0 (fst (expand FS sys ToStderr cwd patterns files w)),
       snd (expand FS sys ToStderr cwd patterns files w)).
Proof.
  induction patterns as [|pattern rest IH]; intros files w0 w; [reflexivity|].
  cbn [expand].
  change (fs (with_logged w0 w)) with (fs w).
  destruct (if is_absolute FS sys pattern
            then parent_glob FS sys (fs w) pattern
            else if Py.contains (py "**") pattern
                 then cwd_rglob FS sys (fs w) cwd pattern
                 else cwd_glob FS sys (fs w) cwd pattern) as [matched|x];
    [|reflexivity].
  destruct matched as [|f matched].
  - cbn [add_files]. rewrite emit_disabled. apply IH.
  - rewrite (add_files_same_fs (f :: matched) (with_logged w0 w) w eq_refl).
    destruct (add_files FS sys (f :: matched) files w) as [files'|x];
      [apply IH | reflexivity].
Qed.

Lemma main_stdin_disabled (args : arguments) (w0 w : world FS) :
  main_stdin FS sys E Disabled args (with_logged w0 w)
  = (with_logged w0 (fst (main_stdin FS sys E ToStderr args w)),
     snd (main_stdin FS sys E ToStderr args w)).
Proof.
  unfold main_stdin. cbv zeta. rewrite emit_disabled.
  destruct (stdin_read FS sys) as [c|[os text|text]]; try reflexivity.
  rewrite run_process_disabled.
  destruct (run_process FS sys E ToStderr c _) as [w1 [m|e]]; cbn [fst snd];
    [|reflexivity].
  destruct (diff args); [|reflexivity].
  now rewrite print_diff_disabled.
Qed.

Lemma process_files_set_quiet (s : sink) (q : bool) (args : arguments)
      (files : list path) :
  forall code (w : world FS),
    process_files FS sys E s (set_quiet q args) files code w
    = process_files FS sys E s args files code w.
Proof.
  induction files as [|file rest IH]; intros code w; [reflexivity|].
  cbn [process_files]. cbv zeta.
  change (diff (set_quiet q args)) with (diff args).
  change (output_dir (set_quiet q args)) with (output_dir args).
  repeat (break_match; try apply IH; try reflexivity).
Qed.

Lemma main_files_set_quiet (s : sink) (q : bool) (args : arguments)
      (w : world FS) :
  main_files FS sys E s (set_quiet q args) w = main_files FS sys E s args w.
Proof.
  unfold main_files.
  change (input (set_quiet q args)) with (input args).
  change (output_dir (set_quiet q args)) with (output_dir args).
  repeat (break_match; try apply process_files_set_quiet; try reflexivity).
Qed.

Lemma main_files_disabled (args : arguments) (w0 w : world FS) :
  main_files FS sys E Disabled args (with_logged w0 w)
  = (with_logged w0 (fst (main_files FS sys E ToStderr args w)),
     snd (main_files FS sys E ToStderr args w)).
Proof.
  unfold main_files.
  change (fs (with_logged w0 w)) with (fs w).
  destruct (cwd FS sys (fs w)) as [d|x]; [|reflexivity].
  destruct (input args) as [patterns|]; [|reflexivity].
  rewrite expand_disabled.
  destruct (expand FS sys ToStderr d patterns [] w) as [w1 [[|f files]|x]];
    cbn [fst snd]; try reflexivity.
  destruct (output_dir args) as [dir|].
  - change (fs (with_logged w0 w1)) with (fs w1).
    destruct (mkdir FS sys (fs w1) dir) as [fs' [[[|] text|text]|]];
      try reflexivity.
    apply (process_files_disabled FS sys E args _ _ w0
             (emit FS sys ToStderr (INFO, py "Output directory set to: " ++ dir)
                (set_fs FS fs' w1))).
  - apply process_files_disabled.
Qed.

(** X19. With no log file asked for, [--quiet] changes nothing but the
    records: [main] returns or raises the same, prints the same, leaves
    the same files and makes the same writes as without it, and lets no
    record through. *)
Theorem quiet_changes_only_records (args : arguments) (w : world FS) :
  log_file args = None ->
  quiet args = false ->
  main FS sys E (set_quiet true args) w
  = (with_logged w (fst (main FS sys E args w)), snd (main FS sys E args w)).
Proof.
  intros Hlog Hquiet. unfold main, setup_logging.
  change (quiet (set_quiet true args)) with true.
  change (stdin (set_quiet true args)) with (stdin args).
  rewrite Hlog, Hquiet. cbv iota.
  destruct (stdin args).
  - etransitivity; [|apply main_stdin_disabled].
    now rewrite with_logged_self.
  - rewrite main_files_set_quiet.
    etransitivity; [|apply main_files_disabled].
    now rewrite with_logged_self.
Qed.

End Quiet.

(** * The command at work

    Runs of [main] over files in memory, with the engine above. *)

Lemma lines_eqb_refl (a : list str) : lines_eqb a a = true.
Proof.
  induction a as [|l a IH]; [reflexivity|].
  simpl. now rewrite str_eqb_refl.
Qed.

(** The standard input closed: exit code 3. *)
Lemma main_exit_codes_witness :
  let sys := memory_system []
               (Throw (Exception false (py "I/O operation on closed file."))) in
  let run := main unit sys PyRe.engine stdin_arguments empty_world in
  snd run = Return EXIT_FILE_READ_ERROR /\
  In EXIT_FILE_READ_ERROR returned_codes /\
  In EXIT_FILE_READ_ERROR
     [EXIT_SUCCESS; EXIT_FILE_READ_ERROR; EXIT_INTERNAL_ERROR].
Proof.
  intros sys run.
  assert (H : run = (fst run, Return EXIT_FILE_READ_ERROR))
    by (vm_compute; reflexivity).
  split; [now rewrite H|].
  destruct (main_exit_codes unit sys PyRe.engine stdin_arguments empty_world
              _ _ H) as [H1 H2].
  split; [exact H1 | exact (H2 eq_refl)].
Defined.

(** [--stdin --output-dir out] on a text with a hint. *)
Lemma stdin_mode_never_writes_witness :
  let sys := memory_system two_files (Return hinted_text) in
  let args := set_output_dir (Some (py "out")) stdin_arguments in
  let run := main unit sys PyRe.engine args empty_world in
  stdin args = true /\ writes (fst run) = [].
Proof.
  intros sys args run. split; [reflexivity|].
  exact (stdin_mode_never_writes unit sys PyRe.engine args empty_world
           (fst run) (snd run) eq_refl (surjective_pairing run)).
Defined.

(** [--input a.yml b.yml --output-dir out --diff], the first file with a
    hint that applies. *)
Lemma diff_mode_never_writes_witness :
  let sys := memory_system two_files (Return []) in
  let args := set_diff true (set_output_dir (Some (py "out")) input_arguments) in
  let run := main unit sys PyRe.engine args empty_world in
  diff args = true /\ writes (fst run) = [].
Proof.
  intros sys args run. split; [reflexivity|].
  exact (diff_mode_never_writes unit sys PyRe.engine args empty_world
           (fst run) (snd run) eq_refl (surjective_pairing run)).
Defined.

(** [--input a.yml b.yml --output-dir out]: the first file is written,
    rewritten, the second is not. *)
Lemma writes_only_into_output_dir_witness :
  let sys := memory_system two_files (Return []) in
  let args := set_output_dir (Some (py "out")) input_arguments in
  let run := main unit sys PyRe.engine args empty_world in
  writes (fst run)
  = [(py "out/a.yml",
      py "# cfn-hint: replace: t2 with: t3" ++ nl ++ py "Type: t3.micro" ++ nl)]
  /\ exists added,
      writes (fst run) = [] ++ added /\
      written_from_hints sys PyRe.engine args added.
Proof.
  intros sys args run. split; [vm_compute; reflexivity|].
  exact (writes_only_into_output_dir unit sys PyRe.engine args empty_world
           (fst run) (snd run) (surjective_pairing run)).
Defined.

(** Two files without a hint, and an output directory. *)
Lemma files_without_hints_untouched_witness :
  let sys := memory_system plain_files (Return []) in
  let args := set_output_dir (Some (py "out")) input_arguments in
  let run := main unit sys PyRe.engine args empty_world in
  stdin args = false /\
  (forall f p c, read_text unit sys f p = Return c ->
                 no_hint_lines (Py.splitlines c)) /\
  stdout (fst run) = [] /\ writes (fst run) = [].
Proof.
  intros sys args run.
  assert (Hread : forall f p c, read_text unit sys f p = Return c ->
                                no_hint_lines (Py.splitlines c)).
  { intros f p c. unfold sys, memory_system, plain_files.
    cbn [read_text lookup].
    destruct (str_eqb p (py "/work/a.yml")).
    - intros [= <-] l Hin. each_line Hin.
    - destruct (str_eqb p (py "/work/b.yml")); [|discriminate].
      intros [= <-] l Hin. each_line Hin. }
  split; [reflexivity|]. split; [exact Hread|].
  exact (files_without_hints_untouched unit sys PyRe.engine args empty_world
           (fst run) (snd run) eq_refl Hread (surjective_pairing run)).
Defined.

(** A file that is not there, between two that are: the third file is
    processed and printed, and the exit code is 3. *)
Lemma read_failure_fails_run_witness :
  let sys := memory_system two_files (Return []) in
  let missing := py "/work/missing.yml" in
  let run := process_files unit sys PyRe.engine ToStderr input_arguments
               ([py "/work/b.yml"] ++ missing :: [py "/work/a.yml"])
               EXIT_SUCCESS empty_world in
  (forall f, exists os text,
        read_text unit sys f missing = Throw (Exception os text)) /\
  snd run = Return EXIT_FILE_READ_ERROR /\
  logged (fst run)
  = [(INFO, py "Processing file: /work/b.yml");
     (INFO, py "No changes made to /work/b.yml.");
     (INFO, py "Processing file: /work/missing.yml");
     (ERROR, py "Error reading file /work/missing.yml: No such file");
     (INFO, py "Processing file: /work/a.yml")] /\
  stdout (fst run)
  = py "--- # Modified content for /work/a.yml" ++ nl
    ++ py "# cfn-hint: replace: t2 with: t3" ++ nl
    ++ py "Type: t3.micro" ++ nl ++ nl /\
  EXIT_FILE_READ_ERROR <= EXIT_FILE_READ_ERROR.
Proof.
  intros sys missing run.
  assert (Hfail : forall f, exists os text,
               read_text unit sys f missing = Throw (Exception os text))
    by (intros f; exists true, (py "No such file"); reflexivity).
  assert (H : run = (fst run, Return EXIT_FILE_READ_ERROR))
    by (vm_compute; reflexivity).
  split; [exact Hfail|]. split; [now rewrite H|].
  split; [vm_compute; reflexivity|]. split; [vm_compute; reflexivity|].
  refine (proj2 (read_failure_fails_run unit sys PyRe.engine ToStderr
                   input_arguments [py "/work/b.yml"] [py "/work/a.yml"]
                   missing Hfail EXIT_SUCCESS empty_world _ EXIT_SUCCESS _)
                (fst run) EXIT_FILE_READ_ERROR H).
  vm_compute. reflexivity.
Defined.

(** A text with a hint on the standard input. *)
Lemma stdin_prints_processed_witness :
  let sys := memory_system [] (Return hinted_text) in
  let run := main unit sys PyRe.engine stdin_arguments empty_world in
  snd run = Return EXIT_SUCCESS /\
  stdout (fst run)
  = py "# cfn-hint: replace: t2 with: t3" ++ nl ++ py "Type: t3.micro" ++ nl
    ++ nl.
Proof.
  intros sys run.
  assert (H : run = (fst run, Return EXIT_SUCCESS)) by (vm_compute; reflexivity).
  split; [now rewrite H|].
  pose proof (stdin_prints_processed unit sys PyRe.engine stdin_arguments
                empty_world (fst run) hinted_text EXIT_SUCCESS
                eq_refl eq_refl eq_refl H) as Hout.
  assert (Hp : process_content PyRe.engine hinted_text
               = Ok (py "# cfn-hint: replace: t2 with: t3" ++ nl
                     ++ py "Type: t3.micro" ++ nl))
    by (vm_compute; reflexivity).
  rewrite Hp in Hout. exact (proj1 Hout).
Defined.

(** A text without a hint on the standard input, with [--diff]. *)
Lemma stdin_diff_without_hints_witness :
  let sys := memory_system [] (Return plain_text) in
  let args := set_diff true stdin_arguments in
  let run := main unit sys PyRe.engine args empty_world in
  snd run = Return EXIT_SUCCESS /\
  stdout (fst run) = Fore_GREEN ++ py "No changes detected for." ++ nl.
Proof.
  intros sys args run.
  assert (H : run = (fst run, Return EXIT_SUCCESS)) by (vm_compute; reflexivity).
  split; [now rewrite H|].
  assert (Hno : no_hint_lines (Py.splitlines plain_text))
    by (intros l Hin; each_line Hin).
  assert (Hsame : forall a f t, unified_diff unit sys a a f t = []).
  { intros a f t. unfold sys, memory_system. cbn [unified_diff].
    unfold memory_diff. now rewrite lines_eqb_refl. }
  exact (proj1 (stdin_diff_without_hints unit sys PyRe.engine args empty_world
                  (fst run) plain_text EXIT_SUCCESS
                  eq_refl eq_refl eq_refl Hno Hsame H)).
Defined.

(** [--input a.yml b.yml --quiet] and the same without [--quiet]. *)
Lemma quiet_changes_only_records_witness :
  let sys := memory_system two_files (Return []) in
  let run := main unit sys PyRe.engine input_arguments empty_world in
  main unit sys PyRe.engine (set_quiet true input_arguments) empty_world
  = (with_logged empty_world (fst run), snd run) /\
  length (logged (fst run)) = 3.
Proof.
  intros sys run. split; [|vm_compute; reflexivity].
  exact (quiet_changes_only_records unit sys PyRe.engine input_arguments
           empty_world eq_refl eq_refl).
Defined.
